(** * js-node-express-server: payload codec, error chain and application
      lifecycle, embedded from [src/index.ts], [src/encryptData.ts] and
      [src/decryptData.ts].

    JavaScript values are a first-order datatype: numbers are binary64
    floating-point numbers, strings are sequences of 16-bit code units.
    [JSON.stringify] and [JSON.parse] are written out over it; exceptions
    are an explicit result type; the mutable [App] object is threaded
    through a state monad whose state survives a throw, as object mutation
    does in JavaScript; and what the repository calls but does not contain
    (the engine's conversion between numbers and decimal literals,
    crypto-js, yamljs and the file system it reads, the fixed-status kinds
    of js-node-errors) are interfaces, with stand-ins to run the model on.
    The definitions come first, the facts after. *)

From Stdlib Require Import Floats.
From Stdlib Require Import ZArith List String Ascii Bool Lia.
From Stdlib Require Import Decimal DecimalFacts DecimalPos DecimalN DecimalZ.
Import ListNotations.

Set Implicit Arguments.
Set Warnings "-inexact-float".
Open Scope string_scope.
Open Scope list_scope.

(** A pair, a list and [Some] take the type their context expects, so
    that a string literal in an object literal is read as a JavaScript
    string. *)
Arguments pair {A B} & _ _.
Arguments cons {A} & _ _.
Arguments Some {A} & _.
Arguments List.app {A} & _ _.

(* ================================================================== *)
(** * JavaScript values and exceptions                                  *)
(* ================================================================== *)

Module Js.

(** A UTF-16 code unit, as its high and its low byte. *)
Record unit16 : Type := U16 { high : ascii; low : ascii }.

(** A JavaScript string: a sequence of code units. *)
Definition jsstring : Type := list unit16.

Definition unit_eqb (a b : unit16) : bool :=
  Ascii.eqb (high a) (high b) && Ascii.eqb (low a) (low b).

(** [a === b] on strings *)
Fixpoint str_eqb (a b : jsstring) : bool :=
  match a, b with
  | [], [] => true
  | x :: a', y :: b' => unit_eqb x y && str_eqb a' b'
  | _, _ => false
  end.

(** The code unit of a character below U+0100, and the JavaScript string
    a literal of such characters denotes. *)
Definition of_ascii (c : ascii) : unit16 := U16 Ascii.zero c.

Fixpoint js (s : string) : jsstring :=
  match s with
  | EmptyString => []
  | String c r => of_ascii c :: js r
  end.

Coercion js : string >-> jsstring.

(** The values the server handles.  A number is a binary64 floating-point
    number ([NaN], the infinities and the two zeros included); an object is
    the list of its own enumerable properties in enumeration order. *)
Unset Elimination Schemes.
Inductive value : Type :=
| JUndefined
| JNull
| JBool (b : bool)
| JNum (n : float)
| JStr (s : jsstring)
| JArr (l : list value)
| JObj (l : list (jsstring * value)).
Set Elimination Schemes.

(** Induction principle that reaches inside arrays and objects. *)
Section value_induction.
Variable P : value -> Prop.
Hypothesis Hundef : P JUndefined.
Hypothesis Hnull : P JNull.
Hypothesis Hbool : forall b, P (JBool b).
Hypothesis Hnum : forall n, P (JNum n).
Hypothesis Hstr : forall s, P (JStr s).
Hypothesis Harr : forall l, Forall P l -> P (JArr l).
Hypothesis Hobj : forall l, Forall (fun kv => P (snd kv)) l -> P (JObj l).

Fixpoint value_ind (v : value) : P v :=
  match v with
  | JUndefined => Hundef
  | JNull => Hnull
  | JBool b => Hbool b
  | JNum n => Hnum n
  | JStr s => Hstr s
  | JArr l =>
      Harr ((fix go (l : list value) : Forall P l :=
               match l with
               | [] => Forall_nil P
               | x :: r => Forall_cons x (value_ind x) (go r)
               end) l)
  | JObj l =>
      Hobj ((fix go (l : list (jsstring * value))
               : Forall (fun kv => P (snd kv)) l :=
               match l with
               | [] => Forall_nil _
               | x :: r => Forall_cons x (value_ind (snd x)) (go r)
               end) l)
  end.
End value_induction.

(** [ToBoolean]: [undefined], [null], [false], [0], [-0], [NaN] and the
    empty string are falsy, everything else (every array and object
    included) is truthy. *)
Definition truthy (v : value) : bool :=
  match v with
  | JUndefined | JNull => false
  | JBool b => b
  | JNum n => negb (PrimFloat.eqb n 0 || PrimFloat.is_nan n)
  | JStr s => match s with [] => false | _ :: _ => true end
  | JArr _ | JObj _ => true
  end.

(** An optional field of a TypeScript interface: absent is [undefined]. *)
Definition of_ostring (o : option jsstring) : value :=
  match o with Some s => JStr s | None => JUndefined end.

(** Error classes the server distinguishes with [instanceof]. *)
Inductive ErrClass : Type :=
| C_Error | C_TypeError | C_SyntaxError
  (* express-openapi-validator: OpenApiValidator.error.* *)
| C_BadRequest | C_Unauthorized | C_NotFound | C_MethodNotAllowed
| C_NotAcceptable | C_UnsupportedMediaType
  (* express-jwt-validator *)
| C_JwtUnauthorizedError
  (* js-node-errors *)
| C_ExtendableError | C_ApiError | C_DetailedError | C_UnauthorizedError
| C_EndpointNotFoundError | C_MethodNotAllowedError
| C_NotAcceptableError | C_UnsupportedMediaTypeError.

Scheme Equality for ErrClass.

(** One entry of the validator's [errors] array. *)
Record ValidationErrorItem : Type := mkItem {
  item_path : value;
  item_message : value;
  item_code : value
}.

(** An error object.  [e_status], [e_isPublic] and [e_details] are the
    fields of the js-node-errors classes; [e_errors] is the issue list of a
    validator error; on the other classes they keep their defaults. *)
Unset Elimination Schemes.
Inductive Err : Type := mkErr {
  e_class : ErrClass;
  e_name : jsstring;
  e_message : jsstring;
  e_stack : value;
  e_code : value;
  e_status : Z;
  e_isPublic : bool;
  e_details : list value;
  e_errors : list ValidationErrorItem;
  e_cause : option Err
}.
Set Elimination Schemes.

(** The outcome of evaluating an expression: a value or a thrown error. *)
Inductive Res (A : Type) : Type :=
| Ok (a : A)
| Throw (e : Err).
Arguments Ok {A} & a.
Arguments Throw {A} e.

Definition bind {A B} (r : Res A) (k : A -> Res B) : Res B :=
  match r with Ok a => k a | Throw e => Throw e end.

(** [try { body } catch (e) { handler e }] *)
Definition try_catch {A} (body : Res A) (handler : Err -> Res A) : Res A :=
  match body with Ok a => Ok a | Throw e => handler e end.

(** An error raised by the language runtime or a library, with no
    js-node-errors fields. *)
Definition native_error (c : ErrClass) (name msg : jsstring) : Err :=
  mkErr c name msg JUndefined JUndefined 0 false [] [] None.

(** Own-property lookup in an object literal. *)
Fixpoint lookup (k : jsstring) (l : list (jsstring * value)) : option value :=
  match l with
  | [] => None
  | (k', v) :: r => if str_eqb k k' then Some v else lookup k r
  end.

(** Property read [v.k] for a data property [k] that no prototype defines
    (the server reads [data], [actualData], [randNum]): it throws a
    TypeError on [null] and [undefined], finds the own property of an
    object, and is [undefined] on every other value. *)
Definition get (v : value) (k : jsstring) : Res value :=
  match v with
  | JUndefined =>
      Throw (native_error C_TypeError "TypeError"
               (js "Cannot read properties of undefined (reading '" ++ k ++ js "')"))
  | JNull =>
      Throw (native_error C_TypeError "TypeError"
               (js "Cannot read properties of null (reading '" ++ k ++ js "')"))
  | JObj l => Ok (match lookup k l with Some x => x | None => JUndefined end)
  | _ => Ok JUndefined
  end.

(** [k in v] restricted to own properties of objects. *)
Definition has_own (v : value) (k : jsstring) : bool :=
  match v with
  | JObj l => match lookup k l with Some _ => true | None => false end
  | _ => false
  end.

Fixpoint nodupb (l : list jsstring) : bool :=
  match l with
  | [] => true
  | x :: r => negb (existsb (str_eqb x) r) && nodupb r
  end.

(** The number a string of decimal digits denotes. *)
Definition digit_value (c : unit16) : option N :=
  if Ascii.eqb (high c) Ascii.zero
     && (48 <=? N_of_ascii (low c))%N && (N_of_ascii (low c) <=? 57)%N
  then Some (N_of_ascii (low c) - 48)%N
  else None.

Fixpoint digits_value (acc : N) (s : jsstring) : option N :=
  match s with
  | [] => Some acc
  | c :: r =>
      match digit_value c with
      | Some d => digits_value (acc * 10 + d) r
      | None => None
      end
  end.

(** An array index: a property name that is the canonical decimal of an
    integer below 2^32 - 1. *)
Definition array_index (k : jsstring) : option N :=
  match k with
  | [] => None
  | c :: r =>
      match digits_value 0 k, digit_value c, r with
      | Some n, Some d, _ :: _ =>
          if (d =? 0)%N then None
          else if (n <? 4294967295)%N then Some n else None
      | Some n, _, [] => Some n
      | _, _, _ => None
      end
  end.

(** [OrdinaryOwnPropertyKeys]: the properties whose names are array
    indices are enumerated first, in ascending order, the other ones after
    them, in the order of their creation.  [enumerates_before a b]: a
    property named [a] may be enumerated before one named [b]. *)
Definition enumerates_before (a b : jsstring) : bool :=
  match array_index a, array_index b with
  | Some x, Some y => (x <=? y)%N
  | Some _, None => true
  | None, Some _ => false
  | None, None => true
  end.

Fixpoint enumerated (l : list jsstring) : bool :=
  match l with
  | [] => true
  | x :: r => forallb (enumerates_before x) r && enumerated r
  end.

(** The property names of an object: distinct, and listed as JavaScript
    enumerates them. *)
Definition own_keys (l : list jsstring) : bool := nodupb l && enumerated l.

(** Well-formed values: the lists that stand for an object. *)
Fixpoint wf (v : value) : bool :=
  match v with
  | JArr l => forallb wf l
  | JObj l => own_keys (map fst l) && forallb (fun kv => wf (snd kv)) l
  | _ => true
  end.

(** Values [JSON.stringify] renders without loss: no [undefined] anywhere. *)
Fixpoint defined (v : value) : bool :=
  match v with
  | JUndefined => false
  | JArr l => forallb defined l
  | JObj l => forallb (fun kv => defined (snd kv)) l
  | _ => true
  end.

End Js.
Export Js.

Notation "x <- c ;; k" := (Js.bind c (fun x => k))
  (at level 61, c at next level, right associativity).

(* ================================================================== *)
(** * The engine's conversion between numbers and decimal literals      *)
(* ================================================================== *)

(** A JSON number literal: an optional minus sign, an integer part without
    superfluous zeros, the digits of the fraction ([Nil] when there is no
    fraction) and an optional exponent.  It is written with a lower-case
    [e] and a signed exponent, as [Number::toString] writes it. *)
Record number_literal : Type := mkLiteral {
  negative : bool;
  integer : N;
  fraction : uint;
  exponent : option Z
}.

(** The engine's floating-point conversions.  ECMAScript fixes them, and
    the repository relies on the engine for them. *)
Class Engine : Type := {
  (** [Number::toString(x)] for a finite [x]: the shortest decimal that
      denotes [x] *)
  Number_toString : float -> number_literal;
  (** [StringToNumber] on a decimal literal: the number nearest to it *)
  Number_read : number_literal -> float
}.

(** The contract of ECMAScript for the two conversions: every finite
    number other than [-0] (which is written [0]) is read back from the
    literal written for it. *)
Definition reads_back (E : Engine) : Prop :=
  forall x : float,
    PrimFloat.is_finite x = true -> x <> (-0)%float ->
    Number_read (Number_toString x) = x.

(* ================================================================== *)
(** * JSON.stringify and JSON.parse                                     *)
(* ================================================================== *)

Module JSON.

Local Open Scope char_scope.
Local Open Scope list_scope.

(** A JSON text is a JavaScript string. *)
Definition text : Type := jsstring.

Definition dquote : ascii := "034".
Definition backslash : ascii := "092".

(** [c] is the character [a] *)
Definition is_char (c : unit16) (a : ascii) : bool :=
  Ascii.eqb (high c) Ascii.zero && Ascii.eqb (low c) a.

(** A control character: below U+0020. *)
Definition is_control (c : unit16) : bool :=
  Ascii.eqb (high c) Ascii.zero && (N_of_ascii (low c) <? 32)%N.

(** The halves of a surrogate pair: U+D800 to U+DBFF, U+DC00 to U+DFFF. *)
Definition is_high_surrogate (c : unit16) : bool :=
  (216 <=? N_of_ascii (high c))%N && (N_of_ascii (high c) <=? 219)%N.

Definition is_low_surrogate (c : unit16) : bool :=
  (220 <=? N_of_ascii (high c))%N && (N_of_ascii (high c) <=? 223)%N.

Definition starts_low (s : jsstring) : bool :=
  match s with
  | c :: _ => is_low_surrogate c
  | [] => false
  end.

(** ** Serialisation *)

Definition hex_digit (n : N) : ascii :=
  if (n <? 10)%N then ascii_of_N (48 + n) else ascii_of_N (87 + n).

Definition hex_byte (a : ascii) : text :=
  [of_ascii (hex_digit (N_of_ascii a / 16));
   of_ascii (hex_digit (N_of_ascii a mod 16))].

(** The escape [\uXXXX] of a code unit, in lower-case hexadecimal. *)
Definition unicode_escape_of (c : unit16) : text :=
  of_ascii backslash :: of_ascii "u" :: hex_byte (high c) ++ hex_byte (low c).

(** [QuoteJSONString] on a code unit that is no surrogate: the
    two-character escapes, [\u00xx] for the other control characters, the
    code unit itself otherwise. *)
Definition quote_char (c : unit16) : text :=
  if is_char c dquote then [of_ascii backslash; of_ascii dquote]
  else if is_char c backslash then [of_ascii backslash; of_ascii backslash]
  else if is_char c "008" then [of_ascii backslash; of_ascii "b"]
  else if is_char c "012" then [of_ascii backslash; of_ascii "f"]
  else if is_char c "010" then [of_ascii backslash; of_ascii "n"]
  else if is_char c "013" then [of_ascii backslash; of_ascii "r"]
  else if is_char c "009" then [of_ascii backslash; of_ascii "t"]
  else if is_control c then unicode_escape_of c
  else [c].

(** [QuoteJSONString] on the code units of a string: the two halves of a
    surrogate pair are written as they are, a surrogate that is no half of
    a pair is written as an escape.  [paired] tells that the code unit
    before was a high surrogate. *)
Fixpoint quote_units (paired : bool) (s : jsstring) : text :=
  match s with
  | [] => []
  | c :: r =>
      if is_high_surrogate c then
        if starts_low r then c :: quote_units true r
        else unicode_escape_of c ++ quote_units false r
      else if is_low_surrogate c then
        if paired then c :: quote_units false r
        else unicode_escape_of c ++ quote_units false r
      else quote_char c ++ quote_units false r
  end.

Definition quote (s : jsstring) : text :=
  of_ascii dquote :: quote_units false s ++ [of_ascii dquote].

Fixpoint print_uint (u : uint) : text :=
  match u with
  | Nil => []
  | D0 u => of_ascii "0" :: print_uint u
  | D1 u => of_ascii "1" :: print_uint u
  | D2 u => of_ascii "2" :: print_uint u
  | D3 u => of_ascii "3" :: print_uint u
  | D4 u => of_ascii "4" :: print_uint u
  | D5 u => of_ascii "5" :: print_uint u
  | D6 u => of_ascii "6" :: print_uint u
  | D7 u => of_ascii "7" :: print_uint u
  | D8 u => of_ascii "8" :: print_uint u
  | D9 u => of_ascii "9" :: print_uint u
  end.

Definition print_fraction (f : uint) : text :=
  match f with
  | Nil => []
  | _ => of_ascii "." :: print_uint f
  end.

Definition print_exponent (e : option Z) : text :=
  match e with
  | None => []
  | Some z =>
      of_ascii "e" :: of_ascii (if (z <? 0)%Z then "-" else "+")
        :: print_uint (N.to_uint (Z.abs_N z))
  end.

(** The text of a number literal. *)
Definition print_literal (l : number_literal) : text :=
  (if negative l then [of_ascii "-"] else [])
  ++ print_uint (N.to_uint (integer l))
  ++ print_fraction (fraction l)
  ++ print_exponent (exponent l).

Fixpoint join (sep : text) (l : list text) : text :=
  match l with
  | [] => []
  | [x] => x
  | x :: r => x ++ sep ++ join sep r
  end.

Definition lit_null : text := js "null".
Definition lit_true : text := js "true".
Definition lit_false : text := js "false".

(** ** Parsing *)

Definition is_ws (c : unit16) : bool :=
  is_char c " " || is_char c "009" || is_char c "010" || is_char c "013".

Fixpoint skip_ws (s : text) : text :=
  match s with
  | c :: r => if is_ws c then skip_ws r else s
  | [] => []
  end.

Fixpoint strip_prefix (p s : text) : option text :=
  match p, s with
  | [], _ => Some s
  | a :: p', b :: s' => if unit_eqb a b then strip_prefix p' s' else None
  | _ :: _, [] => None
  end.

Definition hex_value (c : unit16) : option N :=
  let n := N_of_ascii (low c) in
  if negb (Ascii.eqb (high c) Ascii.zero) then None
  else if (48 <=? n)%N && (n <=? 57)%N then Some (n - 48)%N
  else if (97 <=? n)%N && (n <=? 102)%N then Some (n - 87)%N
  else if (65 <=? n)%N && (n <=? 70)%N then Some (n - 55)%N
  else None.

Definition byte_of_hex (a b : unit16) : option ascii :=
  match hex_value a, hex_value b with
  | Some x, Some y => Some (ascii_of_N (x * 16 + y))
  | _, _ => None
  end.

(** The code unit a [u] escape with four hex digits denotes. *)
Definition unicode_escape (a b c d : unit16) : option unit16 :=
  match byte_of_hex a b, byte_of_hex c d with
  | Some h, Some l => Some (U16 h l)
  | _, _ => None
  end.

(** The characters of a string literal after its opening quote, up to and
    including the closing quote. *)
Fixpoint parse_chars (s : text) : option (jsstring * text) :=
  match s with
  | [] => None
  | c :: r =>
      if is_char c dquote then Some ([], r)
      else if is_char c backslash then
        match r with
        | e :: r1 =>
            let simple (x : ascii) :=
              match parse_chars r1 with
              | Some (str, r') => Some (of_ascii x :: str, r')
              | None => None
              end in
            if is_char e dquote then simple dquote
            else if is_char e backslash then simple backslash
            else if is_char e "/" then simple "/"
            else if is_char e "b" then simple "008"
            else if is_char e "f" then simple "012"
            else if is_char e "n" then simple "010"
            else if is_char e "r" then simple "013"
            else if is_char e "t" then simple "009"
            else if is_char e "u" then
              match r1 with
              | h1 :: h2 :: h3 :: h4 :: r2 =>
                  match unicode_escape h1 h2 h3 h4, parse_chars r2 with
                  | Some x, Some (str, r') => Some (x :: str, r')
                  | _, _ => None
                  end
              | _ => None
              end
            else None
        | [] => None
        end
      else if is_control c then None
      else match parse_chars r with
           | Some (str, r') => Some (c :: str, r')
           | None => None
           end
  end.

Definition digit_of (c : unit16) : option (uint -> uint) :=
  if is_char c "0" then Some D0
  else if is_char c "1" then Some D1
  else if is_char c "2" then Some D2
  else if is_char c "3" then Some D3
  else if is_char c "4" then Some D4
  else if is_char c "5" then Some D5
  else if is_char c "6" then Some D6
  else if is_char c "7" then Some D7
  else if is_char c "8" then Some D8
  else if is_char c "9" then Some D9
  else None.

Fixpoint read_uint (s : text) : uint * text :=
  match s with
  | [] => (Nil, [])
  | c :: r =>
      match digit_of c with
      | Some d => let (u, r') := read_uint r in (d u, r')
      | None => (Nil, s)
      end
  end.

(** The integer part of a JSON number: [0], or digits that do not start
    with [0]. *)
Definition int_digits_ok (u : uint) : bool :=
  match u with
  | Nil => false
  | D0 Nil => true
  | D0 _ => false
  | _ => true
  end.

Definition has_digits (u : uint) : bool :=
  match u with Nil => false | _ => true end.

(** An optional fraction: a point and at least one digit. *)
Definition read_fraction (s : text) : option (uint * text) :=
  match s with
  | c :: r =>
      if is_char c "." then
        let (u, r') := read_uint r in
        if has_digits u then Some (u, r') else None
      else Some (Nil, s)
  | [] => Some (Nil, [])
  end.

(** An optional exponent: [e] or [E], an optional sign and at least one
    digit. *)
Definition read_exponent (s : text) : option (option Z * text) :=
  match s with
  | c :: r =>
      if is_char c "e" || is_char c "E" then
        let (minus, r1) :=
          match r with
          | d :: r' =>
              if is_char d "-" then (true, r')
              else if is_char d "+" then (false, r')
              else (false, r)
          | [] => (false, r)
          end in
        let (u, r2) := read_uint r1 in
        if has_digits u
        then Some (Some (if minus then (- Z.of_N (N.of_uint u))%Z
                         else Z.of_N (N.of_uint u)), r2)
        else None
      else Some (None, s)
  | [] => Some (None, [])
  end.

(** A number literal at the head of a text. *)
Definition read_literal (s : text) : option (number_literal * text) :=
  let (minus, s1) := match s with
                     | c :: r => if is_char c "-" then (true, r) else (false, s)
                     | [] => (false, s)
                     end in
  let (u, r) := read_uint s1 in
  if int_digits_ok u then
    match read_fraction r with
    | Some (f, r1) =>
        match read_exponent r1 with
        | Some (e, r2) => Some (mkLiteral minus (N.of_uint u) f e, r2)
        | None => None
        end
    | None => None
    end
  else None.

(** A new property named [k] is enumerated before the one named [k']:
    [k] is an array index, and [k'] is a greater one or none. *)
Definition precedes (k k' : jsstring) : bool :=
  match array_index k, array_index k' with
  | Some x, Some y => (x <? y)%N
  | Some _, None => true
  | None, _ => false
  end.

(** [CreateDataProperty] while parsing an object: a repeated name keeps its
    place and takes the later value; a new name takes its place in the
    enumeration, after the names created before it unless it is an array
    index. *)
Fixpoint obj_set (l : list (jsstring * value)) (k : jsstring) (v : value)
  : list (jsstring * value) :=
  match l with
  | [] => [(k, v)]
  | (k', v') :: r =>
      if str_eqb k k' then (k', v) :: r
      else if precedes k k' then (k, v) :: (k', v') :: r
      else (k', v') :: obj_set r k v
  end.

Section with_engine.
Context {E : Engine}.

(** [SerializeJSONProperty]: [None] is the [undefined] that
    [JSON.stringify] answers on a value it does not render.  A number that
    is not finite is written [null].  Inside an array a value that is not
    rendered is written [null]; inside an object its property is left
    out. *)
Fixpoint render (v : value) : option text :=
  match v with
  | JUndefined => None
  | JNull => Some lit_null
  | JBool true => Some lit_true
  | JBool false => Some lit_false
  | JNum n =>
      Some (if PrimFloat.is_finite n then print_literal (Number_toString n)
            else lit_null)
  | JStr s => Some (quote s)
  | JArr l =>
      Some (of_ascii "[" :: join [of_ascii ","]
                     (map (fun x => match render x with
                                    | Some t => t
                                    | None => lit_null
                                    end) l) ++ [of_ascii "]"])
  | JObj l =>
      Some (of_ascii "{" :: join [of_ascii ","]
                     (flat_map (fun kv => match render (snd kv) with
                                          | Some t => [quote (fst kv) ++ of_ascii ":" :: t]
                                          | None => []
                                          end) l) ++ [of_ascii "}"])
  end.

(** [JSON.stringify(v)]: a string, or [undefined]. *)
Definition stringify (v : value) : value :=
  match render v with
  | Some t => JStr t
  | None => JUndefined
  end.

(** A number: its literal, read by the engine. *)
Definition parse_number (s : text) : option (value * text) :=
  match read_literal s with
  | Some (l, r) => Some (JNum (Number_read l), r)
  | None => None
  end.

Fixpoint parse_value (fuel : nat) (s : text) {struct fuel}
  : option (value * text) :=
  match fuel with
  | O => None
  | S f =>
      match skip_ws s with
      | [] => None
      | c :: r =>
          if is_char c "n" then
            match strip_prefix (js "ull") r with
            | Some r' => Some (JNull, r') | None => None end
          else if is_char c "t" then
            match strip_prefix (js "rue") r with
            | Some r' => Some (JBool true, r') | None => None end
          else if is_char c "f" then
            match strip_prefix (js "alse") r with
            | Some r' => Some (JBool false, r') | None => None end
          else if is_char c dquote then
            match parse_chars r with
            | Some (str, r') => Some (JStr str, r') | None => None end
          else if is_char c "[" then
            match skip_ws r with
            | c' :: r' =>
                if is_char c' "]" then Some (JArr [], r')
                else parse_elements f (c' :: r') []
            | [] => None
            end
          else if is_char c "{" then
            match skip_ws r with
            | c' :: r' =>
                if is_char c' "}" then Some (JObj [], r')
                else parse_members f (c' :: r') []
            | [] => None
            end
          else parse_number (c :: r)
      end
  end

with parse_elements (fuel : nat) (s : text) (acc : list value) {struct fuel}
  : option (value * text) :=
  match fuel with
  | O => None
  | S f =>
      match parse_value f s with
      | None => None
      | Some (v, r) =>
          match skip_ws r with
          | c :: r' =>
              if is_char c "," then parse_elements f r' (acc ++ [v])
              else if is_char c "]" then Some (JArr (acc ++ [v]), r')
              else None
          | [] => None
          end
      end
  end

with parse_members (fuel : nat) (s : text) (acc : list (jsstring * value))
  {struct fuel} : option (value * text) :=
  match fuel with
  | O => None
  | S f =>
      match skip_ws s with
      | q :: r0 =>
          if is_char q dquote then
            match parse_chars r0 with
            | None => None
            | Some (k, r1) =>
                match skip_ws r1 with
                | c1 :: r2 =>
                    if is_char c1 ":" then
                      match parse_value f r2 with
                      | None => None
                      | Some (v, r3) =>
                          match skip_ws r3 with
                          | c :: r' =>
                              if is_char c ","
                              then parse_members f r' (obj_set acc k v)
                              else if is_char c "}"
                              then Some (JObj (obj_set acc k v), r')
                              else None
                          | [] => None
                          end
                      end
                    else None
                | [] => None
                end
            end
          else None
      | [] => None
      end
  end.

(** [JSON.parse(s)]: the value, or a thrown SyntaxError (whose message,
    the engine's diagnostic, is not modelled). *)
Definition parse (s : jsstring) : Res value :=
  match parse_value (S (List.length s)) s with
  | Some (v, r) =>
      match skip_ws r with
      | [] => Ok v
      | _ :: _ =>
          Throw (native_error C_SyntaxError "SyntaxError"%string
                   "Unexpected token in JSON"%string)
      end
  | None => Throw (native_error C_SyntaxError "SyntaxError"%string
                     "Unexpected token in JSON"%string)
  end.

(** What a value becomes on the way through [stringify] and [parse]: a
    number is read back from its literal, a number that is not finite has
    become [null]. *)
Fixpoint normal (v : value) : value :=
  match v with
  | JNum n =>
      if PrimFloat.is_finite n then JNum (Number_read (Number_toString n))
      else JNull
  | JArr l =>
      JArr (map (fun x => match x with JUndefined => JNull | _ => normal x end) l)
  | JObj l =>
      JObj (flat_map (fun kv => match snd kv with
                                | JUndefined => []
                                | _ => [(fst kv, normal (snd kv))]
                                end) l)
  | _ => v
  end.

(** ** Notions the round-trip argument is stated with *)

Definition elem_text (x : value) : text :=
  match render x with Some t => t | None => lit_null end.

Definition elem_normal (x : value) : value :=
  match x with JUndefined => JNull | _ => normal x end.

Definition member_text (kv : jsstring * value) : text :=
  quote (fst kv) ++ of_ascii ":" :: elem_text (snd kv).

Definition member_normal (kv : jsstring * value) : jsstring * value :=
  (fst kv, normal (snd kv)).

End with_engine.

(** What may follow a value inside a text: nothing, or one of [,] []] [}]. *)
Definition delimited (rest : text) : Prop :=
  match rest with
  | [] => True
  | c :: _ => c = of_ascii "," \/ c = of_ascii "]" \/ c = of_ascii "}"
  end.

Definition is_undefined (v : value) : bool :=
  match v with JUndefined => true | _ => false end.

Definition rendered_members (l : list (jsstring * value)) : list (jsstring * value) :=
  filter (fun kv => negb (is_undefined (snd kv))) l.

Definition parses {E : Engine} (x : value) : Prop :=
  forall fuel rest,
    List.length (elem_text x) <= fuel -> delimited rest ->
    parse_value fuel (elem_text x ++ rest) = Some (elem_normal x, rest).

(** A rendered value starts with a character that is neither white space
    nor a closing bracket. *)
Definition starts_value (t : text) : bool :=
  match t with
  | c :: _ => negb (is_ws c) && negb (is_char c "]") && negb (is_char c "}")
  | [] => false
  end.

(** A value with no [undefined] in it and distinct property names. *)
Definition sound (v : value) : bool := defined v && wf v.

End JSON.

(* ================================================================== *)
(** * constants.ts                                                      *)
(* ================================================================== *)

Module GLOBAL.
Definition ENV_DEV : string := "development".
Definition ENV_TEST : string := "test".
Definition ENV_PROD : string := "production".
End GLOBAL.

Module API.
Definition HEALTH_CHECK : string := "/health-check".
Definition READY_CHECK : string := "/ready-check".
Definition SWAGGER_UI : string := "/api-docs".
End API.

Module ENVIRONMENT_MODE_TYPE.
Definition test : string := "test".
Definition dev : string := "development".
Definition uat : string := "uat".
Definition prod : string := "production".
End ENVIRONMENT_MODE_TYPE.

Module httpStatus.
Definition OK : Z := 200.
Definition NOT_FOUND : Z := 404.
Definition SERVICE_UNAVAILABLE : Z := 503.
End httpStatus.

(* ================================================================== *)
(** * The collaborators outside the repository                          *)
(* ================================================================== *)

(** crypto-js.  [Salt] is the randomness [AES.encrypt] draws for a
    passphrase; the message and the ciphertext are whatever JavaScript
    value the caller hands over. *)
Class CryptoJS : Type := {
  Salt : Type;
  CipherParams : Type;
  WordArray : Type;
  (** [CryptoJS.AES.encrypt(message, key)] *)
  AES_encrypt : Salt -> value -> jsstring -> Res CipherParams;
  (** [cipherParams.toString()] *)
  CipherParams_toString : CipherParams -> jsstring;
  (** [CryptoJS.AES.decrypt(ciphertext, key)] *)
  AES_decrypt : value -> jsstring -> Res WordArray;
  (** [wordArray.toString(CryptoJS.enc.Utf8)] *)
  Utf8_stringify : WordArray -> Res jsstring
}.

(** The contract of a cipher: what was encrypted under a key decrypts under
    that key to the same text. *)
Definition cipher_inverts (C : CryptoJS) : Prop :=
  forall (salt : Salt) (plain key : jsstring),
  exists cp w,
    AES_encrypt salt (JStr plain) key = Ok cp /\
    AES_decrypt (JStr (CipherParams_toString cp)) key = Ok w /\
    Utf8_stringify w = Ok plain.

(** yamljs, the file system it reads, and the engine's stack capture. *)
Class Host : Type := {
  (** the files as a call finds them: what is on disk may differ from one
      call to the next *)
  Disk : Type;
  (** [YAML.load(path)], which reads the file when it is called *)
  YAML_load : Disk -> value -> Res value;
  (** the [stack] text a new error of a given name and message receives *)
  capture_stack : jsstring -> jsstring -> jsstring
}.

(** The js-node-errors kinds with a fixed status, built from a message and
    the error they wrap.  The repository only calls them. *)
Class FixedKinds : Type := {
  UnauthorizedError : jsstring -> Err -> Err;
  EndpointNotFoundError : jsstring -> Err -> Err;
  MethodNotAllowedError : jsstring -> Err -> Err;
  NotAcceptableError : jsstring -> Err -> Err;
  UnsupportedMediaTypeError : jsstring -> Err -> Err
}.

(* ================================================================== *)
(** * encryptData.ts and decryptData.ts                                 *)
(* ================================================================== *)

Module Codec.
Section codec.
Context {E : Engine} {C : CryptoJS}.

Definition encryptData (salt : Salt) (data : value) (encryptionKey : jsstring)
  : Res jsstring :=
  cp <- AES_encrypt salt (JSON.stringify data) encryptionKey ;;
  Ok (CipherParams_toString cp).

(** The [console.error] of the outer handler writes to the process log
    only and is left out. *)
Definition decryptData (encryptedData : value) (encryptionKey : jsstring)
  : Res value :=
  try_catch
    (bytes <- AES_decrypt encryptedData encryptionKey ;;
     decryptedData <- Utf8_stringify bytes ;;
     try_catch
       (parsedData <- JSON.parse decryptedData ;; Ok parsedData)
       (fun parseError => Ok (JStr decryptedData)))
    (fun error => Ok JNull).

(** The numbers JSON carries: a number is finite, and the engine reads it
    back from the literal it writes for it.  In an engine that follows
    ECMAScript these are all finite numbers but [-0], which is written
    [0]. *)
Fixpoint json_numbers (v : value) : bool :=
  match v with
  | JNum n =>
      (PrimFloat.is_finite n
       && PrimFloat.Leibniz.eqb (Number_read (Number_toString n)) n)%bool
  | JArr l => forallb json_numbers l
  | JObj l => forallb (fun kv => json_numbers (snd kv)) l
  | _ => true
  end.

(** Values whose numbers are finite and other than [-0]. *)
Fixpoint finite_numbers (v : value) : bool :=
  match v with
  | JNum n =>
      (PrimFloat.is_finite n && negb (PrimFloat.Leibniz.eqb n (-0)%float))%bool
  | JArr l => forallb finite_numbers l
  | JObj l => forallb (fun kv => finite_numbers (snd kv)) l
  | _ => true
  end.

(** A JSON-serializable payload: a well-formed value with no [undefined]
    in it, whose numbers are numbers of JSON. *)
Definition serializable (v : value) : bool :=
  (wf v && defined v && json_numbers v)%bool.

End codec.

End Codec.

(* ================================================================== *)
(** * js-node-errors                                                    *)
(* ================================================================== *)

Module Errors.

(** Modelled from the spec: the class hierarchy of js-node-errors, which is
    not part of the repository.  Every specific kind is an [ApiError], and
    an [ApiError] is an [ExtendableError]. *)
Definition is_api_class (c : ErrClass) : bool :=
  match c with
  | C_ApiError | C_DetailedError | C_UnauthorizedError
  | C_EndpointNotFoundError | C_MethodNotAllowedError
  | C_NotAcceptableError | C_UnsupportedMediaTypeError => true
  | _ => false
  end.

(** [err instanceof c] *)
Definition instanceof (err : Err) (c : ErrClass) : bool :=
  match c with
  | C_Error => true
  | C_ExtendableError =>
      is_api_class (e_class err) || ErrClass_beq (e_class err) C_ExtendableError
  | C_ApiError => is_api_class (e_class err)
  | _ => ErrClass_beq (e_class err) c
  end.

(** The options object of the [ApiError] constructors. *)
Record Options : Type := mkOptions {
  o_code : value;
  o_status : option Z;
  o_isPublic : option bool
}.

Definition no_options : Options := mkOptions JUndefined None None.

(** The values an error carries are well-formed JavaScript values. *)
Definition error_wf (e : Err) : bool :=
  wf (e_code e) && wf (e_stack e) && forallb wf (e_details e).

Section constructors.
Context {H : Host}.

(** Modelled from the spec: [new ApiError(message, options, cause)], with
    the defaults of the canonical error (code [error.unexpected], status
    500, not public). *)
Definition ApiError (message : jsstring) (options : Options) (cause : option Err)
  : Err :=
  mkErr C_ApiError "ApiError" message
        (JStr (capture_stack "ApiError" message))
        (match o_code options with
         | JUndefined => JStr "error.unexpected"
         | c => c
         end)
        (match o_status options with Some s => s | None => 500%Z end)
        (match o_isPublic options with Some b => b | None => false end)
        [] [] cause.

(** Modelled from the spec: [new DetailedError(message, details, options,
    cause)], an [ApiError] that carries a details list. *)
Definition DetailedError (message : jsstring) (details : list value)
  (options : Options) (cause : option Err) : Err :=
  mkErr C_DetailedError "DetailedError" message
        (JStr (capture_stack "DetailedError" message))
        (match o_code options with
         | JUndefined => JStr "error.unexpected"
         | c => c
         end)
        (match o_status options with Some s => s | None => 500%Z end)
        (match o_isPublic options with Some b => b | None => false end)
        details [] cause.

End constructors.
End Errors.

(* ================================================================== *)
(** * index.ts                                                          *)
(* ================================================================== *)

Module Server.

(** The caller's route table; the server only mounts it. *)
Record Router : Type := mkRouter { routes : list (string * string) }.

(** A registered layer of the Express application, in the order of
    registration. *)
Inductive Stage : Type :=
| S_cors (options : value)
| S_urlencoded
| S_json (limit : option string)
| S_cookieParser
| S_custom (label : string)
| S_logging
| S_helmet
| S_frameguard
| S_get (path : string)
| S_decoder
| S_dynamicRouter
| S_modifyResponseBody
| S_router (path : string) (r : Router)
| S_notFound
| S_openApiErrorTranslation
| S_errorTranslation
| S_errorHandling.

(** A layer of the dynamic router. *)
Inductive RouterStage : Type :=
| R_swaggerUI (path : string) (document : value)
| R_openApiValidator (apiSpec : value).

(** The Express application object. *)
Record Express : Type := mkExpress {
  stack : list Stage;
  x_powered_by : bool
}.

Definition express : Express := mkExpress [] true.

Definition use (s : Stage) (app : Express) : Express :=
  mkExpress (stack app ++ [s]) (x_powered_by app).

(** The configuration.  The environment name and the access-log paths
    take part in comparisons with fixed names and in a substring search
    only, and are kept as plain texts; the paths and the key, which reach
    JavaScript values, are JavaScript strings. *)
Record Config : Type := mkConfig {
  router : Router;
  logger : value;
  ignoredAccessLogPaths : string;
  openapiBaseSchema : option jsstring;
  openapiSpec : value;
  env : string;
  shouldCheckOpenApiBaseSchema : option bool;
  requestPayloadLimit : option string;
  corsOptions : value;
  encryptionKey : option jsstring;
  (** the hook receives the application and registers its own parsers *)
  customBodyParser : option (Express -> Express)
}.

(** The fields of an [App] instance. *)
Record App : Type := mkApp {
  app : Express;
  readyState : bool;
  config : Config;
  dynamicRouter : option (list RouterStage)
}.

Definition configuration_error : Err :=
  native_error C_Error "Error"
    "Error in app configuration either openapiBaseSchema or openapiSpec have to be provided.".

(** [new App(appConfig)] *)
Definition constructor (appConfig : Config) : Res App :=
  let shouldCheckOpenApiBaseSchema :=
    match shouldCheckOpenApiBaseSchema appConfig with
    | Some false => false
    | _ => true
    end in
  if shouldCheckOpenApiBaseSchema
     && negb (truthy (of_ostring (openapiBaseSchema appConfig)))
     && negb (truthy (openapiSpec appConfig))
  then Throw configuration_error
  else
    let app0 := express in
    let app1 :=
      if negb (truthy (corsOptions appConfig))
      then use (S_cors JUndefined) app0
      else use (S_cors (corsOptions appConfig)) app0 in
    let app2 :=
      match customBodyParser appConfig with
      | None =>
          use S_cookieParser
            (use (S_json (requestPayloadLimit appConfig))
               (use S_urlencoded app1))
      | Some hook => hook app1
      end in
    Ok (mkApp app2 false appConfig None).

(** ** Methods: a state monad over the instance.  The state a method has
    reached when it throws is kept. *)
Definition M (A : Type) : Type := App -> Res A * App.

Definition ret {A} (a : A) : M A := fun s => (Ok a, s).

Definition throw {A} (e : Err) : M A := fun s => (Throw e, s).

Definition bindM {A B} (m : M A) (k : A -> M B) : M B :=
  fun s => match m s with
           | (Ok a, s') => k a s'
           | (Throw e, s') => (Throw e, s')
           end.

Definition lift {A} (r : Res A) : M A := fun s => (r, s).

Definition gets {A} (f : App -> A) : M A := fun s => (Ok (f s), s).

Definition app_use (st : Stage) : M unit :=
  fun s => (Ok tt, mkApp (use st (app s)) (readyState s) (config s) (dynamicRouter s)).

Definition set_readyState (b : bool) : M unit :=
  fun s => (Ok tt, mkApp (app s) b (config s) (dynamicRouter s)).

Definition set_dynamicRouter (r : option (list RouterStage)) : M unit :=
  fun s => (Ok tt, mkApp (app s) (readyState s) (config s) r).

Notation "x <~ c ;; k" := (bindM c (fun x => k))
  (at level 61, c at next level, right associativity).
Notation "c ;;; k" := (bindM c (fun _ => k))
  (at level 61, right associativity).

Definition not_created : Err :=
  native_error C_Error "Error" "Dynamic router is used before it's created".

(** [this.dynamicRouter.use(layer)] behind its guard. *)
Definition dynamicRouter_use (layer : RouterStage) : M unit :=
  r <~ gets dynamicRouter ;;
  match r with
  | None => throw not_created
  | Some layers => set_dynamicRouter (Some (layers ++ [layer]))
  end.

Section methods.
Context {H : Host}.

Definition initLogging : M unit := app_use S_logging.

Definition initSecurity : M unit :=
  app_use S_helmet ;;;
  app_use S_frameguard ;;;
  (fun s => (Ok tt, mkApp (mkExpress (stack (app s)) false)
                          (readyState s) (config s) (dynamicRouter s))).

Definition initHealth : M unit :=
  app_use (S_get API.HEALTH_CHECK) ;;;
  app_use (S_get API.READY_CHECK) ;;;
  app_use (S_get "/").

Definition decoder : M unit := app_use S_decoder.

Definition registerDynamicRouter : M unit := app_use S_dynamicRouter.

Definition initSwaggerUI (disk : Disk) (openApiSpec : value) : M unit :=
  r <~ gets dynamicRouter ;;
  match r with
  | None => throw not_created
  | Some _ =>
      cfg <~ gets config ;;
      document <~ lift (if truthy openApiSpec then Ok openApiSpec
                        else YAML_load disk (of_ostring (openapiBaseSchema cfg))) ;;
      dynamicRouter_use (R_swaggerUI API.SWAGGER_UI document)
  end.

Definition initOpenApiValidation (openapiSpec : value) : M unit :=
  cfg <~ gets config ;;
  dynamicRouter_use
    (R_openApiValidator (if truthy openapiSpec then openapiSpec
                         else of_ostring (openapiBaseSchema cfg))).

(** The [logger.info] line is left out. *)
Definition reloadDynamicRouter (disk : Disk) (openApiSpec : value) : M unit :=
  set_dynamicRouter (Some []) ;;;
  cfg <~ gets config ;;
  if truthy openApiSpec || truthy (of_ostring (openapiBaseSchema cfg))
  then initSwaggerUI disk openApiSpec ;;; initOpenApiValidation openApiSpec
  else ret tt.

Definition modifyResponseBody : M unit := app_use S_modifyResponseBody.

Definition initRoutes : M unit :=
  cfg <~ gets config ;;
  app_use (S_router "/" (router cfg)) ;;;
  app_use S_notFound.

Definition openApiErrorTranslation : M unit := app_use S_openApiErrorTranslation.

Definition initErrorTranslation : M unit :=
  openApiErrorTranslation ;;;
  app_use S_errorTranslation.

Definition initErrorHandling : M unit := app_use S_errorHandling.

Definition init (disk : Disk) : M Express :=
  initLogging ;;;
  initSecurity ;;;
  initHealth ;;;
  decoder ;;;
  cfg <~ gets config ;;
  reloadDynamicRouter disk (openapiSpec cfg) ;;;
  registerDynamicRouter ;;;
  (if truthy (openapiSpec cfg) || truthy (of_ostring (openapiBaseSchema cfg))
   then initOpenApiValidation (openapiSpec cfg)
   else ret tt) ;;;
  modifyResponseBody ;;;
  initRoutes ;;;
  initErrorTranslation ;;;
  initErrorHandling ;;;
  set_readyState true ;;;
  gets app.

Definition shutdown : M unit := set_readyState false.

(** The public operations of an instance, each with the files its call
    finds, and a run of a sequence of them; a caller that catches a throw
    goes on with the next one. *)
Inductive Op : Type :=
| OpInit (disk : Disk)
| OpReloadDynamicRouter (disk : Disk) (openApiSpec : value)
| OpShutdown.

Definition run_op (o : Op) (s : App) : App :=
  match o with
  | OpInit disk => snd (init disk s)
  | OpReloadDynamicRouter disk spec => snd (reloadDynamicRouter disk spec s)
  | OpShutdown => snd (shutdown s)
  end.

Definition run_ops (ops : list Op) (s : App) : App :=
  fold_left (fun s o => run_op o s) ops s.

(** The layers one call of [init] appends to the application. *)
Definition init_stages (cfg : Config) : list Stage :=
  [S_logging; S_helmet; S_frameguard;
   S_get API.HEALTH_CHECK; S_get API.READY_CHECK; S_get "/";
   S_decoder; S_dynamicRouter; S_modifyResponseBody;
   S_router "/" (router cfg); S_notFound;
   S_openApiErrorTranslation; S_errorTranslation; S_errorHandling].

(** The layers [init] has appended when the schema document fails to
    load. *)
Definition stages_before_router : list Stage :=
  [S_logging; S_helmet; S_frameguard;
   S_get API.HEALTH_CHECK; S_get API.READY_CHECK; S_get "/"; S_decoder].

Definition has_schema (cfg : Config) : bool :=
  truthy (openapiSpec cfg) || truthy (of_ostring (openapiBaseSchema cfg)).

Definition validator_source (cfg : Config) : value :=
  if truthy (openapiSpec cfg) then openapiSpec cfg
  else of_ostring (openapiBaseSchema cfg).

Definition is_dynamicRouter (st : Stage) : bool :=
  match st with S_dynamicRouter => true | _ => false end.

(** The layers other than the dispatch into the dynamic route table. *)
Definition one_time_stages (l : list Stage) : list Stage :=
  filter (fun st => negb (is_dynamicRouter st)) l.

End methods.

(** ** The handlers the stages register *)

Record Request : Type := mkRequest {
  req_method : string;
  req_headers : list (jsstring * value);
  req_body : value;
  req_randNum : value
}.

Record Response : Type := mkResponse {
  headersSent : bool;
  statusCode : Z;
  (** what was handed to the socket: a string, or [undefined] so far *)
  body : value
}.

(** [res.status(code)] *)
Definition res_status (code : Z) (res : Response) : Response :=
  mkResponse (headersSent res) code (body res).

(** [res.json(obj)]: the body is the JSON text of [obj]. *)
Definition res_json {E : Engine} (obj : value) (res : Response) : Response :=
  mkResponse true (statusCode res) (JSON.stringify obj).

Section handlers.
Context {E : Engine} {C : CryptoJS} {H : Host} {K : FixedKinds}.

(** The middleware of [decoder]: the request it passes to [next()], or the
    error it throws. *)
Definition decoder_handler (cfg : Config) (request : Request) : Res Request :=
  let envKey := encryptionKey cfg in
  cond <-
    (if truthy (req_body request) then
       data <- get (req_body request) "data" ;;
       Ok (truthy data
           && truthy (of_ostring envKey)
           && negb (String.eqb (env cfg) ENVIRONMENT_MODE_TYPE.dev))
     else Ok false) ;;
  if cond then
    data <- get (req_body request) "data" ;;
    decryptedData <-
      Codec.decryptData data (match envKey with Some k => k | None => js "" end) ;;
    actualData <- get decryptedData "actualData" ;;
    randNum <- get decryptedData "randNum" ;;
    Ok (mkRequest (req_method request) (req_headers request) actualData randNum)
  else Ok request.

(** [a || 0] *)
Definition or_zero (a : value) : value := if truthy a then a else JNum 0.

(** [typeof data === 'object'] *)
Definition typeof_object (data : value) : bool :=
  match data with
  | JNull | JArr _ | JObj _ => true
  | _ => false
  end.

(** The [res.send] that the middleware of [modifyResponseBody] installs:
    the value the original [send] receives. *)
Definition wrapped_send (cfg : Config) (salt : Salt) (req : Request)
  (data : value) : Res value :=
  match encryptionKey cfg with
  | Some envKey =>
      if truthy (JStr envKey)
         && negb (String.eqb (env cfg) ENVIRONMENT_MODE_TYPE.dev)
      then
        let randNum :=
          if String.eqb (req_method req) "GET"
          then or_zero (match lookup "x-token" (req_headers req) with
                        | Some x => x
                        | None => JUndefined
                        end)
          else if truthy (req_body req) then or_zero (req_randNum req)
          else JNum 0 in
        if typeof_object data then
          ct <- Codec.encryptData salt
                  (JObj [("responseData", data); ("randNum", randNum)]) envKey ;;
          Ok (JObj [("data", JStr ct)])
        else Ok data
      else Ok data
  | None => Ok data
  end.

(** The fallback of [initRoutes]. *)
Definition notFound_handler : Err :=
  Errors.ApiError "API endpoint not found"
    (Errors.mkOptions (JStr "error.endpoint.not-found")
                      (Some httpStatus.NOT_FOUND) (Some true))
    None.

Definition detail_of_item (item : ValidationErrorItem) : value :=
  JObj [("target", item_path item);
        ("message", item_message item);
        ("code", item_code item)].

(** The middleware of [openApiErrorTranslation]: the error it hands to
    [next]. *)
Definition openApiErrorTranslation_handler (err : Err) : Err :=
  if Errors.instanceof err C_BadRequest then
    let details := map detail_of_item (e_errors err) in
    Errors.DetailedError (e_name err) details
      (Errors.mkOptions (JStr "error.request.invalid") (Some 400%Z) (Some true))
      (Some err)
  else if Errors.instanceof err C_Unauthorized
          || Errors.instanceof err C_JwtUnauthorizedError then
    UnauthorizedError (e_message err) err
  else if Errors.instanceof err C_NotFound then
    EndpointNotFoundError (e_message err) err
  else if Errors.instanceof err C_MethodNotAllowed then
    MethodNotAllowedError (e_message err) err
  else if Errors.instanceof err C_NotAcceptable then
    NotAcceptableError (e_message err) err
  else if Errors.instanceof err C_UnsupportedMediaType then
    UnsupportedMediaTypeError (e_message err) err
  else err.

(** The second middleware of [initErrorTranslation]: what it logs, and the
    error it hands to [next]. *)
Definition errorTranslation_handler (cfg : Config) (err : Err)
  : list Err * Err :=
  let logged :=
    if negb (String.eqb (env cfg) GLOBAL.ENV_TEST) then [err] else [] in
  if Errors.instanceof err C_SyntaxError then
    (logged,
     Errors.ApiError (e_message err)
       (Errors.mkOptions (JStr "error.request.invalid") (Some 400%Z) (Some true))
       (Some err))
  else if negb (Errors.instanceof err C_ApiError)
          && Errors.instanceof err C_ExtendableError then
    (logged,
     Errors.ApiError (e_message err)
       (Errors.mkOptions (e_code err) None None) (Some err))
  else if negb (Errors.instanceof err C_ExtendableError) then
    (logged, Errors.ApiError (e_message err) Errors.no_options (Some err))
  else (logged, err).

(** The two translation stages in the order [init] registers them. *)
Definition translate (cfg : Config) (err : Err) : Err :=
  snd (errorTranslation_handler cfg (openApiErrorTranslation_handler err)).

(** The middleware of [initErrorHandling]: the response after it ran, and
    the error it forwarded with [next(error)], if it did. *)
Definition errorHandling_handler (cfg : Config) (error : Err) (res : Response)
  : Response * option Err :=
  if headersSent res then (res, Some error)
  else
    let errorResponse : list (jsstring * value) :=
      [("message", JStr (if e_isPublic error then e_message error
                         else "An unexpected error has occurred"));
       ("code", e_code error);
       ("stack", if String.eqb (env cfg) GLOBAL.ENV_DEV
                 then e_stack error else JUndefined)] in
    if Errors.instanceof error C_DetailedError then
      (res_json (JObj (errorResponse ++ [("details", JArr (e_details error))]))
                (res_status (e_status error) res),
       None)
    else
      (res_json (JObj errorResponse) (res_status (e_status error) res), None).

End handlers.

(** The body a client reads, parsed. *)
Definition wire_body {E : Engine} (res : Response) : Res value :=
  match body res with
  | JStr s => JSON.parse s
  | _ => Throw (native_error C_SyntaxError "SyntaxError" "Unexpected end of JSON input")
  end.

(** The readiness probe: the status it sends. *)
Definition ready_check (s : App) : Z :=
  if readyState s then httpStatus.OK else httpStatus.SERVICE_UNAVAILABLE.

(** ** The other closures of the pipeline *)

(** [s.indexOf(sub)]: the first place [sub] occurs in [s], or -1. *)
Definition indexOf (s sub : string) : Z :=
  match String.index 0 sub s with
  | Some n => Z.of_nat n
  | None => (-1)%Z
  end.

(** The [ignoreRoute] predicate [initLogging] hands to the access logger:
    whether the request is kept out of the access log. *)
Definition ignoreRoute (cfg : Config) (url : string) (statusCode : Z) : bool :=
  Z.gtb (indexOf (ignoredAccessLogPaths cfg) url) (-1)
  && Z.eqb statusCode httpStatus.OK.

(** The middleware of [registerDynamicRouter]: the route table the request
    is dispatched to, or the error thrown when there is none. *)
Definition dynamicRouter_dispatch (s : App) : Res (list RouterStage) :=
  match dynamicRouter s with
  | None => Throw not_created
  | Some layers => Ok layers
  end.

(** The liveness probe: the status it sends. *)
Definition health_check (s : App) : Z := httpStatus.OK.

End Server.

(* ================================================================== *)
(** * Stand-ins for the collaborators, to run the model on              *)
(* ================================================================== *)


Module Samples.

(** ** An engine: the conversions of ECMAScript, computed exactly *)

(** The binary64 number nearest to [m * 10^e], ties to even. *)
Definition nearest (minus : bool) (m : positive) (e : Z) : spec_float :=
  if (0 <=? e)%Z
  then binary_round prec emax minus (m * Z.to_pos (10 ^ e)) 0
  else
    let '(q, e', l) := SFdiv_core_binary prec emax (Zpos m) 0 (10 ^ (- e)) 0 in
    binary_round_aux prec emax minus q e' l.

(** [StringToNumber]: the literal denotes [m * 10^e]. *)
Definition read_number (l : number_literal) : float :=
  let digits := Z.of_nat (nb_digits (fraction l)) in
  let m := (Z.of_N (integer l) * 10 ^ digits + Z.of_N (N.of_uint (fraction l)))%Z in
  let e := ((match exponent l with Some z => z | None => 0 end) - digits)%Z in
  SF2Prim (match m with
           | Zpos p => nearest (negative l) p e
           | _ => S754_zero (negative l)
           end).

(** For [0 < num/den < 1]: minus the number of zeros after the point. *)
Fixpoint small_magnitude (fuel : nat) (num den : Z) : Z :=
  match fuel with
  | O => 0
  | S f => if (num * 10 <? den)%Z then (small_magnitude f (num * 10) den - 1)%Z else 0%Z
  end.

(** The [n] with [10^(n-1) <= num/den < 10^n]. *)
Definition magnitude (num den : Z) : Z :=
  if (den <=? num)%Z
  then Z.of_nat (nb_digits (N.to_uint (Z.to_N (num / den))))
  else small_magnitude 400 num den.

(** [num/den] rounded to an integer, ties to even. *)
Definition round_div (num den : Z) : Z :=
  let (q, r) := Z.div_eucl num den in
  match (2 * r ?= den)%Z with
  | Gt => (q + 1)%Z
  | Eq => if Z.even q then q else (q + 1)%Z
  | Lt => q
  end.

(** [s * 10^(n-k)] with [s = 10^k] written with [k] digits. *)
Definition carry (k : Z) (s n : Z) : Z * Z :=
  if (s =? 10 ^ k)%Z then (10 ^ (k - 1), n + 1)%Z else (s, n).

(** The [k] significant digits of [num/den], as an integer [s] and the
    magnitude [n]: [s * 10^(n-k)] is the nearest decimal of [k] digits. *)
Definition digits_of (k : Z) (num den : Z) : Z * Z :=
  let n := magnitude num den in
  let s := if (n <=? k)%Z then round_div (num * 10 ^ (k - n)) den
           else round_div num (den * 10 ^ (n - k)) in
  carry k s n.

(** Whether the decimal [s * 10^(n-k)] reads as [x]. *)
Definition reads_as (x : float) (k : Z) (sn : Z * Z) : bool :=
  PrimFloat.Leibniz.eqb
    (SF2Prim (match fst sn with
              | Zpos p => nearest false p (snd sn - k)
              | _ => S754_zero false
              end)) x.

(** The least number of digits, from [k] on, with which a decimal reads
    back as [x = num/den], and the decimal of that many digits nearest to
    [x] that does: the nearest one or, next to a power of two, the one
    above it. *)
Fixpoint shortest (fuel : nat) (k : Z) (x : float) (num den : Z) : Z * Z * Z :=
  let sn := digits_of k num den in
  let above := carry k (fst sn + 1) (snd sn) in
  match fuel with
  | O => (fst sn, k, snd sn)
  | S f =>
      if reads_as x k sn then (fst sn, k, snd sn)
      else if reads_as x k above then (fst above, k, snd above)
      else shortest f (k + 1) x num den
  end.

Fixpoint strip_zeros (fuel : nat) (s k : Z) : Z * Z :=
  match fuel with
  | O => (s, k)
  | S f => if ((s mod 10 =? 0) && (1 <? k))%Z then strip_zeros f (s / 10) (k - 1) else (s, k)
  end.

(** [x] written with exactly [w] digits. *)
Definition pad (w : Z) (x : Z) : uint :=
  let u := N.to_uint (Z.to_N x) in
  Nat.iter (Z.to_nat w - nb_digits u) D0 u.

(** [Number::toString]: the digits [s] (there are [k]) and the magnitude
    [n] laid out as ECMAScript prescribes. *)
Definition layout (minus : bool) (s k n : Z) : number_literal :=
  if ((k <=? n) && (n <=? 21))%Z then
    mkLiteral minus (Z.to_N (s * 10 ^ (n - k))) Nil None
  else if ((0 <? n) && (n <=? 21))%Z then
    mkLiteral minus (Z.to_N (s / 10 ^ (k - n))) (pad (k - n) (s mod 10 ^ (k - n))) None
  else if ((-6 <? n) && (n <=? 0))%Z then
    mkLiteral minus 0 (pad (k - n) s) None
  else if (k =? 1)%Z then
    mkLiteral minus (Z.to_N s) Nil (Some (n - 1)%Z)
  else
    mkLiteral minus (Z.to_N (s / 10 ^ (k - 1))) (pad (k - 1) (s mod 10 ^ (k - 1)))
              (Some (n - 1)%Z).

Definition print_number (x : float) : number_literal :=
  match Prim2SF x with
  | S754_finite minus m e =>
      let num := if (0 <=? e)%Z then (Zpos m * 2 ^ e)%Z else Zpos m in
      let den := if (0 <=? e)%Z then 1%Z else (2 ^ (- e))%Z in
      let '(s, k, n) := shortest 16 1 (PrimFloat.abs x) num den in
      let (s', k') := strip_zeros 17 s k in
      layout minus s' k' n
  | _ => mkLiteral false 0 Nil None
  end.

Definition engine : Engine := {|
  Number_toString := print_number;
  Number_read := read_number
|}.

(** ** Ciphers *)

(** A ciphertext is the key, a bar and the plaintext.  Under another key
    the decrypted word array holds no text: [None]. *)
Definition seal (key plain : jsstring) : jsstring := key ++ js "|" ++ plain.

Definition unseal (key ciphertext : jsstring) : option jsstring :=
  JSON.strip_prefix (key ++ js "|") ciphertext.

Definition not_a_string : Err :=
  native_error C_TypeError "TypeError" "Cannot read properties of undefined".

Definition malformed_utf8 : Err :=
  native_error C_Error "Error" "Malformed UTF-8 data".

(** A cipher whose UTF-8 decoding throws on the bytes a wrong key leaves. *)
Definition strict_cipher : CryptoJS := {|
  Salt := unit;
  CipherParams := jsstring;
  WordArray := option jsstring;
  AES_encrypt := fun _ message key =>
    match message with
    | JStr plain => Ok (seal key plain)
    | _ => Throw not_a_string
    end;
  CipherParams_toString := fun cp => cp;
  AES_decrypt := fun ciphertext key =>
    match ciphertext with
    | JStr ct => Ok (unseal key ct)
    | _ => Throw not_a_string
    end;
  Utf8_stringify := fun w =>
    match w with
    | Some plain => Ok plain
    | None => Throw malformed_utf8
    end
|}.

(** A cipher that, as an unauthenticated block cipher does, decrypts under
    a wrong key without complaint: the unpadded word array is empty and
    decodes to the empty string. *)
Definition lenient_cipher : CryptoJS := {|
  Salt := unit;
  CipherParams := jsstring;
  WordArray := option jsstring;
  AES_encrypt := fun _ message key =>
    match message with
    | JStr plain => Ok (seal key plain)
    | _ => Throw not_a_string
    end;
  CipherParams_toString := fun cp => cp;
  AES_decrypt := fun ciphertext key =>
    match ciphertext with
    | JStr ct => Ok (unseal key ct)
    | _ => Throw not_a_string
    end;
  Utf8_stringify := fun w =>
    match w with
    | Some plain => Ok plain
    | None => Ok (js "")
    end
|}.

Definition schema_document : value :=
  JObj [("openapi", JStr "3.0.0"); ("paths", JObj [])].

(** ** A host *)

Definition no_such_file : Err :=
  native_error C_Error "Error" "ENOENT: no such file or directory".

(** A host whose disk is the list of its YAML files, each with the
    document it holds. *)
Definition host : Host := {|
  Disk := list (jsstring * value);
  YAML_load := fun disk path =>
    match path with
    | JStr name =>
        match lookup name disk with
        | Some document => Ok document
        | None => Throw no_such_file
        end
    | _ => Throw no_such_file
    end;
  capture_stack := fun name message => name ++ js ": " ++ message
|}.

(** A disk with the schema file of the test suite, and an empty one. *)
Definition disk : Disk (Host:=host) := [("api.schema.yml", schema_document)].

Definition empty_disk : Disk (Host:=host) := [].

Definition fixed_kind (c : ErrClass) (name code : jsstring) (status : Z)
  (message : jsstring) (cause : Err) : Err :=
  mkErr c name message (JStr (name ++ js ": " ++ message))
        (JStr code) status true [] [] (Some cause).

Definition kinds : FixedKinds := {|
  UnauthorizedError :=
    fixed_kind C_UnauthorizedError "UnauthorizedError" "error.unauthorized" 401;
  EndpointNotFoundError :=
    fixed_kind C_EndpointNotFoundError "EndpointNotFoundError"
               "error.endpoint.not-found" 404;
  MethodNotAllowedError :=
    fixed_kind C_MethodNotAllowedError "MethodNotAllowedError"
               "error.method.not-allowed" 405;
  NotAcceptableError :=
    fixed_kind C_NotAcceptableError "NotAcceptableError" "error.not-acceptable" 406;
  UnsupportedMediaTypeError :=
    fixed_kind C_UnsupportedMediaTypeError "UnsupportedMediaTypeError"
               "error.unsupported-media-type" 415
|}.

(** The configuration of the repository's test suite. *)
Definition appConfig : Server.Config := {|
  Server.router := Server.mkRouter [];
  Server.logger := JObj [("logLevel", JStr "error"); ("logStyle", JStr "cli");
                         ("appName", JStr "nodejs-postgres-base");
                         ("moduleName", JStr "App")];
  Server.ignoredAccessLogPaths := "";
  Server.openapiBaseSchema := Some "api.schema.yml";
  Server.openapiSpec := JUndefined;
  Server.env := "development";
  Server.shouldCheckOpenApiBaseSchema := None;
  Server.requestPayloadLimit := None;
  Server.corsOptions := JUndefined;
  Server.encryptionKey := None;
  Server.customBodyParser := None
|}.

(** The same service in production, with payload encryption on. *)
Definition prodConfig : Server.Config := {|
  Server.router := Server.mkRouter [];
  Server.logger := JObj [("logLevel", JStr "error")];
  Server.ignoredAccessLogPaths := "";
  Server.openapiBaseSchema := None;
  Server.openapiSpec := schema_document;
  Server.env := "production";
  Server.shouldCheckOpenApiBaseSchema := None;
  Server.requestPayloadLimit := None;
  Server.corsOptions := JUndefined;
  Server.encryptionKey := Some "s3cret";
  Server.customBodyParser := None
|}.

(** A configuration with neither schema source. *)
Definition bareConfig : Server.Config := {|
  Server.router := Server.mkRouter [];
  Server.logger := JObj [];
  Server.ignoredAccessLogPaths := "";
  Server.openapiBaseSchema := None;
  Server.openapiSpec := JUndefined;
  Server.env := "production";
  Server.shouldCheckOpenApiBaseSchema := None;
  Server.requestPayloadLimit := None;
  Server.corsOptions := JUndefined;
  Server.encryptionKey := None;
  Server.customBodyParser := None
|}.

(** The euro sign, a code unit above U+00FF. *)
Definition euro : jsstring := [U16 "032" "172"].

Definition payload : value :=
  JObj [("actualData", JObj [("name", JStr "Ada"); ("price", JNum 9.99);
                             ("currency", JStr euro);
                             ("tags", JArr [JNum 1; JNull])]);
        ("randNum", JNum 42)].

Definition fresh_response : Server.Response :=
  Server.mkResponse false 200 JUndefined.

(** The response of a handler that has already sent [{message: 'ok'}]. *)
Definition sent_response : Server.Response :=
  Server.mkResponse true 200
    (JSON.stringify (E:=engine) (JObj [("message", JStr "ok")])).

(** The bad-request error of the test suite, with two issues. *)
Definition sample_bad_request : Err :=
  mkErr C_BadRequest "Bad Request" "request.body.name is required"
        (JStr "Bad Request: request.body.name is required")
        JUndefined 400 false []
        [mkItem (JStr ".body.name") (JStr "should have required property 'name'")
                JUndefined;
         mkItem (JStr ".body.age") (JStr "should be integer") (JStr "type.openapi")]
        None.

(** The public and the private application error of the test suite. *)
Definition sample_api_error (isPublic : bool) : Err :=
  Errors.ApiError (H:=host) "This error was produced by service.test.ts"
    (Errors.mkOptions (JStr "error.some-error") (Some 405%Z) (Some isPublic)) None.

(** The detailed error of the test suite: its details list is empty. *)
Definition sample_detailed_error : Err :=
  Errors.DetailedError (H:=host) "This error was produced by service.test.ts"
    [] (Errors.mkOptions (JStr "10") (Some 500%Z) (Some true)) None.

(** The production instance as its constructor leaves it. *)
Definition prodInstance : Server.App :=
  Server.mkApp
    (Server.mkExpress
       [Server.S_cors JUndefined; Server.S_urlencoded; Server.S_json None;
        Server.S_cookieParser] true)
    false prodConfig None.

(** The instance of the test suite's configuration, whose schema is read
    from a file, as its constructor leaves it. *)
Definition appInstance : Server.App :=
  Server.mkApp
    (Server.mkExpress
       [Server.S_cors JUndefined; Server.S_urlencoded; Server.S_json None;
        Server.S_cookieParser] true)
    false appConfig None.

(** The errors the test suite sends down the chain. *)
Definition sample_syntax_error : Err :=
  native_error C_SyntaxError "SyntaxError"
    "Unexpected token } in JSON at position 11".

Definition sample_plain_error : Err :=
  native_error C_Error "Error" "This error was produced by service.test.ts".

Definition sample_extendable_error : Err :=
  mkErr C_ExtendableError "ExtendableError"
        "This error was produced by service.test.ts"
        (JStr "ExtendableError: This error was produced by service.test.ts")
        (JStr "extendable-error") 0 false [] [] None.

(** A production configuration whose schema file is not on disk. *)
Definition brokenConfig : Server.Config := {|
  Server.router := Server.mkRouter [];
  Server.logger := JObj [];
  Server.ignoredAccessLogPaths := "/health-check,/ready-check";
  Server.openapiBaseSchema := Some "missing.yml";
  Server.openapiSpec := JUndefined;
  Server.env := "production";
  Server.shouldCheckOpenApiBaseSchema := None;
  Server.requestPayloadLimit := None;
  Server.corsOptions := JUndefined;
  Server.encryptionKey := Some "s3cret";
  Server.customBodyParser := None
|}.

(** The instance of that configuration as its constructor leaves it. *)
Definition brokenInstance : Server.App :=
  Server.mkApp
    (Server.mkExpress
       [Server.S_cors JUndefined; Server.S_urlencoded; Server.S_json None;
        Server.S_cookieParser] true)
    false brokenConfig None.

(** The fields of the sample payload, and the payload sealed under the key
    of the production configuration. *)
Definition envelope_fields : list (jsstring * value) :=
  [("actualData", JObj [("name", JStr "Ada"); ("price", JNum 9.99);
                        ("currency", JStr euro);
                        ("tags", JArr [JNum 1; JNull])]);
   ("randNum", JNum 42)].

Definition sealed_payload : jsstring :=
  seal "s3cret" (match JSON.stringify (E:=engine) (JObj envelope_fields) with
                 | JStr text => text
                 | _ => js ""
                 end).

(** A request whose body carries the sealed payload. *)
Definition sealed_request (method : string) : Server.Request :=
  Server.mkRequest method [("x-token", JNum 7)]
    (JObj [("data", JStr sealed_payload)]) JUndefined.

(** A payload with [undefined] in it. *)
Definition sparse_payload : value :=
  JObj [("kept", JArr [JNum 1.5; JUndefined]); ("dropped", JUndefined)].

(** What a handler answers. *)
Definition ok_body : value := JObj [("message", JStr "ok")].

End Samples.

(* ================================================================== *)
(** * Facts: JavaScript strings                                         *)
(* ================================================================== *)

Module JsFacts.

Lemma unit_eqb_spec (a b : unit16) : reflect (a = b) (unit_eqb a b).
Proof.
  destruct a as [h l], b as [h' l']. unfold unit_eqb. cbn [high low].
  destruct (Ascii.eqb_spec h h') as [->|Hh]; cbn.
  - destruct (Ascii.eqb_spec l l') as [->|Hl]; constructor; congruence.
  - constructor. congruence.
Qed.

Lemma str_eqb_spec (a b : jsstring) : reflect (a = b) (str_eqb a b).
Proof.
  revert b. induction a as [|x a IH]; intros [|y b]; cbn;
    try (constructor; congruence).
  destruct (unit_eqb_spec x y) as [->|Hx]; cbn.
  - destruct (IH b) as [->|Hb]; constructor; congruence.
  - constructor. congruence.
Qed.

Lemma str_eqb_refl (a : jsstring) : str_eqb a a = true.
Proof. destruct (str_eqb_spec a a); congruence. Qed.

Lemma str_eqb_eq (a b : jsstring) : str_eqb a b = true <-> a = b.
Proof. destruct (str_eqb_spec a b); split; congruence. Qed.

Lemma str_eqb_neq (a b : jsstring) : str_eqb a b = false <-> a <> b.
Proof. destruct (str_eqb_spec a b); split; congruence. Qed.

Lemma str_eqb_sym (a b : jsstring) : str_eqb a b = str_eqb b a.
Proof.
  destruct (str_eqb_spec a b), (str_eqb_spec b a); congruence.
Qed.

Lemma js_inj (s t : string) : js s = js t -> s = t.
Proof.
  revert t. induction s as [|c s IH]; intros [|d t]; cbn; try congruence.
  intros [= -> H]. f_equal. auto.
Qed.

Lemma truthy_key (key : jsstring) : key <> js "" -> truthy (JStr key) = true.
Proof. destruct key; [now intros [] | reflexivity]. Qed.

Lemma nodupb_NoDup (l : list jsstring) : nodupb l = true -> NoDup l.
Proof.
  induction l as [|x r IH]; cbn; [constructor|].
  rewrite andb_true_iff, negb_true_iff. intros [Hx Hr].
  constructor; [|auto]. intros Hin.
  assert (existsb (str_eqb x) r = true); [|congruence].
  apply existsb_exists. exists x. split; [assumption | apply str_eqb_refl].
Qed.

Lemma NoDup_nodupb (l : list jsstring) : NoDup l -> nodupb l = true.
Proof.
  induction 1 as [|x r Hx Hr IH]; cbn; [reflexivity|].
  rewrite IH, andb_true_r. apply negb_true_iff.
  destruct (existsb (str_eqb x) r) eqn:Hex; [|reflexivity].
  apply existsb_exists in Hex. destruct Hex as (y & Hy & Hxy).
  apply str_eqb_eq in Hxy. subst y. contradiction.
Qed.

Lemma own_keys_parts (l : list jsstring) :
  own_keys l = true <-> NoDup l /\ enumerated l = true.
Proof.
  unfold own_keys. rewrite andb_true_iff. split; intros [Hn He]; split; auto.
  - now apply nodupb_NoDup.
  - now apply NoDup_nodupb.
Qed.

(** A name that the names before it may precede is not enumerated before
    them. *)
Lemma before_not_precedes (a k : jsstring) :
  enumerates_before a k = true -> JSON.precedes k a = false.
Proof.
  unfold enumerates_before, JSON.precedes.
  destruct (array_index a), (array_index k); try reflexivity; try discriminate.
  intros H. apply N.leb_le in H. apply N.ltb_ge. exact H.
Qed.

Lemma precedes_before (k a : jsstring) :
  JSON.precedes k a = true -> enumerates_before k a = true.
Proof.
  unfold enumerates_before, JSON.precedes.
  destruct (array_index k), (array_index a); try reflexivity; try discriminate.
  intros H. apply N.ltb_lt in H. apply N.leb_le. lia.
Qed.

Lemma not_precedes_before (k a : jsstring) :
  JSON.precedes k a = false -> enumerates_before a k = true.
Proof.
  unfold enumerates_before, JSON.precedes.
  destruct (array_index k), (array_index a); try reflexivity; try discriminate.
  intros H. apply N.ltb_ge in H. apply N.leb_le. exact H.
Qed.

Lemma precedes_trans (k a z : jsstring) :
  JSON.precedes k a = true -> enumerates_before a z = true ->
  enumerates_before k z = true.
Proof.
  unfold enumerates_before, JSON.precedes.
  destruct (array_index k), (array_index a), (array_index z);
    try reflexivity; try discriminate.
  intros H1 H2. apply N.ltb_lt in H1. apply N.leb_le in H2. apply N.leb_le. lia.
Qed.

Lemma enumerated_before_mid (A : list jsstring) (k : jsstring) (B : list jsstring) :
  enumerated (A ++ k :: B) = true ->
  forallb (fun a => enumerates_before a k) A = true.
Proof.
  induction A as [|a A IH]; [reflexivity|].
  cbn [List.app enumerated forallb]. rewrite !andb_true_iff, forallb_app.
  rewrite andb_true_iff. cbn [forallb]. rewrite andb_true_iff.
  intros [[_ [Hk _]] Hr]. auto.
Qed.

Lemma enumerated_sublist (f : jsstring * value -> bool) (l : list (jsstring * value)) :
  enumerated (map fst l) = true -> enumerated (map fst (filter f l)) = true.
Proof.
  induction l as [|[k v] l IH]; [reflexivity|].
  cbn [map fst filter enumerated]. rewrite andb_true_iff. intros [Hk Hl].
  destruct (f (k, v)); [|auto].
  cbn [map fst enumerated]. rewrite (IH Hl), andb_true_r.
  rewrite forallb_forall in Hk |- *. intros x Hx. apply Hk.
  apply in_map_iff in Hx. destruct Hx as (kv & <- & Hin).
  apply filter_In in Hin. apply in_map. tauto.
Qed.

End JsFacts.

(* ================================================================== *)
(** * Facts: JSON.parse undoes JSON.stringify                           *)
(* ================================================================== *)

Module JSONFacts.
Import JSON.
Local Open Scope char_scope.
Local Open Scope list_scope.

Lemma is_char_eq (c : unit16) (a : ascii) : is_char c a = true -> c = of_ascii a.
Proof.
  destruct c as [h l]. unfold is_char, of_ascii. cbn [high low].
  rewrite andb_true_iff. intros [Hh Hl].
  apply Ascii.eqb_eq in Hh, Hl. congruence.
Qed.

Lemma surrogate_high_byte (c : unit16) :
  is_high_surrogate c = true \/ is_low_surrogate c = true ->
  Ascii.eqb (high c) Ascii.zero = false.
Proof.
  unfold is_high_surrogate, is_low_surrogate.
  destruct (Ascii.eqb_spec (high c) Ascii.zero) as [->|]; [|reflexivity].
  cbn. intros [H|H]; discriminate.
Qed.

Lemma surrogate_is_raw (c : unit16) :
  is_high_surrogate c = true \/ is_low_surrogate c = true ->
  (forall a, is_char c a = false) /\ is_control c = false.
Proof.
  intros H. apply surrogate_high_byte in H. unfold is_char, is_control.
  rewrite H. auto.
Qed.

Lemma delimited_not_digit rest :
  delimited rest -> match rest with [] => True | c :: _ => digit_of c = None end.
Proof. destruct rest as [|c r]; [easy|]. intros [-> | [-> | ->]]; reflexivity. Qed.

Lemma delimited_skip_ws rest : delimited rest -> skip_ws rest = rest.
Proof. destruct rest as [|c r]; [easy|]. intros [-> | [-> | ->]]; reflexivity. Qed.

Lemma read_print_uint (u : uint) (rest : text) :
  match rest with [] => True | c :: _ => digit_of c = None end ->
  read_uint (print_uint u ++ rest) = (u, rest).
Proof.
  intros Hrest.
  induction u; cbn [print_uint List.app];
    try (cbn [read_uint]; change (digit_of (of_ascii _)) with (Some D0) ||
         idtac);
    try (cbn; rewrite IHu; reflexivity).
  destruct rest as [|c r]; [reflexivity|]. cbn. rewrite Hrest. reflexivity.
Qed.

Lemma nzhead_not_D0 u v : nzhead u <> D0 v.
Proof. induction u; cbn; congruence. Qed.

Lemma int_digits_ok_unorm (u : uint) : unorm u = u -> int_digits_ok u = true.
Proof.
  destruct u as [|u|u|u|u|u|u|u|u|u|u]; try reflexivity.
  - discriminate.
  - unfold unorm. cbn [nzhead]. pose proof (@nzhead_not_D0 u u) as Hx.
    destruct (nzhead u) eqn:E; intros H; try congruence.
    injection H as <-. reflexivity.
Qed.

Lemma int_digits_ok_N (n : N) : int_digits_ok (N.to_uint n) = true.
Proof.
  apply int_digits_ok_unorm.
  pose proof (DecimalN.Unsigned.to_of (N.to_uint n)) as Hn.
  rewrite DecimalN.Unsigned.of_to in Hn. symmetry. exact Hn.
Qed.

Lemma has_digits_N (n : N) : has_digits (N.to_uint n) = true.
Proof.
  pose proof (int_digits_ok_N n) as H.
  destruct (N.to_uint n); [discriminate | reflexivity..].
Qed.

(** What may follow the digits of a literal's integer part or fraction:
    no digit. *)
Definition ends_digits (t : text) : Prop :=
  match t with [] => True | c :: _ => digit_of c = None end.

(** What may follow a literal without a fraction: neither a digit nor a
    point. *)
Definition ends_integer (t : text) : Prop :=
  match t with
  | [] => True
  | c :: _ => digit_of c = None /\ is_char c "." = false
  end.

Lemma exponent_ends_integer (e : option Z) (rest : text) :
  delimited rest -> ends_integer (print_exponent e ++ rest).
Proof.
  intros Hd. destruct e as [z|]; [split; reflexivity|].
  cbn [print_exponent List.app].
  destruct rest as [|c r]; [exact I|].
  destruct Hd as [-> | [-> | ->]]; split; reflexivity.
Qed.

Lemma ends_integer_digits (t : text) : ends_integer t -> ends_digits t.
Proof. destruct t; cbn; tauto. Qed.

Lemma read_exponent_print (e : option Z) (rest : text) :
  delimited rest ->
  read_exponent (print_exponent e ++ rest) = Some (e, rest).
Proof.
  intros Hd. destruct e as [z|].
  - unfold print_exponent. cbn [List.app read_exponent].
    change (is_char (of_ascii "e") "e") with true. cbn [orb].
    assert (forall t, (let (minus, r1) :=
               match of_ascii (if (z <? 0)%Z then "-" else "+") :: t with
               | d :: r' =>
                   if is_char d "-" then (true, r')
                   else if is_char d "+" then (false, r') else (false, of_ascii (if (z <? 0)%Z then "-" else "+") :: t)
               | [] => (false, of_ascii (if (z <? 0)%Z then "-" else "+") :: t)
               end in
             let (u, r2) := read_uint r1 in
             if has_digits u
             then Some (Some (if minus then (- Z.of_N (N.of_uint u))%Z
                              else Z.of_N (N.of_uint u)), r2)
             else None)
            = (let (u, r2) := read_uint t in
               if has_digits u
               then Some (Some (if (z <? 0)%Z then (- Z.of_N (N.of_uint u))%Z
                                else Z.of_N (N.of_uint u)), r2)
               else None)) as Hsign.
    { intros t. destruct (z <? 0)%Z; reflexivity. }
    rewrite Hsign.
    rewrite (read_print_uint _ _ (delimited_not_digit _ Hd)).
    rewrite has_digits_N, DecimalN.Unsigned.of_to, N2Z.inj_abs_N.
    destruct (Z.ltb_spec z 0); do 3 f_equal; lia.
  - cbn [print_exponent List.app]. destruct rest as [|c r]; [reflexivity|].
    destruct Hd as [-> | [-> | ->]]; reflexivity.
Qed.

Lemma read_fraction_print (f : uint) (rest : text) :
  ends_integer rest ->
  read_fraction (print_fraction f ++ rest) = Some (f, rest).
Proof.
  intros Hr.
  assert (read_fraction rest = Some (Nil, rest)) as Hnil.
  { destruct rest as [|c r]; [reflexivity|]. cbn in Hr |- *.
    destruct Hr as [_ ->]. reflexivity. }
  destruct f; [exact Hnil|..];
    unfold print_fraction; cbn [List.app read_fraction];
    change (is_char (of_ascii ".") ".") with true; cbn iota;
    rewrite (read_print_uint _ _ (ends_integer_digits _ Hr)); reflexivity.
Qed.

Lemma fraction_ends_digits (f : uint) (rest : text) :
  ends_integer rest -> ends_digits (print_fraction f ++ rest).
Proof.
  intros Hr. destruct f; try reflexivity.
  now apply ends_integer_digits.
Qed.

Lemma print_N_head (n : N) (rest : text) :
  exists c r, print_uint (N.to_uint n) ++ rest = c :: r
              /\ is_char c "-" = false /\ digit_of c <> None.
Proof.
  pose proof (has_digits_N n) as H.
  destruct (N.to_uint n); [discriminate|..]; cbn;
    eexists _, _; (split; [reflexivity|]); split; (reflexivity || discriminate).
Qed.

Lemma read_literal_print (l : number_literal) (rest : text) :
  delimited rest -> read_literal (print_literal l ++ rest) = Some (l, rest).
Proof.
  intros Hd. destruct l as [minus n f e]. unfold print_literal.
  cbn [negative integer fraction exponent].
  repeat rewrite <- List.app_assoc.
  pose proof (exponent_ends_integer e rest Hd) as He.
  pose proof (fraction_ends_digits f _ He) as Hf.
  assert (forall t,
             (let (u, r) := read_uint (print_uint (N.to_uint n)
                                         ++ print_fraction f ++ print_exponent e ++ rest) in
              if int_digits_ok u then
                match read_fraction r with
                | Some (f0, r1) =>
                    match read_exponent r1 with
                    | Some (e0, r2) => Some (mkLiteral t (N.of_uint u) f0 e0, r2)
                    | None => None
                    end
                | None => None
                end
              else None) = Some (mkLiteral t n f e, rest)) as Hbody.
  { intros t. rewrite (read_print_uint _ _ Hf), int_digits_ok_N.
    rewrite (read_fraction_print _ _ He), (read_exponent_print _ _ Hd).
    rewrite DecimalN.Unsigned.of_to. reflexivity. }
  unfold read_literal. destruct minus; cbn [List.app].
  - change (is_char (of_ascii "-") "-") with true. cbn iota. apply Hbody.
  - destruct (print_N_head n (print_fraction f ++ print_exponent e ++ rest))
      as (c & r & Hc & Hm & _).
    rewrite Hc at 1. rewrite Hm. apply Hbody.
Qed.

Lemma literal_starts (l : number_literal) (rest : text) :
  starts_value (print_literal l ++ rest) = true.
Proof.
  destruct l as [minus n f e]. unfold print_literal.
  cbn [negative integer fraction exponent].
  destruct minus; [reflexivity|]. cbn [List.app].
  repeat rewrite <- List.app_assoc.
  pose proof (has_digits_N n) as H.
  destruct (N.to_uint n); [discriminate | reflexivity..].
Qed.

Lemma hex_byte_roundtrip (a : ascii) :
  byte_of_hex (of_ascii (hex_digit (N_of_ascii a / 16)))
              (of_ascii (hex_digit (N_of_ascii a mod 16))) = Some a.
Proof. destruct a as [[] [] [] [] [] [] [] []]; vm_compute; reflexivity. Qed.

Lemma parse_raw (c : unit16) (r : text) :
  is_char c dquote = false -> is_char c backslash = false ->
  is_control c = false ->
  parse_chars (c :: r)
  = match parse_chars r with
    | Some (str, r') => Some (c :: str, r')
    | None => None
    end.
Proof. intros H1 H2 H3. cbn [parse_chars]. rewrite H1, H2, H3. reflexivity. Qed.

Lemma parse_escape (c : unit16) (r : text) :
  parse_chars (unicode_escape_of c ++ r)
  = match parse_chars r with
    | Some (str, r') => Some (c :: str, r')
    | None => None
    end.
Proof.
  destruct c as [h l]. unfold unicode_escape_of, hex_byte.
  cbn [List.app high low parse_chars].
  change (is_char (of_ascii backslash) dquote) with false.
  change (is_char (of_ascii backslash) backslash) with true.
  change (is_char (of_ascii "u") dquote) with false.
  change (is_char (of_ascii "u") backslash) with false.
  change (is_char (of_ascii "u") "/") with false.
  change (is_char (of_ascii "u") "b") with false.
  change (is_char (of_ascii "u") "f") with false.
  change (is_char (of_ascii "u") "n") with false.
  change (is_char (of_ascii "u") "r") with false.
  change (is_char (of_ascii "u") "t") with false.
  change (is_char (of_ascii "u") "u") with true.
  cbn iota. unfold unicode_escape. rewrite !hex_byte_roundtrip. reflexivity.
Qed.

Lemma parse_chars_quote (s : jsstring) :
  forall (paired : bool) (rest : text),
    parse_chars (quote_units paired s ++ of_ascii dquote :: rest) = Some (s, rest).
Proof.
  induction s as [|c s IH]; intros paired rest; [reflexivity|].
  cbn [quote_units].
  destruct (is_high_surrogate c) eqn:Hh.
  { destruct (surrogate_is_raw c (or_introl Hh)) as [Hc Hctl].
    destruct (starts_low s).
    - cbn [List.app]. rewrite parse_raw, IH by auto. reflexivity.
    - rewrite <- List.app_assoc, parse_escape, IH. reflexivity. }
  destruct (is_low_surrogate c) eqn:Hl.
  { destruct (surrogate_is_raw c (or_intror Hl)) as [Hc Hctl].
    destruct paired.
    - cbn [List.app]. rewrite parse_raw, IH by auto. reflexivity.
    - rewrite <- List.app_assoc, parse_escape, IH. reflexivity. }
  unfold quote_char.
  destruct (is_char c dquote) eqn:E1;
    [apply is_char_eq in E1; subst c; cbn; rewrite IH; reflexivity|].
  destruct (is_char c backslash) eqn:E2;
    [apply is_char_eq in E2; subst c; cbn; rewrite IH; reflexivity|].
  destruct (is_char c "008") eqn:E3;
    [apply is_char_eq in E3; subst c; cbn; rewrite IH; reflexivity|].
  destruct (is_char c "012") eqn:E4;
    [apply is_char_eq in E4; subst c; cbn; rewrite IH; reflexivity|].
  destruct (is_char c "010") eqn:E5;
    [apply is_char_eq in E5; subst c; cbn; rewrite IH; reflexivity|].
  destruct (is_char c "013") eqn:E6;
    [apply is_char_eq in E6; subst c; cbn; rewrite IH; reflexivity|].
  destruct (is_char c "009") eqn:E7;
    [apply is_char_eq in E7; subst c; cbn; rewrite IH; reflexivity|].
  destruct (is_control c) eqn:E8.
  - rewrite <- List.app_assoc, parse_escape, IH. reflexivity.
  - cbn [List.app]. rewrite parse_raw, IH by auto. reflexivity.
Qed.

Section with_engine.
Context {E : Engine}.

Lemma parse_number_print (l : number_literal) (rest : text) :
  delimited rest ->
  parse_number (print_literal l ++ rest) = Some (JNum (Number_read l), rest).
Proof.
  intros Hd. unfold parse_number. rewrite (read_literal_print l _ Hd). reflexivity.
Qed.

Lemma render_none (v : value) : render v = None -> v = JUndefined.
Proof. destruct v as [| |[]| | | |]; cbn; congruence. Qed.

Lemma render_members (l : list (jsstring * value)) :
  flat_map (fun kv => match render (snd kv) with
                      | Some t => [quote (fst kv) ++ of_ascii ":" :: t]
                      | None => []
                      end) l
  = map member_text (rendered_members l).
Proof.
  induction l as [|[k v] l IH]; [reflexivity|].
  cbn [flat_map rendered_members filter snd fst].
  fold (rendered_members l). rewrite IH.
  destruct (render v) eqn:Ev.
  - assert (is_undefined v = false) as -> by (destruct v; [discriminate|reflexivity..]).
    cbn [negb map List.app]. unfold member_text at 2, elem_text. cbn [fst snd].
    rewrite Ev. reflexivity.
  - apply render_none in Ev. subst v. reflexivity.
Qed.

Lemma normal_members (l : list (jsstring * value)) :
  flat_map (fun kv => match snd kv with
                      | JUndefined => []
                      | _ => [(fst kv, normal (snd kv))]
                      end) l
  = map member_normal (rendered_members l).
Proof.
  induction l as [|[k v] l IH]; [reflexivity|].
  cbn [flat_map rendered_members filter snd fst].
  fold (rendered_members l). rewrite IH.
  destruct v; reflexivity.
Qed.

Lemma render_starts (v : value) (t rest : text) :
  render v = Some t -> starts_value (t ++ rest) = true.
Proof.
  destruct v as [| |[]|n|s|l|l]; cbn [render]; intros Ev; try discriminate;
    injection Ev as <-; try reflexivity.
  destruct (PrimFloat.is_finite n); [apply literal_starts | reflexivity].
Qed.

Lemma elem_text_starts (x : value) (rest : text) :
  starts_value (elem_text x ++ rest) = true.
Proof.
  unfold elem_text. destruct (render x) eqn:Ex; [|reflexivity].
  eapply render_starts; eassumption.
Qed.

Lemma starts_value_skip_ws (t : text) : starts_value t = true -> skip_ws t = t.
Proof.
  destruct t as [|c r]; [discriminate|]. cbn.
  destruct (is_ws c); [discriminate | reflexivity].
Qed.

Lemma elem_text_length (x : value) : 1 <= List.length (elem_text x).
Proof.
  pose proof (elem_text_starts x []) as H. rewrite List.app_nil_r in H.
  destruct (elem_text x); [discriminate | cbn; lia].
Qed.

Lemma NoDup_rendered_members (l : list (jsstring * value)) :
  NoDup (map fst l) -> NoDup (map fst (rendered_members l)).
Proof.
  induction l as [|[k v] l IH]; cbn; [auto|].
  intros H. inversion H as [|? ? Hk Hl]; subst.
  destruct (is_undefined v); cbn; [auto|].
  constructor; [|auto]. intros Hin. apply Hk.
  apply in_map_iff in Hin. destruct Hin as [kv [Hf Hin]].
  apply in_map_iff. exists kv. split; [assumption|].
  unfold rendered_members in Hin. apply filter_In in Hin. tauto.
Qed.

Lemma obj_set_fresh (l : list (jsstring * value)) (k : jsstring) (v : value) :
  ~ In k (map fst l) ->
  forallb (fun a => enumerates_before a k) (map fst l) = true ->
  obj_set l k v = l ++ [(k, v)].
Proof.
  induction l as [|[k' v'] l IH]; cbn; [reflexivity|].
  intros Hn Hb. apply andb_true_iff in Hb. destruct Hb as [Hk' Hb].
  destruct (JsFacts.str_eqb_spec k k') as [->|Hne].
  - exfalso. apply Hn. now left.
  - rewrite (JsFacts.before_not_precedes _ _ Hk').
    rewrite IH; [reflexivity | | exact Hb]. intros Hin. apply Hn. now right.
Qed.

Lemma parse_elements_join (l : list value) :
  Forall parses l ->
  forall x fuel acc rest,
    parses x ->
    S (List.length (join [of_ascii ","] (map elem_text (x :: l)))) <= fuel ->
    delimited rest ->
    parse_elements fuel (join [of_ascii ","] (map elem_text (x :: l))
                           ++ of_ascii "]" :: rest) acc
    = Some (JArr (acc ++ map elem_normal (x :: l)), rest).
Proof.
  induction 1 as [|y l Hy Hl IH]; intros x fuel acc rest Hx Hfuel Hd.
  - cbn [map join] in *. destruct fuel as [|f]; [lia|].
    cbn [parse_elements]. rewrite Hx; [|lia|cbn; auto].
    cbn. reflexivity.
  - change (join [of_ascii ","] (map elem_text (x :: y :: l)))
      with (elem_text x ++ of_ascii "," :: join [of_ascii ","] (map elem_text (y :: l))) in *.
    rewrite List.length_app in Hfuel. cbn [List.length] in Hfuel.
    destruct fuel as [|f]; [lia|].
    cbn [parse_elements]. rewrite <- List.app_assoc. cbn [List.app].
    rewrite Hx; [|lia|cbn; auto].
    cbn [skip_ws is_ws]. cbn -[join parse_elements map].
    rewrite IH; [|assumption|lia|assumption].
    rewrite <- List.app_assoc. reflexivity.
Qed.

Lemma parse_members_join (l : list (jsstring * value)) :
  Forall (fun kv => parses (snd kv) /\ is_undefined (snd kv) = false) l ->
  forall kv fuel acc rest,
    parses (snd kv) -> is_undefined (snd kv) = false ->
    S (List.length (join [of_ascii ","] (map member_text (kv :: l)))) <= fuel ->
    NoDup (map fst acc ++ map fst (kv :: l)) ->
    enumerated (map fst acc ++ map fst (kv :: l)) = true ->
    delimited rest ->
    parse_members fuel (join [of_ascii ","] (map member_text (kv :: l))
                          ++ of_ascii "}" :: rest) acc
    = Some (JObj (acc ++ map member_normal (kv :: l)), rest).
Proof.
  induction 1 as [|kv' l [Hy Hy'] Hl IH];
    intros [k v] fuel acc rest Hx Hx' Hfuel Hnd Hen Hd; cbn [snd fst] in *.
  - cbn [map join] in *. unfold member_text in *. cbn [fst snd] in *.
    unfold quote in *. destruct fuel as [|f]; [lia|].
    cbn [parse_members List.app]. cbn [skip_ws is_ws]. cbn -[parse_chars parse_value].
    repeat rewrite <- List.app_assoc. cbn [List.app].
    rewrite parse_chars_quote. cbn -[parse_value].
    cbn [List.length] in Hfuel. rewrite !List.length_app in Hfuel. cbn [List.length] in Hfuel.
    rewrite Hx; [|lia|cbn; auto].
    cbn. rewrite obj_set_fresh.
    + assert (elem_normal v = normal v) as -> by (destruct v; easy). reflexivity.
    + apply NoDup_remove_2 in Hnd. rewrite List.app_nil_r in Hnd. exact Hnd.
    + eapply JsFacts.enumerated_before_mid. exact Hen.
  - change (join [of_ascii ","] (map member_text ((k, v) :: kv' :: l)))
      with (member_text (k, v) ++ of_ascii "," :: join [of_ascii ","] (map member_text (kv' :: l))) in *.
    unfold member_text at 1. unfold member_text at 1 in Hfuel. cbn [fst snd] in *.
    unfold quote in *. destruct fuel as [|f]; [lia|].
    cbn [parse_members List.app]. cbn [skip_ws is_ws]. cbn -[parse_chars parse_value join map].
    repeat rewrite <- List.app_assoc. cbn [List.app]. repeat rewrite <- List.app_assoc. cbn [List.app].
    rewrite parse_chars_quote. cbn -[parse_value join map].
    cbn [List.length] in Hfuel. rewrite !List.length_app in Hfuel. cbn [List.length] in Hfuel.
    rewrite List.length_app in Hfuel. cbn [List.length] in Hfuel.
    rewrite Hx; [|lia|cbn; auto].
    cbn -[join parse_members map]. rewrite obj_set_fresh.
    + rewrite IH; try assumption.
      * rewrite <- List.app_assoc.
        assert (elem_normal v = normal v) as -> by (destruct v; easy). reflexivity.
      * lia.
      * rewrite List.map_app. cbn [map fst]. rewrite <- List.app_assoc. exact Hnd.
      * rewrite List.map_app. cbn [map fst]. rewrite <- List.app_assoc. exact Hen.
    + apply NoDup_remove_2 in Hnd. intros Hin. apply Hnd. apply in_or_app. now left.
    + eapply JsFacts.enumerated_before_mid. exact Hen.
Qed.

Lemma parses_of_render (x : value) :
  (forall t, render x = Some t ->
     forall fuel rest, List.length t <= fuel -> delimited rest ->
       parse_value fuel (t ++ rest) = Some (normal x, rest)) ->
  parses x.
Proof.
  intros H fuel rest Hfuel Hd. unfold elem_text in *.
  destruct (render x) as [t|] eqn:Ex.
  - rewrite (H t eq_refl fuel rest Hfuel Hd). destruct x; try reflexivity. discriminate.
  - apply render_none in Ex. subst x. cbn in Hfuel.
    destruct fuel as [|f]; [lia|]. reflexivity.
Qed.

Lemma parse_literal_value (l : number_literal) (fuel : nat) (rest : text) :
  delimited rest ->
  parse_value (S fuel) (print_literal l ++ rest) = Some (JNum (Number_read l), rest).
Proof.
  intros Hd. cbn [parse_value].
  rewrite (starts_value_skip_ws _ (literal_starts l rest)).
  pose proof (parse_number_print l _ Hd) as Hn.
  destruct (print_literal l ++ rest) as [|c r] eqn:Et; [discriminate|].
  destruct (is_char c "n") eqn:E1;
    [apply is_char_eq in E1; subst c; cbn in Hn; discriminate|].
  destruct (is_char c "t") eqn:E2;
    [apply is_char_eq in E2; subst c; cbn in Hn; discriminate|].
  destruct (is_char c "f") eqn:E3;
    [apply is_char_eq in E3; subst c; cbn in Hn; discriminate|].
  destruct (is_char c dquote) eqn:E4;
    [apply is_char_eq in E4; subst c; cbn in Hn; discriminate|].
  destruct (is_char c "[") eqn:E5;
    [apply is_char_eq in E5; subst c; cbn in Hn; discriminate|].
  destruct (is_char c "{") eqn:E6;
    [apply is_char_eq in E6; subst c; cbn in Hn; discriminate|].
  exact Hn.
Qed.

Lemma parse_render (v : value) :
  wf v = true ->
  forall t, render v = Some t ->
  forall fuel rest, List.length t <= fuel -> delimited rest ->
    parse_value fuel (t ++ rest) = Some (normal v, rest).
Proof.
  induction v as [| |b|n|s|l IH|l IH] using value_ind;
    intros Hwf t Ht fuel rest Hfuel Hd; cbn [render] in Ht.
  - discriminate.
  - injection Ht as <-. destruct fuel as [|f]; [cbn in Hfuel; lia | reflexivity].
  - destruct b; injection Ht as <-;
      (destruct fuel as [|f]; [cbn in Hfuel; lia | reflexivity]).
  - injection Ht as <-. cbn [normal].
    destruct (PrimFloat.is_finite n).
    + destruct fuel as [|f].
      { pose proof (literal_starts (Number_toString n) []) as Hs.
        rewrite List.app_nil_r in Hs.
        destruct (print_literal (Number_toString n)); [discriminate | cbn in Hfuel; lia]. }
      now apply parse_literal_value.
    + destruct fuel as [|f]; [cbn in Hfuel; lia | reflexivity].
  - injection Ht as <-. unfold quote.
    destruct fuel as [|f]; [cbn in Hfuel; lia|].
    cbn [parse_value List.app]. cbn [skip_ws is_ws]. cbn -[parse_chars].
    rewrite <- List.app_assoc. cbn [List.app]. rewrite parse_chars_quote. reflexivity.
  - injection Ht as <-. cbn [wf] in Hwf. rewrite forallb_forall in Hwf.
    assert (Forall parses l) as Hl.
    { rewrite Forall_forall in IH |- *. intros x Hin.
      apply parses_of_render. apply IH; auto. }
    change (fun x : value => match render x with Some t => t | None => lit_null end)
      with elem_text in *.
    change (normal (JArr l)) with (JArr (map elem_normal l)).
    destruct fuel as [|f]; [cbn in Hfuel; lia|].
    cbn [parse_value List.app skip_ws is_ws]. cbn -[parse_elements join map skip_ws].
    rewrite <- List.app_assoc. cbn [List.app].
    destruct l as [|x l]; [reflexivity|].
    inversion Hl as [|? ? Hx Hl']; subst.
    assert (starts_value (join [of_ascii ","] (map elem_text (x :: l))
                            ++ of_ascii "]" :: rest) = true) as Hs.
    { cbn [map]. destruct (map elem_text l); cbn [join];
        rewrite <- ?List.app_assoc; apply elem_text_starts. }
    rewrite (starts_value_skip_ws _ Hs).
    pose proof (@parse_elements_join l Hl' x f [] rest Hx) as Hp.
    destruct (join [of_ascii ","] (map elem_text (x :: l)) ++ of_ascii "]" :: rest)
      as [|c r] eqn:Et; [discriminate|].
    cbn [starts_value] in Hs.
    destruct (is_char c "]"); [rewrite andb_false_r in Hs; discriminate|].
    apply Hp; [|assumption].
    cbn [List.length] in Hfuel. rewrite List.length_app in Hfuel. cbn [List.length] in Hfuel. lia.
  - injection Ht as <-. cbn [wf] in Hwf. apply andb_true_iff in Hwf.
    destruct Hwf as [Hkeys Hwf]. rewrite forallb_forall in Hwf.
    apply JsFacts.own_keys_parts in Hkeys. destruct Hkeys as [Hnd Hen].
    apply NoDup_rendered_members in Hnd.
    apply (JsFacts.enumerated_sublist (fun kv => negb (is_undefined (snd kv)))) in Hen.
    fold (rendered_members l) in Hen.
    assert (Forall (fun kv => parses (snd kv) /\ is_undefined (snd kv) = false)
              (rendered_members l)) as Hl.
    { rewrite Forall_forall in IH |- *. intros kv Hin.
      unfold rendered_members in Hin. apply filter_In in Hin. destruct Hin as [Hin Hu].
      split; [|now apply negb_true_iff in Hu].
      apply parses_of_render. apply IH; auto. }
    rewrite render_members.
    change (normal (JObj l))
      with (JObj (flat_map (fun kv => match snd kv with
                                      | JUndefined => []
                                      | _ => [(fst kv, normal (snd kv))]
                                      end) l)).
    rewrite normal_members.
    cbn [List.length] in Hfuel. rewrite List.length_app in Hfuel. cbn [List.length] in Hfuel.
    rewrite render_members in Hfuel.
    destruct fuel as [|f]; [lia|].
    cbn [parse_value List.app skip_ws is_ws]. cbn -[parse_members join map skip_ws].
    rewrite <- List.app_assoc. cbn [List.app].
    destruct (rendered_members l) as [|[k x] ms]; [reflexivity|].
    inversion Hl as [|? ? [Hx Hx'] Hl']; subst. cbn [snd] in Hx, Hx'.
    assert (starts_value (join [of_ascii ","] (map member_text ((k, x) :: ms))
                            ++ of_ascii "}" :: rest) = true)
      as Hs.
    { cbn [map]. destruct (map member_text ms); reflexivity. }
    rewrite (starts_value_skip_ws _ Hs).
    pose proof (@parse_members_join ms Hl' (k, x) f [] rest Hx Hx') as Hp.
    destruct (join [of_ascii ","] (map member_text ((k, x) :: ms)) ++ of_ascii "}" :: rest)
      as [|c r] eqn:Et; [discriminate|].
    cbn [starts_value] in Hs.
    destruct (is_char c "}"); [rewrite andb_false_r in Hs; discriminate|].
    apply Hp; [lia | exact Hnd | exact Hen | assumption].
Qed.

(** [JSON.parse] undoes [JSON.stringify] on well-formed values, up to the
    [undefined]s that serialisation drops or writes as [null] and to the
    numbers as the engine reads them back. *)
Theorem parse_stringify (v : value) (s : jsstring) :
  wf v = true -> stringify v = JStr s -> parse s = Ok (normal v).
Proof.
  unfold stringify, parse. intros Hwf Hs.
  destruct (render v) as [t|] eqn:Ev; [|discriminate].
  injection Hs as <-.
  pose proof (@parse_render v Hwf t Ev (S (List.length t)) []) as Hp.
  rewrite List.app_nil_r in Hp. rewrite Hp; [reflexivity | lia | exact I].
Qed.

Lemma stringify_defined (v : value) :
  defined v = true -> exists s, stringify v = JStr s.
Proof.
  unfold stringify. destruct (render v) eqn:Ev; [eauto|].
  apply render_none in Ev. subst v. discriminate.
Qed.

End with_engine.

End JSONFacts.

(* ================================================================== *)
(** * Facts: what JSON.parse returns                                     *)
(* ================================================================== *)

Module ParseFacts.
Import JSON.
Local Open Scope char_scope.
Local Open Scope list_scope.

Lemma obj_set_names (l : list (jsstring * value)) (k : jsstring) (v : value) (z : jsstring) :
  In z (map fst (obj_set l k v)) -> z = k \/ In z (map fst l).
Proof.
  induction l as [|[k' v'] l IH]; cbn [obj_set map fst].
  - intros [<-|[]]. now left.
  - destruct (str_eqb k k'); [cbn; tauto|].
    destruct (precedes k k'); cbn [map fst In].
    + intros [<-|Hin]; auto.
    + intros [<-|Hin]; [tauto|]. destruct (IH Hin); tauto.
Qed.

Lemma obj_set_own_keys (l : list (jsstring * value)) (k : jsstring) (v : value) :
  own_keys (map fst l) = true -> own_keys (map fst (obj_set l k v)) = true.
Proof.
  rewrite !JsFacts.own_keys_parts.
  induction l as [|[k' v'] l IH]; cbn [obj_set map fst].
  - intros _. split; [repeat constructor; intros [] | reflexivity].
  - intros [Hnd Hen]. inversion Hnd as [|? ? Hk' Hnd']; subst.
    cbn [enumerated] in Hen. apply andb_true_iff in Hen. destruct Hen as [Hb Hen'].
    destruct (JsFacts.str_eqb_spec k k') as [->|Hne].
    { cbn [map fst enumerated]. rewrite Hb, Hen'. auto. }
    destruct (precedes k k') eqn:Hp.
    + cbn [map fst]. split.
      * constructor; [|exact Hnd]. intros [Heq|Hin]; [congruence|].
        rewrite forallb_forall in Hb. specialize (Hb _ Hin).
        apply JsFacts.before_not_precedes in Hb. congruence.
      * cbn [enumerated forallb]. rewrite Hb, Hen', (JsFacts.precedes_before _ _ Hp).
        rewrite !andb_true_r. cbn [andb]. rewrite forallb_forall in Hb |- *.
        intros z Hz. eapply JsFacts.precedes_trans; eauto.
    + cbn [map fst]. destruct (IH (conj Hnd' Hen')) as [Hnd2 Hen2]. split.
      * constructor; [|exact Hnd2]. intros Hin.
        destruct (obj_set_names _ _ _ _ Hin) as [->|Hin']; [congruence | contradiction].
      * cbn [enumerated]. rewrite Hen2, andb_true_r.
        rewrite forallb_forall in Hb |- *. intros z Hz.
        destruct (obj_set_names _ _ _ _ Hz) as [->|Hin']; [|auto].
        now apply JsFacts.not_precedes_before.
Qed.

Lemma obj_set_sound (l : list (jsstring * value)) (k : jsstring) (v : value) :
  sound (JObj l) = true -> sound v = true -> sound (JObj (obj_set l k v)) = true.
Proof.
  unfold sound. cbn [defined wf]. rewrite !andb_true_iff.
  intros [Hd [Hn Hw]] [Hvd Hvw]. repeat split.
  - clear Hn Hw. induction l as [|[k' v'] l IH]; cbn in *; [now rewrite Hvd|].
    apply andb_true_iff in Hd. destruct Hd as [H1 H2].
    destruct (str_eqb k k'); cbn; rewrite ?Hvd, ?H1, ?H2; auto.
    destruct (precedes k k'); cbn; rewrite ?Hvd, ?H1, ?H2; auto.
  - now apply obj_set_own_keys.
  - clear Hn Hd. induction l as [|[k' v'] l IH]; cbn in *; [now rewrite Hvw|].
    apply andb_true_iff in Hw. destruct Hw as [H1 H2].
    destruct (str_eqb k k'); cbn; rewrite ?Hvw, ?H1, ?H2; auto.
    destruct (precedes k k'); cbn; rewrite ?Hvw, ?H1, ?H2; auto.
Qed.

Lemma arr_snoc_sound (acc : list value) (v : value) :
  sound (JArr acc) = true -> sound v = true -> sound (JArr (acc ++ [v])) = true.
Proof.
  unfold sound. cbn [defined wf]. rewrite !andb_true_iff, !forallb_app.
  cbn. intros [-> ->] [-> ->]. auto.
Qed.

Section with_engine.
Context {E : Engine}.

Lemma parse_number_sound (s : text) (v : value) (r : text) :
  parse_number s = Some (v, r) -> sound v = true.
Proof.
  unfold parse_number. destruct (read_literal s) as [[l r0]|]; [|discriminate].
  intros [= <- _]. reflexivity.
Qed.

Ltac break_match :=
  match goal with
  | H : context [match ?x with _ => _ end] |- _ =>
      destruct x eqn:?; try discriminate
  end.

Lemma parse_sound_fuel (fuel : nat) :
  (forall s v r, parse_value fuel s = Some (v, r) -> sound v = true) /\
  (forall s acc v r,
      sound (JArr acc) = true ->
      parse_elements fuel s acc = Some (v, r) -> sound v = true) /\
  (forall s acc v r,
      sound (JObj acc) = true ->
      parse_members fuel s acc = Some (v, r) -> sound v = true).
Proof.
  induction fuel as [|f (IHv & IHe & IHm)].
  - repeat split; intros; discriminate.
  - repeat split.
    + intros s v r H. cbn [parse_value] in H.
      repeat break_match;
        try (injection H as <- _; reflexivity);
        try (eapply IHe; [|eassumption]; reflexivity);
        try (eapply IHm; [|eassumption]; reflexivity).
      eapply parse_number_sound; eassumption.
    + intros s acc v r Hacc H. cbn [parse_elements] in H.
      repeat break_match; subst.
      * eapply IHe; [|eassumption]. apply arr_snoc_sound; eauto.
      * injection H as <- _. apply arr_snoc_sound; eauto.
    + intros s acc v r Hacc H. cbn [parse_members] in H.
      repeat break_match; subst.
      * eapply IHm; [|eassumption]. apply obj_set_sound; eauto.
      * injection H as <- _. apply obj_set_sound; eauto.
Qed.

(** Whatever [JSON.parse] returns has no [undefined] in it and distinct
    property names. *)
Lemma parse_sound (s : jsstring) (v : value) : parse s = Ok v -> sound v = true.
Proof.
  unfold parse.
  destruct (parse_value _ _) as [[v' r]|] eqn:Ep; [|discriminate].
  destruct (skip_ws r); [|discriminate]. intros [= <-].
  eapply (proj1 (parse_sound_fuel _)); eassumption.
Qed.

End with_engine.

End ParseFacts.

(* ================================================================== *)
(** * Facts: the sample engine on small inputs                          *)
(* ================================================================== *)

Module EngineFacts.
Import JSON.

(** The serialiser and the parser on small inputs. *)
Example stringify_array :
  stringify (E:=Samples.engine)
    (JArr [JNum 1; JUndefined; JBool true; JNum (-20); JNum 9.99; JNum 1e21;
           JNum 1.5e-7; JNum nan; JNum (-0)])
  = JStr "[1,null,true,-20,9.99,1e+21,1.5e-7,null,0]".
Proof. vm_compute. reflexivity. Qed.

Example stringify_undefined : stringify (E:=Samples.engine) JUndefined = JUndefined.
Proof. reflexivity. Qed.

Example parse_array :
  parse (E:=Samples.engine) " [ 1 , null,true ,[] ] "
  = Ok (JArr [JNum 1; JNull; JBool true; JArr []]).
Proof. vm_compute. reflexivity. Qed.

Example parse_fraction_and_exponent :
  parse (E:=Samples.engine) "[1.5,1e2,-0.25E-1,9.99,1e400]"
  = Ok (JArr [JNum 1.5; JNum 100; JNum (-0.025); JNum 9.99; JNum infinity]).
Proof. vm_compute. reflexivity. Qed.

Example number_round_trip :
  Number_read (Engine:=Samples.engine) (Number_toString (Engine:=Samples.engine) 9.99)
  = 9.99%float.
Proof. vm_compute. reflexivity. Qed.

Example parse_control_escape :
  match stringify (E:=Samples.engine) (JStr (of_ascii "010" :: js "a\b")) with
  | JStr s => parse (E:=Samples.engine) s
  | _ => Ok JUndefined
  end = Ok (JStr (of_ascii "010" :: js "a\b")).
Proof. vm_compute. reflexivity. Qed.

(** The escape of the euro sign, one code unit above U+00FF. *)
Example parse_unicode_escape :
  parse (E:=Samples.engine) (of_ascii dquote :: js "\u20ac" ++ [of_ascii dquote])
  = Ok (JStr [U16 "032" "172"]).
Proof. vm_compute. reflexivity. Qed.

(** A surrogate pair is written as it is, a lone surrogate as an escape. *)
Example stringify_surrogates :
  stringify (E:=Samples.engine) (JStr [U16 "216" "061"; U16 "222" "000"; U16 "216" "061"])
  = JStr (of_ascii dquote :: U16 "216" "061" :: U16 "222" "000" :: js "\ud83d"
          ++ [of_ascii dquote]).
Proof. vm_compute. reflexivity. Qed.

Example parse_repeated_name :
  parse (E:=Samples.engine)
    (js "{" ++ of_ascii dquote :: js "a" ++ of_ascii dquote :: js ":1,"
        ++ of_ascii dquote :: js "b" ++ of_ascii dquote :: js ":2,"
        ++ of_ascii dquote :: js "a" ++ of_ascii dquote :: js ":3}")
  = Ok (JObj [("a", JNum 3); ("b", JNum 2)]).
Proof. vm_compute. reflexivity. Qed.

Example parse_index_names :
  parse (E:=Samples.engine)
    (js "{" ++ of_ascii dquote :: js "b" ++ of_ascii dquote :: js ":1,"
        ++ of_ascii dquote :: js "10" ++ of_ascii dquote :: js ":2,"
        ++ of_ascii dquote :: js "9" ++ of_ascii dquote :: js ":3,"
        ++ of_ascii dquote :: js "01" ++ of_ascii dquote :: js ":4}")
  = Ok (JObj [("9", JNum 3); ("10", JNum 2); ("b", JNum 1); ("01", JNum 4)]).
Proof. vm_compute. reflexivity. Qed.

Example parse_leading_zero : exists e, parse (E:=Samples.engine) "01" = Throw e.
Proof. eexists. reflexivity. Qed.

Example parse_bare_point : exists e, parse (E:=Samples.engine) "1." = Throw e.
Proof. eexists. reflexivity. Qed.

Example parse_trailing_comma : exists e, parse (E:=Samples.engine) "[1,]" = Throw e.
Proof. eexists. vm_compute. reflexivity. Qed.

Example parse_empty : exists e, parse (E:=Samples.engine) "" = Throw e.
Proof. eexists. reflexivity. Qed.

End EngineFacts.

(* ================================================================== *)
(** * Facts: the payload codec                                          *)
(* ================================================================== *)

Module CodecFacts.
Import Codec.

Lemma unseal_seal (key plain : jsstring) :
  Samples.unseal key (Samples.seal key plain) = Some plain.
Proof.
  unfold Samples.unseal, Samples.seal.
  induction key as [|a key IH]; [reflexivity|].
  cbn. destruct (JsFacts.unit_eqb_spec a a); [exact IH | congruence].
Qed.

Lemma strict_cipher_inverts : cipher_inverts Samples.strict_cipher.
Proof.
  intros salt plain key. exists (Samples.seal key plain), (Some plain).
  cbn. rewrite unseal_seal. auto.
Qed.

Lemma lenient_cipher_inverts : cipher_inverts Samples.lenient_cipher.
Proof.
  intros salt plain key. exists (Samples.seal key plain), (Some plain).
  cbn. rewrite unseal_seal. auto.
Qed.

Section with_cipher.
Context {E : Engine} {C : CryptoJS}.

Lemma serializable_parts (P : value) :
  serializable P = true ->
  wf P = true /\ defined P = true /\ json_numbers P = true.
Proof.
  unfold serializable. rewrite !andb_true_iff. tauto.
Qed.

(** A value without [undefined] whose numbers are numbers of JSON is what
    it becomes on the way through [stringify] and [parse]. *)
Lemma normal_serializable (v : value) :
  defined v = true -> json_numbers v = true -> JSON.normal v = v.
Proof.
  induction v as [| |b|n|s|l IH|l IH] using value_ind; try reflexivity.
  - cbn [json_numbers JSON.normal]. intros _ Hn.
    apply andb_true_iff in Hn. destruct Hn as [-> Hn].
    apply FloatAxioms.Leibniz.eqb_spec in Hn. now rewrite Hn.
  - cbn [defined json_numbers JSON.normal]. intros Hd Hn. f_equal.
    induction l as [|x l IHl]; [reflexivity|].
    cbn [forallb] in Hd, Hn. apply andb_true_iff in Hd, Hn.
    destruct Hd as [Hx Hl], Hn as [Hxn Hln].
    inversion IH; subst. cbn [map]. f_equal; [|auto].
    destruct x; try discriminate; auto.
  - cbn [defined json_numbers JSON.normal]. intros Hd Hn. f_equal.
    induction l as [|[k x] l IHl]; [reflexivity|].
    cbn [forallb snd] in Hd, Hn. apply andb_true_iff in Hd, Hn.
    destruct Hd as [Hx Hl], Hn as [Hxn Hln].
    inversion IH; subst. cbn [flat_map snd fst]. cbn [snd] in *.
    rewrite IHl by auto.
    destruct x; try discriminate; cbn [List.app]; f_equal; f_equal; auto.
Qed.

(** In an engine that keeps the contract of ECMAScript, the numbers of
    JSON are the finite numbers other than [-0]: every well-formed value
    without [undefined], [NaN], an infinity or [-0] is serializable. *)
Lemma serializable_of_finite (P : value) :
  reads_back E ->
  wf P = true -> defined P = true -> finite_numbers P = true ->
  serializable P = true.
Proof.
  intros Hengine Hwf Hdef Hfin. unfold serializable. rewrite Hwf, Hdef. cbn [andb].
  clear Hwf Hdef.
  induction P as [| |b|n|s|l IH|l IH] using value_ind; try reflexivity.
  - cbn [finite_numbers json_numbers] in *.
    apply andb_true_iff in Hfin. destruct Hfin as [Hf Hz]. rewrite Hf. cbn [andb].
    apply FloatAxioms.Leibniz.eqb_spec. apply Hengine; [exact Hf|].
    intros ->. discriminate.
  - cbn [finite_numbers json_numbers] in *.
    induction l as [|x l IHl]; [reflexivity|].
    cbn [forallb] in *. apply andb_true_iff in Hfin. destruct Hfin as [Hx Hl].
    inversion IH; subst. apply andb_true_iff. auto.
  - cbn [finite_numbers json_numbers] in *.
    induction l as [|[k x] l IHl]; [reflexivity|].
    cbn [forallb snd] in *. apply andb_true_iff in Hfin. destruct Hfin as [Hx Hl].
    inversion IH; subst. apply andb_true_iff. auto.
Qed.

(** What [decryptData] returns, by the outcome of the cipher primitive. *)
Lemma decryptData_cases (ct : value) (key : jsstring) :
  decryptData ct key =
  match (bytes <- AES_decrypt ct key ;; Utf8_stringify bytes) with
  | Throw _ => Ok JNull
  | Ok plain =>
      match JSON.parse plain with
      | Ok parsed => Ok parsed
      | Throw _ => Ok (JStr plain)
      end
  end.
Proof.
  unfold decryptData, try_catch, Js.bind.
  destruct (AES_decrypt ct key) as [w|e]; [|reflexivity].
  destruct (Utf8_stringify w) as [plain|e]; [|reflexivity].
  destruct (JSON.parse plain); reflexivity.
Qed.

(** C1.  For a cipher that inverts itself under one key, every
    JSON-serializable payload (a well-formed value with no [undefined] in
    it, whose numbers are numbers of JSON: fractions and exponents
    included), every key and every salt: [encryptData] returns a
    ciphertext, and [decryptData] of that ciphertext under the same key
    returns the payload itself. *)
Theorem decrypt_encrypt_roundtrip
  (Hinv : cipher_inverts C) (salt : Salt) (P : value) (K : jsstring) :
  serializable P = true ->
  exists ct, encryptData salt P K = Ok ct /\ decryptData (JStr ct) K = Ok P.
Proof.
  intros HP. apply serializable_parts in HP. destruct HP as (Hwf & Hdef & Hnum).
  destruct (JSONFacts.stringify_defined P Hdef) as [plain Hs].
  destruct (Hinv salt plain K) as (cp & w & Henc & Hdec & Hutf).
  exists (CipherParams_toString cp). split.
  - unfold encryptData. rewrite Hs, Henc. reflexivity.
  - rewrite decryptData_cases, Hdec. cbn [Js.bind]. rewrite Hutf.
    rewrite (JSONFacts.parse_stringify P Hwf Hs).
    rewrite (normal_serializable P Hdef Hnum). reflexivity.
Qed.

(** C2, as the code has it.  [decryptData] never throws.  It returns
    [null] whenever the cipher primitive or the UTF-8 decoding throws; when
    they return a text, under whatever key, it returns that text parsed, or
    raw if it is not JSON.  So it returns [null] exactly when the primitive
    throws or the text it returns is JSON for [null]. *)
Theorem decryptData_never_throws (ct : value) (key : jsstring) :
  (exists v, decryptData ct key = Ok v) /\
  (forall e, (bytes <- AES_decrypt ct key ;; Utf8_stringify bytes) = Throw e ->
             decryptData ct key = Ok JNull) /\
  (forall plain,
      (bytes <- AES_decrypt ct key ;; Utf8_stringify bytes) = Ok plain ->
      decryptData ct key = Ok (match JSON.parse plain with
                               | Ok parsed => parsed
                               | Throw _ => JStr plain
                               end)) /\
  (decryptData ct key = Ok JNull <->
   (exists e, (bytes <- AES_decrypt ct key ;; Utf8_stringify bytes) = Throw e)
   \/ (exists plain,
         (bytes <- AES_decrypt ct key ;; Utf8_stringify bytes) = Ok plain
         /\ JSON.parse plain = Ok JNull)).
Proof.
  rewrite decryptData_cases.
  destruct (bytes <- AES_decrypt ct key ;; Utf8_stringify bytes) as [plain|e].
  - split; [|split; [|split]].
    + destruct (JSON.parse plain); eauto.
    + discriminate.
    + intros ? [= <-]. destruct (JSON.parse plain); reflexivity.
    + split.
      * intros Hnull. right. exists plain. split; [reflexivity|].
        destruct (JSON.parse plain) as [parsed|e]; [congruence | discriminate].
      * intros [[e He] | (plain' & [= <-] & ->)]; [discriminate | reflexivity].
  - split; [|split; [|split]]; [eauto | reflexivity | discriminate |].
    split; [eauto | reflexivity].
Qed.

(** C10.  With a non-empty encryption key configured and an environment
    other than development, a request whose body has a truthy top-level
    [data] field that [decryptData] turns into [null] makes the decoder
    stage throw the TypeError of reading [actualData] of [null]; the request
    is not passed on. *)
Theorem decoder_throws_on_null
  (cfg : Server.Config) (request : Server.Request) (data : value) (key : jsstring) :
  truthy (Server.req_body request) = true ->
  get (Server.req_body request) "data" = Ok data ->
  truthy data = true ->
  Server.encryptionKey cfg = Some key ->
  key <> "" ->
  Server.env cfg <> ENVIRONMENT_MODE_TYPE.dev ->
  decryptData data key = Ok JNull ->
  exists e,
    Server.decoder_handler cfg request = Throw e /\
    e_class e = C_TypeError /\
    e_message e = "Cannot read properties of null (reading 'actualData')".
Proof.
  intros Hbody Hget Hdata Hkey Hne Henv Hnull.
  unfold Server.decoder_handler. rewrite Hbody, Hget, Hkey. cbn [Js.bind].
  rewrite Hdata. cbn [of_ostring]. rewrite (JsFacts.truthy_key Hne).
  apply String.eqb_neq in Henv. rewrite Henv. cbn [negb andb].
  rewrite Hnull. cbn. eauto.
Qed.

End with_cipher.

(** C1 at the sample payload, which holds the price 9.99 and the euro
    sign, under the sample engine and cipher. *)
Lemma decrypt_encrypt_roundtrip_witness :
  exists ct,
    encryptData (E:=Samples.engine) (C:=Samples.strict_cipher) tt Samples.payload "s3cret"
    = Ok ct /\
    decryptData (E:=Samples.engine) (C:=Samples.strict_cipher) (JStr ct) "s3cret"
    = Ok Samples.payload.
Proof.
  apply (@decrypt_encrypt_roundtrip Samples.engine Samples.strict_cipher
           strict_cipher_inverts tt Samples.payload "s3cret").
  vm_compute. reflexivity.
Defined.

(** C2 as stated fails: under a cipher that inverts itself, a payload
    encrypted under one key and decrypted under another comes back as the
    empty string, not as [null]. *)
Lemma wrong_key_is_not_null :
  cipher_inverts Samples.lenient_cipher /\
  serializable (E:=Samples.engine) (JNum 1) = true /\
  js "k2" <> js "k1" /\
  encryptData (E:=Samples.engine) (C:=Samples.lenient_cipher) tt (JNum 1) "k1"
  = Ok "k1|1" /\
  decryptData (E:=Samples.engine) (C:=Samples.lenient_cipher) (JStr "k1|1") "k2"
  = Ok (JStr "") /\
  decryptData (E:=Samples.engine) (C:=Samples.lenient_cipher) (JStr "k1|1") "k2"
  <> Ok JNull.
Proof.
  split; [exact lenient_cipher_inverts|].
  split; [vm_compute; reflexivity|].
  split; [discriminate|].
  split; [vm_compute; reflexivity|].
  split; [vm_compute; reflexivity|].
  vm_compute. discriminate.
Qed.

(** C2 on the sample ciphers: a wrong key that makes decoding throw gives
    [null]; one that decodes to a text gives that text. *)
Lemma decryptData_never_throws_witness :
  decryptData (E:=Samples.engine) (C:=Samples.strict_cipher) (JStr "k1|1") "k2"
  = Ok JNull /\
  decryptData (E:=Samples.engine) (C:=Samples.lenient_cipher) (JStr "k1|1") "k2"
  = Ok (JStr "").
Proof.
  split.
  - apply (proj1 (proj2 (@decryptData_never_throws Samples.engine Samples.strict_cipher
                           (JStr "k1|1") "k2")) Samples.malformed_utf8).
    reflexivity.
  - apply (proj1 (proj2 (proj2 (@decryptData_never_throws Samples.engine
                                  Samples.lenient_cipher (JStr "k1|1") "k2"))) "").
    reflexivity.
Defined.

(** C10 on a production request whose [data] was sealed under another
    key. *)
Lemma decoder_throws_on_null_witness :
  exists e,
    Server.decoder_handler (E:=Samples.engine) (C:=Samples.strict_cipher)
      Samples.prodConfig
      (Server.mkRequest "POST" [] (JObj [("data", JStr "other|{}")]) JUndefined)
    = Throw e /\
    e_class e = C_TypeError /\
    e_message e = "Cannot read properties of null (reading 'actualData')".
Proof.
  apply (@decoder_throws_on_null Samples.engine Samples.strict_cipher
           Samples.prodConfig
           (Server.mkRequest "POST" [] (JObj [("data", JStr "other|{}")]) JUndefined)
           (JStr "other|{}") "s3cret");
    try reflexivity; discriminate.
Defined.

(** A request sealed under the configured key is opened; one that decrypts
    to a text that is no object loses its body without an error. *)
Example decoder_opens_envelope :
  match Codec.encryptData (E:=Samples.engine) (C:=Samples.lenient_cipher) tt
          Samples.payload "s3cret" with
  | Ok ct =>
      Server.decoder_handler (E:=Samples.engine) (C:=Samples.lenient_cipher)
        Samples.prodConfig
        (Server.mkRequest "POST" [] (JObj [("data", JStr ct)]) JUndefined)
  | Throw e => Throw e
  end
  = Ok (Server.mkRequest "POST" []
          (JObj [("name", JStr "Ada"); ("price", JNum 9.99);
                 ("currency", JStr Samples.euro);
                 ("tags", JArr [JNum 1; JNull])])
          (JNum 42)).
Proof. vm_compute. reflexivity. Qed.

Example decoder_passes_garbage_on :
  Server.decoder_handler (E:=Samples.engine) (C:=Samples.lenient_cipher)
    Samples.prodConfig
    (Server.mkRequest "POST" [] (JObj [("data", JStr "other|{}")]) JUndefined)
  = Ok (Server.mkRequest "POST" [] JUndefined JUndefined).
Proof. vm_compute. reflexivity. Qed.

Example decoder_is_off_in_development :
  Server.decoder_handler (E:=Samples.engine) (C:=Samples.strict_cipher)
    Samples.appConfig
    (Server.mkRequest "POST" [] (JObj [("data", JStr "other|{}")]) JUndefined)
  = Ok (Server.mkRequest "POST" [] (JObj [("data", JStr "other|{}")]) JUndefined).
Proof. vm_compute. reflexivity. Qed.

End CodecFacts.

(* ================================================================== *)
(** * Facts: construction, initialisation and readiness                  *)
(* ================================================================== *)

Module LifecycleFacts.
Import Server.

(** Runs the methods of [App] on the state they are applied to. *)
Ltac run_methods :=
  cbv beta iota zeta delta
    [init initLogging initSecurity initHealth decoder reloadDynamicRouter
     registerDynamicRouter initSwaggerUI initOpenApiValidation
     modifyResponseBody initRoutes initErrorTranslation
     openApiErrorTranslation initErrorHandling shutdown dynamicRouter_use
     bindM gets lift ret throw app_use set_readyState set_dynamicRouter use
     Server.app readyState config dynamicRouter stack x_powered_by fst snd].

(** C6.  A configuration with both schema sources absent and validation
    not switched off makes the constructor throw its configuration error,
    so no application object exists to serve a request; a configuration that
    supplies either source (a truthy value: a non-empty path, a schema
    object) constructs an instance, which is not ready yet.  The constructor
    throws in no other case than validation on and both sources falsy. *)
Theorem constructor_checks_schema_source (cfg : Config) :
  (shouldCheckOpenApiBaseSchema cfg <> Some false ->
   openapiBaseSchema cfg = None -> openapiSpec cfg = JUndefined ->
   constructor cfg = Throw configuration_error) /\
  (truthy (of_ostring (openapiBaseSchema cfg)) = true
   \/ truthy (openapiSpec cfg) = true ->
   exists s0, constructor cfg = Ok s0 /\ readyState s0 = false
              /\ config s0 = cfg /\ dynamicRouter s0 = None) /\
  (forall e, constructor cfg = Throw e ->
             e = configuration_error
             /\ shouldCheckOpenApiBaseSchema cfg <> Some false
             /\ truthy (of_ostring (openapiBaseSchema cfg)) = false
             /\ truthy (openapiSpec cfg) = false).
Proof.
  unfold constructor. split; [|split].
  - intros Hcheck Hbase Hspec. rewrite Hbase, Hspec. cbn.
    destruct (shouldCheckOpenApiBaseSchema cfg) as [[]|]; try reflexivity.
    congruence.
  - intros Hsrc.
    assert (negb (truthy (of_ostring (openapiBaseSchema cfg)))
            && negb (truthy (openapiSpec cfg)) = false) as Hno.
    { destruct Hsrc as [-> | ->]; cbn; [reflexivity | apply andb_false_r]. }
    rewrite <- andb_assoc, Hno, andb_false_r. eauto.
  - intros e.
    destruct (shouldCheckOpenApiBaseSchema cfg) as [[]|];
      destruct (truthy (of_ostring (openapiBaseSchema cfg)));
      destruct (truthy (openapiSpec cfg)); cbn; intros [= <-];
      repeat split; discriminate.
Qed.

(** C6 on the configuration without a schema source and on the test
    suite's configuration. *)
Lemma constructor_checks_schema_source_witness :
  constructor Samples.bareConfig = Throw configuration_error /\
  exists s0, constructor Samples.appConfig = Ok s0 /\ readyState s0 = false
             /\ config s0 = Samples.appConfig /\ dynamicRouter s0 = None.
Proof.
  split.
  - apply (proj1 (constructor_checks_schema_source Samples.bareConfig));
      [discriminate | reflexivity | reflexivity].
  - apply (proj1 (proj2 (constructor_checks_schema_source Samples.appConfig))).
    left. reflexivity.
Defined.

Section with_host.
Context {H : Host}.

(** One call of [init], spelled out. *)
Lemma init_unfold (disk : Disk) (s : App) :
  init disk s =
  let cfg := config s in
  let done := mkExpress (stack (app s) ++ init_stages cfg) false in
  if has_schema cfg then
    match (if truthy (openapiSpec cfg) then Ok (openapiSpec cfg)
           else YAML_load disk (of_ostring (openapiBaseSchema cfg))) with
    | Ok document =>
        (Ok done,
         mkApp done true cfg
               (Some [R_swaggerUI API.SWAGGER_UI document;
                      R_openApiValidator (validator_source cfg);
                      R_openApiValidator (validator_source cfg)]))
    | Throw e =>
        (Throw e,
         mkApp (mkExpress (stack (app s) ++ stages_before_router) false)
               (readyState s) cfg (Some []))
    end
  else (Ok done, mkApp done true cfg (Some [])).
Proof.
  destruct s as [[st xp] rs cfg dr].
  unfold has_schema, validator_source, init_stages, stages_before_router.
  run_methods.
  destruct (truthy (openapiSpec cfg) || truthy (of_ostring (openapiBaseSchema cfg)));
    run_methods.
  - destruct (if truthy (openapiSpec cfg) then Ok (openapiSpec cfg)
              else YAML_load disk (of_ostring (openapiBaseSchema cfg))) as [document|e];
      run_methods; cbn [List.app]; repeat rewrite <- List.app_assoc; reflexivity.
  - cbn [List.app]. repeat rewrite <- List.app_assoc. reflexivity.
Qed.

Lemma reload_readyState (disk : Disk) (spec : value) (s : App) :
  readyState (snd (reloadDynamicRouter disk spec s)) = readyState s.
Proof.
  destruct s as [a rs cfg dr]. run_methods.
  destruct (truthy spec || truthy (of_ostring (openapiBaseSchema cfg)));
    run_methods; [|reflexivity].
  destruct (if truthy spec then Ok spec
            else YAML_load disk (of_ostring (openapiBaseSchema cfg)));
    reflexivity.
Qed.

Lemma init_readyState (disk : Disk) (s : App) :
  match init disk s with
  | (Ok _, s') =>
      readyState s' = true
      /\ stack (app s') = stack (app s) ++ init_stages (config s)
  | (Throw _, s') => readyState s' = readyState s
  end.
Proof.
  rewrite init_unfold. cbv zeta.
  destruct (has_schema (config s)); [|cbn; auto].
  destruct (if truthy (openapiSpec (config s)) then Ok (openapiSpec (config s))
            else YAML_load disk (of_ostring (openapiBaseSchema (config s))));
    cbn; auto.
Qed.

Lemma run_ops_stays_down (ops : list Op) (s : App) :
  Forall (fun o => forall disk, o <> OpInit disk) ops -> readyState s = false ->
  readyState (run_ops ops s) = false.
Proof.
  intros Hops. revert s. induction Hops as [|o ops Ho Hops IH]; intros s Hs.
  - exact Hs.
  - cbn [run_ops fold_left]. apply IH.
    destruct o as [disk|disk spec|]; cbn [run_op].
    + now destruct (Ho disk).
    + rewrite reload_readyState. exact Hs.
    + reflexivity.
Qed.

(** C3, as the code has it.  An instance is created not ready; [init]
    makes it ready exactly when it returns, with every stage registered, and
    leaves readiness alone when it throws; [reloadDynamicRouter] leaves it
    alone; [shutdown] makes it not ready; and after [shutdown] it stays not
    ready through every sequence of operations that has no [init] in it.
    This holds whatever files each call finds on disk. *)
Theorem readiness_lifecycle :
  (forall cfg s0, constructor cfg = Ok s0 -> readyState s0 = false) /\
  (forall disk s,
      match init disk s with
      | (Ok _, s') =>
          readyState s' = true
          /\ stack (app s') = stack (app s) ++ init_stages (config s)
      | (Throw _, s') => readyState s' = readyState s
      end) /\
  (forall disk spec s,
      readyState (snd (reloadDynamicRouter disk spec s)) = readyState s) /\
  (forall s, readyState (snd (shutdown s)) = false) /\
  (forall ops s,
      Forall (fun o => forall disk, o <> OpInit disk) ops ->
      readyState (run_ops ops (snd (shutdown s))) = false).
Proof.
  split; [|split; [|split; [|split]]].
  - intros cfg s0. unfold constructor.
    destruct (_ && _ && _); [discriminate|]. intros [= <-]. reflexivity.
  - exact init_readyState.
  - exact reload_readyState.
  - reflexivity.
  - intros ops s Hops. apply run_ops_stays_down; [exact Hops | reflexivity].
Qed.

Lemma one_time_stages_app (l l' : list Stage) :
  one_time_stages (l ++ l') = one_time_stages l ++ one_time_stages l'.
Proof. apply filter_app. Qed.

(** What one call of [init] does to the layers and the route table, by
    its outcome. *)
Lemma init_effect (disk : Disk) (s : App) :
  (exists added,
      stack (app (snd (init disk s))) = stack (app s) ++ stages_before_router ++ added) /\
  (forall a, fst (init disk s) = Ok a ->
     stack (app (snd (init disk s))) = stack (app s) ++ init_stages (config s)
     /\ readyState (snd (init disk s)) = true) /\
  (forall e, fst (init disk s) = Throw e ->
     stack (app (snd (init disk s))) = stack (app s) ++ stages_before_router
     /\ YAML_load disk (of_ostring (openapiBaseSchema (config s))) = Throw e) /\
  config (snd (init disk s)) = config s /\
  (forall table,
      dynamicRouter (snd (init disk (mkApp (app s) (readyState s) (config s) table)))
      = dynamicRouter (snd (init disk s))).
Proof.
  assert (init_stages (config s)
          = stages_before_router
            ++ [S_dynamicRouter; S_modifyResponseBody; S_router "/" (router (config s));
                S_notFound; S_openApiErrorTranslation; S_errorTranslation;
                S_errorHandling]) as Hsplit by reflexivity.
  split; [|split; [|split; [|split]]].
  - rewrite init_unfold. cbv zeta.
    destruct (has_schema (config s));
      [destruct (if truthy (openapiSpec (config s)) then Ok (openapiSpec (config s))
                 else YAML_load disk (of_ostring (openapiBaseSchema (config s))))|];
      cbn [snd app stack]; rewrite ?Hsplit; eauto.
    exists []. now rewrite List.app_nil_r.
  - intros a. rewrite init_unfold. cbv zeta.
    destruct (has_schema (config s));
      [destruct (if truthy (openapiSpec (config s)) then Ok (openapiSpec (config s))
                 else YAML_load disk (of_ostring (openapiBaseSchema (config s))))|];
      cbn; intros; try discriminate; auto.
  - intros e. rewrite init_unfold. cbv zeta. unfold has_schema.
    destruct (truthy (openapiSpec (config s))); [discriminate|]. cbn [orb].
    destruct (truthy (of_ostring (openapiBaseSchema (config s)))); [|discriminate].
    destruct (YAML_load disk (of_ostring (openapiBaseSchema (config s))));
      cbn; intros [= ->]; auto.
  - rewrite init_unfold. cbv zeta.
    destruct (has_schema (config s));
      [destruct (if truthy (openapiSpec (config s)) then Ok (openapiSpec (config s))
                 else YAML_load disk (of_ostring (openapiBaseSchema (config s))))|];
      reflexivity.
  - intros table. rewrite !init_unfold. cbv zeta. cbn [config].
    destruct (has_schema (config s));
      [destruct (if truthy (openapiSpec (config s)) then Ok (openapiSpec (config s))
                 else YAML_load disk (of_ostring (openapiBaseSchema (config s))))|];
      reflexivity.
Qed.

(** C4, as the code has it.  On an instance whose first [init] returned,
    a second [init], whatever files it finds, rebuilds the dynamic route
    table (the table it leaves does not depend on the table the first call
    left) and registers the stages again: the logging, security, health and
    decoder layers are appended once more after the layers of the first
    call; when the second call returns, so are all the layers of the
    pipeline, in the same order; it throws only what [YAML.load] throws, and
    has then appended those first layers only.  In every case the one-time
    stage registrations are not what the first call left. *)
Theorem second_init_registers_again
  (disk1 disk2 : Disk) (s0 s1 : App) (a1 : Express) :
  init disk1 s0 = (Ok a1, s1) ->
  let s2 := snd (init disk2 s1) in
  stack (app s1) = stack (app s0) ++ init_stages (config s0) /\
  (exists added,
      stack (app s2) = stack (app s1) ++ stages_before_router ++ added) /\
  (forall a2, fst (init disk2 s1) = Ok a2 ->
     stack (app s2) = stack (app s1) ++ init_stages (config s0)
     /\ readyState s2 = true) /\
  (forall e, fst (init disk2 s1) = Throw e ->
     stack (app s2) = stack (app s1) ++ stages_before_router
     /\ YAML_load disk2 (of_ostring (openapiBaseSchema (config s0))) = Throw e) /\
  (forall table,
      dynamicRouter
        (snd (init disk2 (mkApp (app s1) (readyState s1) (config s1) table)))
      = dynamicRouter s2) /\
  one_time_stages (stack (app s2)) <> one_time_stages (stack (app s1)).
Proof.
  intros H0. cbv zeta.
  destruct (init_effect disk1 s0) as (_ & Hret1 & _ & Hcfg1 & _).
  rewrite H0 in Hret1, Hcfg1. cbn [fst snd] in Hret1, Hcfg1.
  destruct (Hret1 a1 eq_refl) as [Hst1 _].
  destruct (init_effect disk2 s1) as ((added & Hadd) & Hret2 & Hthrow2 & _ & Htable).
  rewrite Hcfg1 in Hret2, Hthrow2.
  split; [exact Hst1|]. split; [eauto|]. split; [exact Hret2|].
  split; [exact Hthrow2|]. split; [exact Htable|].
  rewrite Hadd, !one_time_stages_app. intros Heq.
  apply (f_equal (@List.length _)) in Heq.
  rewrite !List.length_app in Heq. cbn in Heq. lia.
Qed.

End with_host.

(** C4 on the production instance. *)
Lemma second_init_registers_again_witness :
  let s1 := snd (init (H:=Samples.host) Samples.disk Samples.prodInstance) in
  let s2 := snd (init (H:=Samples.host) Samples.disk s1) in
  stack (app s1) = stack (app Samples.prodInstance)
                   ++ init_stages (config Samples.prodInstance) /\
  (exists added,
      stack (app s2) = stack (app s1) ++ stages_before_router ++ added) /\
  (forall a2, fst (init (H:=Samples.host) Samples.disk s1) = Ok a2 ->
     stack (app s2) = stack (app s1) ++ init_stages (config Samples.prodInstance)
     /\ readyState s2 = true) /\
  (forall e, fst (init (H:=Samples.host) Samples.disk s1) = Throw e ->
     stack (app s2) = stack (app s1) ++ stages_before_router
     /\ YAML_load (Host:=Samples.host) Samples.disk
          (of_ostring (openapiBaseSchema (config Samples.prodInstance))) = Throw e) /\
  (forall table,
      dynamicRouter
        (snd (init (H:=Samples.host) Samples.disk
                (mkApp (app s1) (readyState s1) (config s1) table)))
      = dynamicRouter s2) /\
  one_time_stages (stack (app s2)) <> one_time_stages (stack (app s1)).
Proof.
  apply (@second_init_registers_again Samples.host Samples.disk Samples.disk
           Samples.prodInstance
           (snd (init (H:=Samples.host) Samples.disk Samples.prodInstance))
           (app (snd (init (H:=Samples.host) Samples.disk Samples.prodInstance)))).
  vm_compute. reflexivity.
Defined.

(** C3 on the production instance: after [shutdown], a reload and a second
    [shutdown] leave it not ready. *)
Lemma readiness_lifecycle_witness :
  readyState (run_ops (H:=Samples.host)
                [OpReloadDynamicRouter Samples.disk JUndefined; OpShutdown]
                (snd (shutdown (snd (init (H:=Samples.host) Samples.disk
                                       Samples.prodInstance)))))
  = false.
Proof.
  apply (proj2 (proj2 (proj2 (proj2 (@readiness_lifecycle Samples.host))))).
  repeat constructor; discriminate.
Defined.

(** C3 as stated fails: on the production instance, [init] after
    [shutdown] makes the instance ready again. *)
Lemma ready_again_after_shutdown :
  constructor Samples.prodConfig = Ok Samples.prodInstance /\
  readyState (run_ops (H:=Samples.host) [OpInit Samples.disk; OpShutdown]
                Samples.prodInstance)
  = false /\
  readyState (run_ops (H:=Samples.host)
                [OpInit Samples.disk; OpShutdown; OpInit Samples.disk]
                Samples.prodInstance)
  = true /\
  ready_check (run_ops (H:=Samples.host)
                 [OpInit Samples.disk; OpShutdown; OpInit Samples.disk]
                 Samples.prodInstance)
  = httpStatus.OK.
Proof. repeat split. Qed.

(** C4 as stated fails: on the production instance the second [init]
    leaves thirteen more layers, other than the dispatch into the dynamic
    route table, than the first one left. *)
Lemma second_init_changes_one_time_stages :
  constructor Samples.prodConfig = Ok Samples.prodInstance /\
  let s1 := run_op (H:=Samples.host) (OpInit Samples.disk) Samples.prodInstance in
  let s2 := run_op (H:=Samples.host) (OpInit Samples.disk) s1 in
  one_time_stages (stack (app s2))
  = one_time_stages (stack (app s1))
    ++ one_time_stages (init_stages Samples.prodConfig) /\
  List.length (one_time_stages (stack (app s1))) = 17 /\
  List.length (one_time_stages (stack (app s2))) = 30 /\
  one_time_stages (stack (app s2)) <> one_time_stages (stack (app s1)).
Proof.
  split; [reflexivity|]. vm_compute. repeat split.
  intros Heq. apply (f_equal (@List.length _)) in Heq. discriminate.
Qed.

(** The schema file is read at each call: on the instance of the test
    suite's configuration, a second [init] that finds the file gone throws,
    having appended the first seven layers once more and emptied the route
    table, and leaves the instance ready as the first call made it. *)
Example second_init_can_throw :
  let s1 := snd (init (H:=Samples.host) Samples.disk Samples.appInstance) in
  let s2 := snd (init (H:=Samples.host) Samples.empty_disk s1) in
  (exists a1, fst (init (H:=Samples.host) Samples.disk Samples.appInstance) = Ok a1) /\
  fst (init (H:=Samples.host) Samples.empty_disk s1) = Throw Samples.no_such_file /\
  stack (app s2) = stack (app s1) ++ stages_before_router /\
  dynamicRouter s1 <> Some [] /\
  dynamicRouter s2 = Some [] /\
  readyState s2 = true.
Proof.
  vm_compute. repeat split; eauto. discriminate.
Qed.

End LifecycleFacts.

(* ================================================================== *)
(** * Facts: error translation and the terminal error handler           *)
(* ================================================================== *)

Module ErrorFacts.
Import Server.

Lemma stringify_object {E : Engine} (l : list (jsstring * value)) :
  exists s, JSON.stringify (JObj l) = JStr s.
Proof. unfold JSON.stringify. cbn [JSON.render]. eauto. Qed.

Section with_collaborators.
Context {E : Engine} {H : Host} {K : FixedKinds}.

(** C7.  A validator bad-request error leaves the two translation stages
    as a detailed error of status 400 and code [error.request.invalid]
    whose details are the validator's issues in their order, each as
    [{target: path, message, code}]. *)
Theorem bad_request_translation (cfg : Config) (err : Err) :
  Errors.instanceof err C_BadRequest = true ->
  let e' := translate cfg err in
  Errors.instanceof e' C_DetailedError = true /\
  e_status e' = 400%Z /\
  e_code e' = JStr "error.request.invalid" /\
  e_details e' = map detail_of_item (e_errors err) /\
  List.length (e_details e') = List.length (e_errors err) /\
  (forall i item,
      nth_error (e_errors err) i = Some item ->
      nth_error (e_details e') i
      = Some (JObj [("target", item_path item);
                    ("message", item_message item);
                    ("code", item_code item)])).
Proof.
  intros Hbad. unfold translate, openApiErrorTranslation_handler.
  rewrite Hbad. unfold errorTranslation_handler. cbn.
  repeat split.
  - apply length_map.
  - intros i item Hnth. rewrite nth_error_map, Hnth. reflexivity.
Qed.

(** C8.  When the headers have been sent, the terminal handler leaves the
    response as it is, status and body, and forwards the error. *)
Theorem sent_response_is_left_alone (cfg : Config) (error : Err) (res : Response) :
  headersSent res = true ->
  errorHandling_handler cfg error res = (res, Some error).
Proof.
  intros Hsent. unfold errorHandling_handler. rewrite Hsent. reflexivity.
Qed.

(** The body the terminal handler writes, parsed back. *)
Lemma rendered_error (cfg : Config) (error : Err) (res : Response) :
  headersSent res = false ->
  Errors.error_wf error = true ->
  let res' := fst (errorHandling_handler cfg error res) in
  let fields : list (jsstring * value) :=
    [("message", JStr (if e_isPublic error then e_message error
                       else "An unexpected error has occurred"));
     ("code", e_code error);
     ("stack", if String.eqb (env cfg) GLOBAL.ENV_DEV
               then e_stack error else JUndefined)]
    ++ (if Errors.instanceof error C_DetailedError
        then [("details", JArr (e_details error))] else []) in
  snd (errorHandling_handler cfg error res) = None /\
  headersSent res' = true /\
  statusCode res' = e_status error /\
  wire_body res' = Ok (JSON.normal (JObj fields)).
Proof.
  intros Hsent Hwf. unfold Errors.error_wf in Hwf.
  rewrite !andb_true_iff in Hwf. destruct Hwf as [[Hcode Hstack] Hdetails].
  unfold errorHandling_handler. rewrite Hsent.
  assert (wf (if String.eqb (env cfg) GLOBAL.ENV_DEV
              then e_stack error else JUndefined) = true) as Hst.
  { destruct (String.eqb (env cfg) GLOBAL.ENV_DEV); [exact Hstack | reflexivity]. }
  destruct (Errors.instanceof error C_DetailedError);
    cbn [fst snd List.app]; unfold wire_body, res_json, res_status;
    cbn [body statusCode headersSent];
    match goal with
    | |- context [JSON.stringify (JObj ?l)] =>
        destruct (stringify_object l) as [s Hs]; rewrite Hs;
        rewrite (JSONFacts.parse_stringify (JObj l) (s:=s))
    end; auto;
    cbn [wf map fst snd nodupb existsb forallb]; cbn;
    rewrite ?Hcode, ?Hst, ?Hdetails; reflexivity.
Qed.

(** C5.  On a response not yet started, the terminal handler sets the
    status to the error's status and writes a body whose [message] is the
    error's own message when the error is public, and the fixed string
    otherwise. *)
Theorem rendered_message_and_status (cfg : Config) (error : Err) (res : Response) :
  headersSent res = false ->
  Errors.error_wf error = true ->
  let res' := fst (errorHandling_handler cfg error res) in
  statusCode res' = e_status error /\
  exists v,
    wire_body res' = Ok v /\
    get v "message"
    = Ok (JStr (if e_isPublic error then e_message error
                else "An unexpected error has occurred")).
Proof.
  intros Hsent Hwf.
  destruct (rendered_error cfg error res Hsent Hwf) as (_ & _ & Hstatus & Hbody).
  split; [exact Hstatus|]. eexists. split; [exact Hbody|]. reflexivity.
Qed.

(** C9, as the code has it.  The body the terminal handler writes has a
    [details] field exactly when the error is a [DetailedError], whatever
    the length of its details list, and a [stack] field exactly when the
    environment is development and the error has a stack. *)
Theorem rendered_details_and_stack (cfg : Config) (error : Err) (res : Response) :
  headersSent res = false ->
  Errors.error_wf error = true ->
  exists v,
    wire_body (fst (errorHandling_handler cfg error res)) = Ok v /\
    has_own v "details" = Errors.instanceof error C_DetailedError /\
    has_own v "stack"
    = (String.eqb (env cfg) GLOBAL.ENV_DEV
       && negb (JSON.is_undefined (e_stack error)))%bool /\
    (has_own v "stack" = true -> env cfg = GLOBAL.ENV_DEV).
Proof.
  intros Hsent Hwf.
  destruct (rendered_error cfg error res Hsent Hwf) as (_ & _ & _ & Hbody).
  eexists. split; [exact Hbody|].
  assert (forall b, (String.eqb (env cfg) GLOBAL.ENV_DEV && b)%bool = true ->
                    env cfg = GLOBAL.ENV_DEV) as Hdev.
  { intros b Hb. apply andb_true_iff in Hb. apply String.eqb_eq. tauto. }
  match goal with
  | |- _ /\ ?x = ?y /\ _ => assert (x = y) as Hstack
  end.
  { destruct (String.eqb (env cfg) GLOBAL.ENV_DEV);
      destruct (e_code error), (e_stack error),
        (Errors.instanceof error C_DetailedError); reflexivity. }
  split; [|split; [exact Hstack|]].
  - destruct (String.eqb (env cfg) GLOBAL.ENV_DEV);
      destruct (e_code error), (e_stack error),
        (Errors.instanceof error C_DetailedError); reflexivity.
  - rewrite Hstack. apply Hdev.
Qed.

End with_collaborators.

(** C7 on a bad-request error with two issues. *)
Lemma bad_request_translation_witness :
  let e' := translate (H:=Samples.host) (K:=Samples.kinds)
              Samples.appConfig Samples.sample_bad_request in
  Errors.instanceof e' C_DetailedError = true /\
  e_status e' = 400%Z /\
  e_code e' = JStr "error.request.invalid" /\
  e_details e' = map detail_of_item (e_errors Samples.sample_bad_request) /\
  List.length (e_details e') = List.length (e_errors Samples.sample_bad_request) /\
  (forall i item,
      nth_error (e_errors Samples.sample_bad_request) i = Some item ->
      nth_error (e_details e') i
      = Some (JObj [("target", item_path item);
                    ("message", item_message item);
                    ("code", item_code item)])).
Proof.
  apply (@bad_request_translation Samples.host Samples.kinds
           Samples.appConfig Samples.sample_bad_request).
  reflexivity.
Defined.

(** C8 on the response a handler had sent before it threw. *)
Lemma sent_response_is_left_alone_witness :
  errorHandling_handler (E:=Samples.engine) Samples.appConfig (Samples.sample_api_error true)
    Samples.sent_response
  = (Samples.sent_response, Some (Samples.sample_api_error true)).
Proof.
  apply (sent_response_is_left_alone (E:=Samples.engine) Samples.appConfig
           (Samples.sample_api_error true) Samples.sent_response).
  reflexivity.
Defined.

(** C5 on the private application error of the test suite. *)
Lemma rendered_message_and_status_witness :
  let res' := fst (errorHandling_handler (E:=Samples.engine) Samples.prodConfig
                     (Samples.sample_api_error false) Samples.fresh_response) in
  statusCode res' = e_status (Samples.sample_api_error false) /\
  exists v,
    wire_body (E:=Samples.engine) res' = Ok v /\
    get v "message"
    = Ok (JStr (if e_isPublic (Samples.sample_api_error false)
                then e_message (Samples.sample_api_error false)
                else "An unexpected error has occurred")).
Proof.
  apply (rendered_message_and_status (E:=Samples.engine) Samples.prodConfig
           (Samples.sample_api_error false) Samples.fresh_response); reflexivity.
Defined.

(** C9 on the detailed error of the test suite, in development. *)
Lemma rendered_details_and_stack_witness :
  exists v,
    wire_body (E:=Samples.engine) (fst (errorHandling_handler (E:=Samples.engine) Samples.appConfig Samples.sample_detailed_error
                      Samples.fresh_response)) = Ok v /\
    has_own v "details" = Errors.instanceof Samples.sample_detailed_error C_DetailedError /\
    has_own v "stack"
    = (String.eqb (env Samples.appConfig) GLOBAL.ENV_DEV
       && negb (JSON.is_undefined (e_stack Samples.sample_detailed_error)))%bool /\
    (has_own v "stack" = true -> env Samples.appConfig = GLOBAL.ENV_DEV).
Proof.
  apply (rendered_details_and_stack (E:=Samples.engine) Samples.appConfig
           Samples.sample_detailed_error Samples.fresh_response); reflexivity.
Defined.

(** C9 as stated fails: the detailed error of the test suite has an empty
    details list, and the body written for it has a [details] field. *)
Lemma empty_details_are_written :
  e_details Samples.sample_detailed_error = [] /\
  body (fst (errorHandling_handler (E:=Samples.engine) Samples.prodConfig Samples.sample_detailed_error
               Samples.fresh_response))
  = JSON.stringify (E:=Samples.engine)
      (JObj [("message", JStr "This error was produced by service.test.ts");
             ("code", JStr "10");
             ("details", JArr [])]) /\
  exists v,
    wire_body (E:=Samples.engine) (fst (errorHandling_handler (E:=Samples.engine) Samples.prodConfig
                      Samples.sample_detailed_error Samples.fresh_response)) = Ok v /\
    has_own v "details" = true.
Proof.
  split; [reflexivity|]. split; [reflexivity|].
  eexists. split; [vm_compute; reflexivity | reflexivity].
Qed.

End ErrorFacts.

(* ================================================================== *)
(** * Facts: the envelope stages                                         *)
(* ================================================================== *)

Module EnvelopeFacts.
Import Codec Server.

Lemma stringify_not_undefined {E : Engine} (v : value) :
  JSON.is_undefined v = false -> exists s, JSON.stringify v = JStr s.
Proof.
  unfold JSON.stringify. destruct (JSON.render v) eqn:Ep; [eauto|].
  apply JSONFacts.render_none in Ep. subst v. discriminate.
Qed.

Lemma sound_parts (v : value) :
  JSON.sound v = true -> defined v = true /\ wf v = true.
Proof. unfold JSON.sound. apply andb_true_iff. Qed.

Lemma get_wf (v : value) (k : jsstring) (x : value) :
  wf v = true -> Js.get v k = Ok x -> wf x = true.
Proof.
  destruct v; cbn [Js.get]; intros Hw Hg; try discriminate;
    try (injection Hg as <-; reflexivity).
  injection Hg as <-. cbn [wf] in Hw. apply andb_true_iff in Hw.
  destruct Hw as [_ Hw].
  induction l as [|[k' v] l IH]; [reflexivity|].
  cbn [lookup]. cbn [forallb snd] in Hw. apply andb_true_iff in Hw.
  destruct Hw as [Hv Hl]. destruct (str_eqb k k'); auto.
Qed.

Section with_cipher.
Context {E : Engine} {C : CryptoJS}.

(** Sealing a value and opening it under the same key gives the value as
    JSON carries it. *)
Lemma seal_then_open (Hinv : cipher_inverts C) (salt : Salt) (P : value) (K : jsstring) :
  wf P = true -> JSON.is_undefined P = false ->
  exists ct, encryptData salt P K = Ok ct
             /\ decryptData (JStr ct) K = Ok (JSON.normal P).
Proof.
  intros Hwf Hdef.
  destruct (stringify_not_undefined P Hdef) as [plain Hs].
  destruct (Hinv salt plain K) as (cp & w & Henc & Hdec & Hutf).
  exists (CipherParams_toString cp). split.
  - unfold encryptData. rewrite Hs, Henc. reflexivity.
  - rewrite CodecFacts.decryptData_cases, Hdec. cbn [Js.bind]. rewrite Hutf.
    rewrite (JSONFacts.parse_stringify P Hwf Hs). reflexivity.
Qed.

Lemma decryptData_sound (ct : value) (key : jsstring) (v : value) :
  decryptData ct key = Ok v -> JSON.sound v = true.
Proof.
  rewrite CodecFacts.decryptData_cases.
  destruct (bytes <- AES_decrypt ct key ;; Utf8_stringify bytes) as [plain|e].
  - destruct (JSON.parse plain) as [parsed|e] eqn:Ep; intros [= <-].
    + eapply ParseFacts.parse_sound; eassumption.
    + reflexivity.
  - intros [= <-]. reflexivity.
Qed.

Lemma decryptData_returns (ct : value) (key : jsstring) :
  exists v, decryptData ct key = Ok v.
Proof.
  rewrite CodecFacts.decryptData_cases.
  destruct (bytes <- AES_decrypt ct key ;; Utf8_stringify bytes) as [plain|e];
    [destruct (JSON.parse plain)|]; eauto.
Qed.

(** X1.  For a cipher that inverts itself under one key and every
    well-formed payload other than [undefined] itself, [decryptData] of
    [encryptData] under the same key is the payload with its [undefined]
    properties removed and its [undefined] array elements turned into
    [null]. *)
Theorem roundtrip_drops_undefined
  (Hinv : cipher_inverts C) (salt : Salt) (P : value) (K : jsstring) :
  wf P = true -> JSON.is_undefined P = false ->
  exists ct, encryptData salt P K = Ok ct
             /\ decryptData (JStr ct) K = Ok (JSON.normal P).
Proof. apply seal_then_open; assumption. Qed.

(** X2.  Whatever [decryptData] returns is [null], a string or a value
    read from JSON: it is never [undefined], holds no [undefined] inside,
    and its objects have distinct property names, listed as JavaScript
    enumerates them. *)
Theorem decryptData_returns_json (ct : value) (key : jsstring) (v : value) :
  decryptData ct key = Ok v ->
  v <> JUndefined /\ defined v = true /\ wf v = true.
Proof.
  intros H. apply decryptData_sound, sound_parts in H. destruct H as [Hd Hw].
  repeat split; auto. intros ->. discriminate.
Qed.

(** X3.  The decoder passes the request on untouched when no key is
    configured, when the key is the empty string, in development, when the
    body is falsy, or when the body has no truthy [data]. *)
Theorem decoder_is_inert (cfg : Config) (request : Request) :
  encryptionKey cfg = None \/ encryptionKey cfg = Some ""
  \/ env cfg = ENVIRONMENT_MODE_TYPE.dev
  \/ truthy (req_body request) = false
  \/ (exists data, Js.get (req_body request) "data" = Ok data /\ truthy data = false) ->
  decoder_handler cfg request = Ok request.
Proof.
  intros H. unfold decoder_handler.
  destruct (truthy (req_body request)) eqn:Hb; [|reflexivity].
  assert (exists data, Js.get (req_body request) "data" = Ok data) as [data Hget].
  { destruct (req_body request); cbn in Hb |- *; try discriminate; eauto. }
  rewrite Hget. cbn [Js.bind].
  destruct H as [H | [H | [H | [H | (d & Hd & Ht)]]]].
  - rewrite H. cbn. rewrite andb_false_r. reflexivity.
  - rewrite H. cbn. rewrite andb_false_r. reflexivity.
  - rewrite H. rewrite String.eqb_refl. cbn. rewrite !andb_false_r. reflexivity.
  - discriminate.
  - rewrite Hget in Hd. injection Hd as <-. rewrite Ht. reflexivity.
Qed.

(** X4.  The decoder throws in one case only: it is active (non-empty
    key, not development), the body has a truthy [data], and [decryptData]
    turns that [data] into [null]. *)
Theorem decoder_throws_only_on_null (cfg : Config) (request : Request) (e : Err) :
  decoder_handler cfg request = Throw e ->
  exists data key,
    truthy (req_body request) = true /\
    Js.get (req_body request) "data" = Ok data /\
    truthy data = true /\
    encryptionKey cfg = Some key /\ key <> "" /\
    env cfg <> ENVIRONMENT_MODE_TYPE.dev /\
    decryptData data key = Ok JNull.
Proof.
  unfold decoder_handler.
  destruct (truthy (req_body request)) eqn:Hb; [|discriminate].
  assert (exists data, Js.get (req_body request) "data" = Ok data) as [data Hget].
  { destruct (req_body request); cbn in Hb |- *; try discriminate; eauto. }
  rewrite Hget. cbn [Js.bind].
  destruct (truthy data) eqn:Hd; [|discriminate].
  destruct (encryptionKey cfg) as [key|] eqn:Hk; [|discriminate].
  cbn [of_ostring andb].
  destruct (truthy (JStr key)) eqn:Hkey; [|discriminate].
  destruct (String.eqb (env cfg) ENVIRONMENT_MODE_TYPE.dev) eqn:Henv; [discriminate|].
  cbn [negb andb].
  destruct (decryptData data key) as [v|e'] eqn:Hdec.
  - cbn [Js.bind]. pose proof (decryptData_sound _ _ Hdec) as Hs.
    destruct v; try discriminate.
    intros _. exists data, key. repeat split; auto.
    + intros ->. discriminate.
    + now apply String.eqb_neq.
  - exfalso. destruct (decryptData_returns data key) as [v Hv]. congruence.
Qed.

(** X5.  An active decoder that receives, as the body's [data], a
    JSON-serializable object (fractions included) sealed under the
    configured key replaces the body by the object's [actualData] and
    stashes its [randNum] ([undefined] for the one the object lacks). *)
Theorem decoder_unseals
  (Hinv : cipher_inverts C) (cfg : Config) (request : Request)
  (salt : Salt) (envelope : list (jsstring * value)) (key ct : jsstring) :
  encryptionKey cfg = Some key -> key <> "" ->
  env cfg <> ENVIRONMENT_MODE_TYPE.dev ->
  serializable (JObj envelope) = true ->
  encryptData salt (JObj envelope) key = Ok ct -> ct <> "" ->
  truthy (req_body request) = true ->
  Js.get (req_body request) "data" = Ok (JStr ct) ->
  decoder_handler cfg request
  = Ok (mkRequest (req_method request) (req_headers request)
          (match lookup "actualData" envelope with Some a => a | None => JUndefined end)
          (match lookup "randNum" envelope with Some r => r | None => JUndefined end)).
Proof.
  intros Hkey Hne Henv Hser Henc Hct Hbody Hget.
  apply CodecFacts.serializable_parts in Hser. destruct Hser as (Hwf & Hdef & Hnum).
  destruct (seal_then_open Hinv salt (JObj envelope) key Hwf eq_refl)
    as (ct' & Henc' & Hdec).
  rewrite Henc in Henc'. injection Henc' as <-.
  rewrite (CodecFacts.normal_serializable _ Hdef Hnum) in Hdec.
  unfold decoder_handler. rewrite Hbody, Hget, Hkey. cbn [Js.bind of_ostring].
  rewrite (JsFacts.truthy_key Hct), (JsFacts.truthy_key Hne).
  apply String.eqb_neq in Henv. rewrite Henv. cbn [negb andb].
  rewrite Hdec. reflexivity.
Qed.

(** X6.  The wrapped [send] hands its argument on unchanged when no key
    is configured, when the key is the empty string, in development, and,
    whatever the configuration, when the argument is not of type object (a
    string, a number, a boolean, [undefined]). *)
Theorem wrapped_send_passes_through
  (cfg : Config) (salt : Salt) (req : Request) (data : value) :
  encryptionKey cfg = None \/ encryptionKey cfg = Some ""
  \/ env cfg = ENVIRONMENT_MODE_TYPE.dev
  \/ typeof_object data = false ->
  wrapped_send cfg salt req data = Ok data.
Proof.
  intros H. unfold wrapped_send.
  destruct (encryptionKey cfg) as [key|] eqn:Hk; [|reflexivity].
  destruct (truthy (JStr key) && negb (String.eqb (env cfg) ENVIRONMENT_MODE_TYPE.dev))
    eqn:Hact; [|reflexivity].
  apply andb_true_iff in Hact. destruct Hact as [Hkey Henv].
  destruct H as [H | [H | [H | H]]].
  - discriminate.
  - injection H as ->. discriminate.
  - rewrite H, String.eqb_refl in Henv. discriminate.
  - rewrite H. reflexivity.
Qed.

(** X7.  With a non-empty key outside development, the wrapped [send]
    replaces an argument of type object by an envelope [{data}] whose
    ciphertext opens, under the configured key, to [{responseData,
    randNum}]: the argument and the correlation token as JSON carries them.
    The token is, for a GET request, the [x-token] header; for another
    request with a truthy body, the stashed [randNum]; and 0 when that is
    falsy or there is no body. *)
Theorem wrapped_send_seals
  (Hinv : cipher_inverts C) (cfg : Config) (salt : Salt) (req : Request)
  (data : value) (key : jsstring) :
  encryptionKey cfg = Some key -> key <> "" ->
  env cfg <> ENVIRONMENT_MODE_TYPE.dev ->
  typeof_object data = true -> wf data = true ->
  Forall (fun kv => wf (snd kv) = true) (req_headers req) ->
  wf (req_randNum req) = true ->
  exists ct token,
    wrapped_send cfg salt req data = Ok (JObj [("data", JStr ct)]) /\
    decryptData (JStr ct) key
    = Ok (JObj [("responseData", JSON.normal data);
                ("randNum", JSON.normal token)]) /\
    (req_method req = "GET" ->
     token = or_zero (match lookup "x-token" (req_headers req) with
                      | Some x => x
                      | None => JUndefined
                      end)) /\
    (req_method req <> "GET" -> truthy (req_body req) = true ->
     token = or_zero (req_randNum req)) /\
    (req_method req <> "GET" -> truthy (req_body req) = false ->
     token = JNum 0).
Proof.
  intros Hkey Hne Henv Hobj Hwf Hheaders Hrand.
  unfold wrapped_send. rewrite Hkey, (JsFacts.truthy_key Hne).
  apply String.eqb_neq in Henv. rewrite Henv, Hobj. cbn [negb andb].
  set (token := if String.eqb (req_method req) "GET"
                then or_zero (match lookup "x-token" (req_headers req) with
                              | Some x => x
                              | None => JUndefined
                              end)
                else if truthy (req_body req) then or_zero (req_randNum req)
                else JNum 0).
  assert (wf token = true /\ JSON.is_undefined token = false) as [Htw Htok'].
  { assert (forall a, JSON.is_undefined (or_zero a) = false) as Hz.
    { intros a. unfold or_zero. destruct (truthy a) eqn:Ea; [|reflexivity].
      destruct a; try reflexivity. discriminate. }
    assert (forall a, wf a = true -> wf (or_zero a) = true) as Hw.
    { intros a Ha. unfold or_zero. destruct (truthy a); auto. }
    subst token.
    destruct (String.eqb (req_method req) "GET").
    - split; [|apply Hz]. apply Hw.
      destruct (lookup "x-token" (req_headers req)) as [x|] eqn:Hx; [|reflexivity].
      clear - Hheaders Hx. induction Hheaders as [|[k v] l Hv Hl IH]; [discriminate|].
      cbn [lookup] in Hx. cbn [snd] in Hv.
      destruct (str_eqb "x-token" k); [injection Hx as <-; exact Hv | auto].
    - destruct (truthy (req_body req)); [|split; reflexivity].
      split; [now apply Hw | apply Hz]. }
  assert (wf (JObj [("responseData", data); ("randNum", token)]) = true) as Hwf'.
  { cbn. rewrite Hwf, Htw. reflexivity. }
  destruct (seal_then_open Hinv salt _ key Hwf' eq_refl) as (ct & Henc & Hdec).
  exists ct, token. rewrite Henc. cbn [Js.bind]. split; [reflexivity|].
  split.
  - rewrite Hdec. f_equal. cbn [JSON.normal flat_map fst snd List.app].
    destruct data; try discriminate; destruct token; try discriminate; reflexivity.
  - subst token. repeat split.
    + intros ->. reflexivity.
    + intros Hm Hb. apply String.eqb_neq in Hm. rewrite Hm, Hb. reflexivity.
    + intros Hm Hb. apply String.eqb_neq in Hm. rewrite Hm, Hb. reflexivity.
Qed.

(** X8.  The correlation token travels: when an active decoder has
    opened a request other than GET, leaving a truthy body, the envelope the
    wrapped [send] then makes of a well-formed object opens, under the same
    key, to that object and to the [randNum] the decoder has read from the
    request's envelope (0 when that is falsy), both as JSON carries them. *)
Theorem token_is_echoed
  (Hinv : cipher_inverts C) (cfg : Config) (salt : Salt)
  (request request' : Request) (data : value) (key : jsstring) :
  encryptionKey cfg = Some key -> key <> "" ->
  env cfg <> ENVIRONMENT_MODE_TYPE.dev ->
  req_method request <> "GET" ->
  truthy (req_body request) = true ->
  (exists sealed, Js.get (req_body request) "data" = Ok sealed
                  /\ truthy sealed = true) ->
  decoder_handler cfg request = Ok request' ->
  truthy (req_body request') = true ->
  typeof_object data = true -> wf data = true ->
  exists sealed opened ct',
    Js.get (req_body request) "data" = Ok sealed /\
    decryptData sealed key = Ok opened /\
    Js.get opened "randNum" = Ok (req_randNum request') /\
    wrapped_send cfg salt request' data = Ok (JObj [("data", JStr ct')]) /\
    decryptData (JStr ct') key
    = Ok (JObj [("responseData", JSON.normal data);
                ("randNum", JSON.normal (or_zero (req_randNum request')))]).
Proof.
  intros Hkey Hne Henv Hm Hbody (sealed & Hget & Hsealed) Hdecoded Hbody' Hobj Hwf.
  unfold decoder_handler in Hdecoded.
  rewrite Hbody, Hget, Hkey in Hdecoded. cbn [Js.bind of_ostring] in Hdecoded.
  rewrite Hsealed, (JsFacts.truthy_key Hne) in Hdecoded.
  pose proof Henv as Henv'. apply String.eqb_neq in Henv'.
  rewrite Henv' in Hdecoded. cbn [negb andb] in Hdecoded.
  destruct (decryptData sealed key) as [opened|e] eqn:Hopen; [|discriminate].
  cbn [Js.bind] in Hdecoded.
  destruct (Js.get opened "actualData") as [actualData|e] eqn:Ha; [|discriminate].
  cbn [Js.bind] in Hdecoded.
  destruct (Js.get opened "randNum") as [randNum|e] eqn:Hr; [|discriminate].
  cbn [Js.bind] in Hdecoded. injection Hdecoded as <-.
  cbn [req_method req_headers req_body req_randNum] in *.
  assert (wf randNum = true) as Hrw.
  { pose proof (decryptData_sound _ _ Hopen) as Hs.
    apply sound_parts in Hs. destruct Hs as [_ Hw].
    eapply get_wf; eassumption. }
  assert (wf (or_zero randNum) = true
          /\ JSON.is_undefined (or_zero randNum) = false) as [Htw Htu].
  { unfold or_zero. destruct (truthy randNum) eqn:Et; [|split; reflexivity].
    split; [exact Hrw|]. destruct randNum; try reflexivity. discriminate. }
  assert (wf (JObj [("responseData", data); ("randNum", or_zero randNum)]) = true)
    as Hwf'.
  { cbn. rewrite Hwf, Htw. reflexivity. }
  destruct (seal_then_open Hinv salt _ key Hwf' eq_refl) as (ct' & Henc' & Hdec').
  exists sealed, opened, ct'.
  split; [exact Hget|]. split; [exact Hopen|]. split; [exact Hr|].
  unfold wrapped_send. cbn [req_method req_headers req_body req_randNum].
  rewrite Hkey, (JsFacts.truthy_key Hne), Henv'.
  apply String.eqb_neq in Hm. rewrite Hm, Hbody', Hobj. cbn [negb andb].
  rewrite Henc'. cbn [Js.bind]. split; [reflexivity|].
  rewrite Hdec'. f_equal. cbn [JSON.normal flat_map fst snd List.app].
  destruct data; try discriminate;
    destruct (or_zero randNum); try discriminate; reflexivity.
Qed.

(** The error the decoder throws is the TypeError of a property read. *)
Lemma decoder_throws_type_error (cfg : Config) (request : Request) (e : Err) :
  decoder_handler cfg request = Throw e -> e_class e = C_TypeError.
Proof.
  unfold decoder_handler.
  destruct (truthy (req_body request)) eqn:Hb; [|discriminate].
  assert (exists data, Js.get (req_body request) "data" = Ok data) as [data Hget].
  { destruct (req_body request); cbn in Hb |- *; try discriminate; eauto. }
  rewrite Hget. cbn [Js.bind].
  destruct (truthy data && truthy (of_ostring (encryptionKey cfg))
            && negb (String.eqb (env cfg) ENVIRONMENT_MODE_TYPE.dev));
    [|discriminate].
  destruct (decryptData_returns data
              (match encryptionKey cfg with Some k => k | None => js "" end))
    as [v Hv].
  rewrite Hv. cbn [Js.bind].
  destruct v; cbn; try discriminate; intros [= <-]; reflexivity.
Qed.

End with_cipher.

(** X1 on a payload with an [undefined] property and an [undefined] array
    element. *)
Lemma roundtrip_drops_undefined_witness :
  exists ct,
    encryptData (E:=Samples.engine) (C:=Samples.strict_cipher) tt Samples.sparse_payload "s3cret" = Ok ct /\
    decryptData (E:=Samples.engine) (C:=Samples.strict_cipher) (JStr ct) "s3cret"
    = Ok (JSON.normal (E:=Samples.engine) Samples.sparse_payload).
Proof.
  apply (@roundtrip_drops_undefined Samples.engine Samples.strict_cipher
           CodecFacts.strict_cipher_inverts tt Samples.sparse_payload "s3cret");
    reflexivity.
Defined.

(** X2 on a ciphertext opened under another key. *)
Lemma decryptData_returns_json_witness :
  JStr "" <> JUndefined /\ defined (JStr "") = true /\ wf (JStr "") = true.
Proof.
  apply (@decryptData_returns_json Samples.engine Samples.lenient_cipher (JStr "k1|1") "k2" (JStr "")).
  reflexivity.
Defined.

(** X3 in development. *)
Lemma decoder_is_inert_witness :
  decoder_handler (E:=Samples.engine) (C:=Samples.strict_cipher) Samples.appConfig
    (Samples.sealed_request "POST")
  = Ok (Samples.sealed_request "POST").
Proof.
  apply (@decoder_is_inert Samples.engine Samples.strict_cipher Samples.appConfig
           (Samples.sealed_request "POST")).
  left. reflexivity.
Defined.

(** X4 on a production request sealed under another key. *)
Lemma decoder_throws_only_on_null_witness :
  exists data key,
    truthy (JObj [("data", JStr "other|{}")]) = true /\
    Js.get (JObj [("data", JStr "other|{}")]) "data" = Ok data /\
    truthy data = true /\
    encryptionKey Samples.prodConfig = Some key /\ key <> "" /\
    env Samples.prodConfig <> ENVIRONMENT_MODE_TYPE.dev /\
    decryptData (E:=Samples.engine) (C:=Samples.strict_cipher) data key = Ok JNull.
Proof.
  apply (@decoder_throws_only_on_null Samples.engine Samples.strict_cipher Samples.prodConfig
           (mkRequest "POST" [] (JObj [("data", JStr "other|{}")]) JUndefined)
           (native_error C_TypeError "TypeError"
              "Cannot read properties of null (reading 'actualData')")).
  reflexivity.
Defined.

(** X5 on the sealed sample request. *)
Lemma decoder_unseals_witness :
  decoder_handler (E:=Samples.engine) (C:=Samples.strict_cipher) Samples.prodConfig
    (Samples.sealed_request "POST")
  = Ok (mkRequest "POST" [("x-token", JNum 7)]
          (match lookup "actualData" Samples.envelope_fields with
           | Some a => a
           | None => JUndefined
           end)
          (match lookup "randNum" Samples.envelope_fields with
           | Some r => r
           | None => JUndefined
           end)).
Proof.
  apply (@decoder_unseals Samples.engine Samples.strict_cipher CodecFacts.strict_cipher_inverts
           Samples.prodConfig (Samples.sealed_request "POST") tt
           Samples.envelope_fields "s3cret" Samples.sealed_payload);
    try reflexivity; discriminate.
Defined.

(** X6 on a string answer in production. *)
Lemma wrapped_send_passes_through_witness :
  wrapped_send (E:=Samples.engine) (C:=Samples.strict_cipher) Samples.prodConfig tt
    (Samples.sealed_request "POST") (JStr "ok")
  = Ok (JStr "ok").
Proof.
  apply (@wrapped_send_passes_through Samples.engine Samples.strict_cipher Samples.prodConfig tt
           (Samples.sealed_request "POST") (JStr "ok")).
  right. right. right. reflexivity.
Defined.

(** X7 on a GET request with an [x-token] header. *)
Lemma wrapped_send_seals_witness :
  exists ct token,
    wrapped_send (E:=Samples.engine) (C:=Samples.strict_cipher) Samples.prodConfig tt
      (Samples.sealed_request "GET") Samples.ok_body
    = Ok (JObj [("data", JStr ct)]) /\
    decryptData (E:=Samples.engine) (C:=Samples.strict_cipher) (JStr ct) "s3cret"
    = Ok (JObj [("responseData", JSON.normal (E:=Samples.engine) Samples.ok_body);
                ("randNum", JSON.normal (E:=Samples.engine) token)]) /\
    (req_method (Samples.sealed_request "GET") = "GET" ->
     token = or_zero (match lookup "x-token"
                              (req_headers (Samples.sealed_request "GET")) with
                      | Some x => x
                      | None => JUndefined
                      end)) /\
    (req_method (Samples.sealed_request "GET") <> "GET" ->
     truthy (req_body (Samples.sealed_request "GET")) = true ->
     token = or_zero (req_randNum (Samples.sealed_request "GET"))) /\
    (req_method (Samples.sealed_request "GET") <> "GET" ->
     truthy (req_body (Samples.sealed_request "GET")) = false ->
     token = JNum 0).
Proof.
  apply (@wrapped_send_seals Samples.engine Samples.strict_cipher CodecFacts.strict_cipher_inverts
           Samples.prodConfig tt (Samples.sealed_request "GET") Samples.ok_body
           "s3cret");
    try reflexivity; try discriminate.
  repeat constructor.
Defined.

(** X8 on the sealed sample request and the sample answer. *)
Lemma token_is_echoed_witness :
  exists sealed opened ct',
    Js.get (req_body (Samples.sealed_request "POST")) "data" = Ok sealed /\
    decryptData (E:=Samples.engine) (C:=Samples.strict_cipher) sealed "s3cret"
    = Ok opened /\
    Js.get opened "randNum" = Ok (JNum 42) /\
    wrapped_send (E:=Samples.engine) (C:=Samples.strict_cipher) Samples.prodConfig tt
      (mkRequest "POST" [("x-token", JNum 7)]
         (JObj [("name", JStr "Ada"); ("price", JNum 9.99);
                ("currency", JStr Samples.euro);
                ("tags", JArr [JNum 1; JNull])])
         (JNum 42))
      Samples.ok_body
    = Ok (JObj [("data", JStr ct')]) /\
    decryptData (E:=Samples.engine) (C:=Samples.strict_cipher) (JStr ct') "s3cret"
    = Ok (JObj [("responseData", JSON.normal (E:=Samples.engine) Samples.ok_body);
                ("randNum", JSON.normal (E:=Samples.engine) (or_zero (JNum 42)))]).
Proof.
  apply (@token_is_echoed Samples.engine Samples.strict_cipher
           CodecFacts.strict_cipher_inverts Samples.prodConfig tt
           (Samples.sealed_request "POST")
           (mkRequest "POST" [("x-token", JNum 7)]
              (JObj [("name", JStr "Ada"); ("price", JNum 9.99);
                     ("currency", JStr Samples.euro);
                     ("tags", JArr [JNum 1; JNull])])
              (JNum 42))
           Samples.ok_body "s3cret");
    try (vm_compute; reflexivity); try discriminate.
  eexists. split; vm_compute; reflexivity.
Defined.

End EnvelopeFacts.

(* ================================================================== *)
(** * Facts: the translation stages and the answer to an error           *)
(* ================================================================== *)

Module TranslationFacts.
Import Server.

Lemma api_class_instanceof (err : Err) :
  Errors.is_api_class (e_class err) = true ->
  Errors.instanceof err C_ApiError = true /\
  Errors.instanceof err C_ExtendableError = true /\
  Errors.instanceof err C_SyntaxError = false /\
  Errors.instanceof err C_BadRequest = false /\
  Errors.instanceof err C_Unauthorized = false /\
  Errors.instanceof err C_JwtUnauthorizedError = false /\
  Errors.instanceof err C_NotFound = false /\
  Errors.instanceof err C_MethodNotAllowed = false /\
  Errors.instanceof err C_NotAcceptable = false /\
  Errors.instanceof err C_UnsupportedMediaType = false.
Proof.
  unfold Errors.instanceof. destruct (e_class err); cbn; intros H;
    try discriminate; repeat split.
Qed.

Section with_collaborators.
Context {E : Engine} {H : Host} {K : FixedKinds}.

Lemma second_stage_passes_api_errors (cfg : Config) (err : Err) :
  Errors.is_api_class (e_class err) = true ->
  snd (errorTranslation_handler cfg err) = err.
Proof.
  intros Hc. destruct (api_class_instanceof err Hc) as (Ha & He & Hs & _).
  unfold errorTranslation_handler. rewrite Hs, Ha, He. reflexivity.
Qed.

Lemma first_stage_passes_api_errors (err : Err) :
  Errors.is_api_class (e_class err) = true ->
  openApiErrorTranslation_handler err = err.
Proof.
  intros Hc.
  destruct (api_class_instanceof err Hc)
    as (_ & _ & _ & H1 & H2 & H3 & H4 & H5 & H6 & H7).
  unfold openApiErrorTranslation_handler.
  rewrite H1, H2, H3, H4, H5, H6, H7. reflexivity.
Qed.

Lemma second_stage_yields_api_error (cfg : Config) (err : Err) :
  Errors.is_api_class (e_class (snd (errorTranslation_handler cfg err))) = true.
Proof.
  unfold errorTranslation_handler, Errors.instanceof.
  destruct (e_class err) eqn:Ec; cbn; rewrite ?Ec; reflexivity.
Qed.

(** X9.  An error that already is an [ApiError] (of any of its kinds)
    leaves both translation stages as the same error. *)
Theorem api_errors_pass_unchanged (cfg : Config) (err : Err) :
  Errors.instanceof err C_ApiError = true ->
  openApiErrorTranslation_handler err = err /\ translate cfg err = err.
Proof.
  intros Hc. change (Errors.is_api_class (e_class err) = true) in Hc.
  pose proof (first_stage_passes_api_errors err Hc) as H1.
  split; [exact H1|]. unfold translate. rewrite H1.
  now apply second_stage_passes_api_errors.
Qed.

(** X10.  Whatever error enters, and whatever the fixed-status kinds of
    js-node-errors build, an [ApiError] leaves the translation stages; and
    translating twice is translating once. *)
Theorem translation_yields_api_error (cfg : Config) (err : Err) :
  Errors.instanceof (translate cfg err) C_ApiError = true /\
  translate cfg (translate cfg err) = translate cfg err.
Proof.
  assert (Errors.is_api_class (e_class (translate cfg err)) = true) as Hc.
  { unfold translate. apply second_stage_yields_api_error. }
  split; [exact Hc|].
  unfold translate at 1. rewrite (first_stage_passes_api_errors _ Hc).
  now apply second_stage_passes_api_errors.
Qed.

(** The answer to an error built by [new ApiError]: status and body. *)
Lemma answer_to_api_error
  (cfg : Config) (message : jsstring) (options : Errors.Options)
  (cause : option Err) (res : Response) :
  headersSent res = false -> wf (Errors.o_code options) = true ->
  let error := Errors.ApiError message options cause in
  let res' := fst (errorHandling_handler cfg error res) in
  statusCode res' = e_status error /\
  exists v,
    wire_body res' = Ok v /\
    Js.get v "message"
    = Ok (JStr (if e_isPublic error then message
                else "An unexpected error has occurred")) /\
    Js.get v "code" = Ok (JSON.normal (e_code error)).
Proof.
  intros Hsent Hcode error res'.
  assert (Errors.error_wf error = true) as Hwf.
  { unfold Errors.error_wf, error, Errors.ApiError. cbn.
    destruct (Errors.o_code options); cbn in *; rewrite ?Hcode; reflexivity. }
  destruct (ErrorFacts.rendered_error cfg error res Hsent Hwf)
    as (_ & _ & Hstatus & Hbody).
  split; [exact Hstatus|]. eexists. split; [exact Hbody|].
  split; [reflexivity|].
  unfold error, Errors.ApiError. cbn [e_code e_stack e_class e_details].
  destruct (Errors.o_code options);
    destruct (String.eqb (env cfg) GLOBAL.ENV_DEV); reflexivity.
Qed.

(** X11.  A SyntaxError (a body that is not JSON) leaves the translation
    stages as a public [ApiError] of status 400 and code
    [error.request.invalid] that keeps the parser's message and wraps the
    SyntaxError; the terminal handler answers it with status 400 and that
    message. *)
Theorem syntax_error_is_400 (cfg : Config) (err : Err) (res : Response) :
  Errors.instanceof err C_SyntaxError = true ->
  headersSent res = false ->
  let e' := translate cfg err in
  e' = Errors.ApiError (e_message err)
         (Errors.mkOptions (JStr "error.request.invalid") (Some 400%Z) (Some true))
         (Some err) /\
  let res' := fst (errorHandling_handler cfg e' res) in
  statusCode res' = 400%Z /\
  exists v,
    wire_body res' = Ok v /\
    Js.get v "message" = Ok (JStr (e_message err)) /\
    Js.get v "code" = Ok (JStr "error.request.invalid").
Proof.
  intros Hs Hsent.
  assert (e_class err = C_SyntaxError) as Hc.
  { unfold Errors.instanceof in Hs. destruct (e_class err); try discriminate.
    reflexivity. }
  assert (translate cfg err
          = Errors.ApiError (e_message err)
              (Errors.mkOptions (JStr "error.request.invalid") (Some 400%Z) (Some true))
              (Some err)) as Ht.
  { unfold translate, openApiErrorTranslation_handler, errorTranslation_handler,
      Errors.instanceof. rewrite Hc. cbn. rewrite Hc. reflexivity. }
  cbv zeta. rewrite Ht. split; [reflexivity|].
  apply (answer_to_api_error cfg (e_message err)
           (Errors.mkOptions (JStr "error.request.invalid") (Some 400%Z) (Some true))
           (Some err) res Hsent eq_refl).
Qed.

Lemma plain_error_translation (cfg : Config) (err : Err) :
  e_class err = C_Error \/ e_class err = C_TypeError ->
  translate cfg err = Errors.ApiError (e_message err) Errors.no_options (Some err).
Proof.
  intros Hc.
  unfold translate, openApiErrorTranslation_handler, errorTranslation_handler,
    Errors.instanceof.
  destruct Hc as [Hc|Hc]; rewrite Hc; cbn; rewrite Hc; reflexivity.
Qed.

(** X12.  A plain runtime error (an [Error] or a [TypeError], such as the
    one the decoder throws) leaves the translation stages as a non-public
    [ApiError] of status 500 and code [error.unexpected]; the terminal
    handler answers it with status 500 and the fixed message, and the
    error's own message is not in the body. *)
Theorem plain_error_is_500 (cfg : Config) (err : Err) (res : Response) :
  e_class err = C_Error \/ e_class err = C_TypeError ->
  headersSent res = false ->
  let e' := translate cfg err in
  e' = Errors.ApiError (e_message err) Errors.no_options (Some err) /\
  let res' := fst (errorHandling_handler cfg e' res) in
  statusCode res' = 500%Z /\
  exists v,
    wire_body res' = Ok v /\
    Js.get v "message" = Ok (JStr "An unexpected error has occurred") /\
    Js.get v "code" = Ok (JStr "error.unexpected").
Proof.
  intros Hc Hsent.
  pose proof (plain_error_translation cfg err Hc) as Ht.
  cbv zeta. rewrite Ht. split; [reflexivity|].
  apply (answer_to_api_error cfg (e_message err) Errors.no_options
           (Some err) res Hsent eq_refl).
Qed.

(** X13.  An [ExtendableError] that is no [ApiError] leaves the
    translation stages as a non-public [ApiError] of status 500 that keeps
    the error's code ([error.unexpected] when it has none); the terminal
    handler answers it with status 500, the fixed message and that code
    as JSON carries it. *)
Theorem extendable_error_keeps_code (cfg : Config) (err : Err) (res : Response) :
  e_class err = C_ExtendableError ->
  wf (e_code err) = true ->
  headersSent res = false ->
  let e' := translate cfg err in
  e' = Errors.ApiError (e_message err)
         (Errors.mkOptions (e_code err) None None) (Some err) /\
  let res' := fst (errorHandling_handler cfg e' res) in
  statusCode res' = 500%Z /\
  exists v,
    wire_body res' = Ok v /\
    Js.get v "message" = Ok (JStr "An unexpected error has occurred") /\
    Js.get v "code"
    = Ok (JSON.normal (match e_code err with
                       | JUndefined => JStr "error.unexpected"
                       | c => c
                       end)).
Proof.
  intros Hc Hcode Hsent.
  assert (translate cfg err
          = Errors.ApiError (e_message err)
              (Errors.mkOptions (e_code err) None None) (Some err)) as Ht.
  { unfold translate, openApiErrorTranslation_handler, errorTranslation_handler,
      Errors.instanceof. rewrite Hc. cbn. rewrite Hc. reflexivity. }
  cbv zeta. rewrite Ht. split; [reflexivity|].
  apply (answer_to_api_error cfg (e_message err)
           (Errors.mkOptions (e_code err) None None) (Some err) res Hsent Hcode).
Qed.

(** X14.  The terminal handler writes a response once: after it has
    answered an error, any further error on that response is forwarded and
    the response stays as answered. *)
Theorem handler_writes_once (cfg : Config) (error later : Err) (res : Response) :
  headersSent res = false ->
  let res' := fst (errorHandling_handler cfg error res) in
  headersSent res' = true /\
  snd (errorHandling_handler cfg error res) = None /\
  errorHandling_handler cfg later res' = (res', Some later).
Proof.
  intros Hsent. unfold errorHandling_handler at 1 2. rewrite Hsent.
  destruct (Errors.instanceof error C_DetailedError); cbn [fst snd];
    (split; [reflexivity|]); (split; [reflexivity|]);
    unfold errorHandling_handler; reflexivity.
Qed.

(** X15.  The 404 fallback: its error passes the translation stages
    unchanged, and the terminal handler answers it with status 404, the
    message [API endpoint not found] and the code
    [error.endpoint.not-found]. *)
Theorem unmatched_route_is_404 (cfg : Config) (res : Response) :
  headersSent res = false ->
  translate cfg notFound_handler = notFound_handler /\
  let res' := fst (errorHandling_handler cfg (translate cfg notFound_handler) res) in
  statusCode res' = 404%Z /\
  exists v,
    wire_body res' = Ok v /\
    Js.get v "message" = Ok (JStr "API endpoint not found") /\
    Js.get v "code" = Ok (JStr "error.endpoint.not-found").
Proof.
  intros Hsent.
  assert (translate cfg notFound_handler = notFound_handler) as Ht by reflexivity.
  split; [exact Ht|]. cbv zeta. rewrite Ht.
  apply (answer_to_api_error cfg "API endpoint not found"
           (Errors.mkOptions (JStr "error.endpoint.not-found")
                             (Some httpStatus.NOT_FOUND) (Some true))
           None res Hsent eq_refl).
Qed.

(** X16.  A request whose body the decoder fails on is answered, once
    the error has gone through the translation stages and the terminal
    handler, with status 500, the fixed message and the code
    [error.unexpected]. *)
Theorem decoder_failure_is_500
  {C : CryptoJS} (cfg : Config) (request : Request) (e : Err) (res : Response) :
  decoder_handler cfg request = Throw e ->
  headersSent res = false ->
  let res' := fst (errorHandling_handler cfg (translate cfg e) res) in
  statusCode res' = 500%Z /\
  exists v,
    wire_body res' = Ok v /\
    Js.get v "message" = Ok (JStr "An unexpected error has occurred") /\
    Js.get v "code" = Ok (JStr "error.unexpected").
Proof.
  intros Hthrow Hsent.
  pose proof (EnvelopeFacts.decoder_throws_type_error _ _ Hthrow) as Hc.
  cbv zeta. rewrite (plain_error_translation cfg e (or_intror Hc)).
  apply (answer_to_api_error cfg (e_message e) Errors.no_options
           (Some e) res Hsent eq_refl).
Qed.

End with_collaborators.

(** X9 on the public application error of the test suite. *)
Lemma api_errors_pass_unchanged_witness :
  openApiErrorTranslation_handler (H:=Samples.host) (K:=Samples.kinds)
    (Samples.sample_api_error true)
  = Samples.sample_api_error true /\
  translate (H:=Samples.host) (K:=Samples.kinds) Samples.appConfig
    (Samples.sample_api_error true)
  = Samples.sample_api_error true.
Proof.
  apply (@api_errors_pass_unchanged Samples.host Samples.kinds Samples.appConfig
           (Samples.sample_api_error true)).
  reflexivity.
Defined.

(** X11 on the SyntaxError of the test suite. *)
Lemma syntax_error_is_400_witness :
  let e' := translate (H:=Samples.host) (K:=Samples.kinds) Samples.appConfig
              Samples.sample_syntax_error in
  e' = Errors.ApiError (H:=Samples.host) (e_message Samples.sample_syntax_error)
         (Errors.mkOptions (JStr "error.request.invalid") (Some 400%Z) (Some true))
         (Some Samples.sample_syntax_error) /\
  let res' := fst (errorHandling_handler (E:=Samples.engine) Samples.appConfig e' Samples.fresh_response) in
  statusCode res' = 400%Z /\
  exists v,
    wire_body (E:=Samples.engine) res' = Ok v /\
    Js.get v "message" = Ok (JStr (e_message Samples.sample_syntax_error)) /\
    Js.get v "code" = Ok (JStr "error.request.invalid").
Proof.
  apply (@syntax_error_is_400 Samples.engine Samples.host Samples.kinds Samples.appConfig
           Samples.sample_syntax_error Samples.fresh_response); reflexivity.
Defined.

(** X12 on the plain error of the test suite. *)
Lemma plain_error_is_500_witness :
  let e' := translate (H:=Samples.host) (K:=Samples.kinds) Samples.appConfig
              Samples.sample_plain_error in
  e' = Errors.ApiError (H:=Samples.host) (e_message Samples.sample_plain_error)
         Errors.no_options (Some Samples.sample_plain_error) /\
  let res' := fst (errorHandling_handler (E:=Samples.engine) Samples.appConfig e' Samples.fresh_response) in
  statusCode res' = 500%Z /\
  exists v,
    wire_body (E:=Samples.engine) res' = Ok v /\
    Js.get v "message" = Ok (JStr "An unexpected error has occurred") /\
    Js.get v "code" = Ok (JStr "error.unexpected").
Proof.
  apply (@plain_error_is_500 Samples.engine Samples.host Samples.kinds Samples.appConfig
           Samples.sample_plain_error Samples.fresh_response);
    [left|]; reflexivity.
Defined.

(** X13 on the extendable error of the test suite. *)
Lemma extendable_error_keeps_code_witness :
  let e' := translate (H:=Samples.host) (K:=Samples.kinds) Samples.appConfig
              Samples.sample_extendable_error in
  e' = Errors.ApiError (H:=Samples.host) (e_message Samples.sample_extendable_error)
         (Errors.mkOptions (e_code Samples.sample_extendable_error) None None)
         (Some Samples.sample_extendable_error) /\
  let res' := fst (errorHandling_handler (E:=Samples.engine) Samples.appConfig e' Samples.fresh_response) in
  statusCode res' = 500%Z /\
  exists v,
    wire_body (E:=Samples.engine) res' = Ok v /\
    Js.get v "message" = Ok (JStr "An unexpected error has occurred") /\
    Js.get v "code"
    = Ok (JSON.normal (E:=Samples.engine) (match e_code Samples.sample_extendable_error with
                       | JUndefined => JStr "error.unexpected"
                       | c => c
                       end)).
Proof.
  apply (@extendable_error_keeps_code Samples.engine Samples.host Samples.kinds Samples.appConfig
           Samples.sample_extendable_error Samples.fresh_response); reflexivity.
Defined.

(** X14 on a fresh response. *)
Lemma handler_writes_once_witness :
  let res' := fst (errorHandling_handler (E:=Samples.engine) Samples.prodConfig
                     (Samples.sample_api_error true) Samples.fresh_response) in
  headersSent res' = true /\
  snd (errorHandling_handler (E:=Samples.engine) Samples.prodConfig (Samples.sample_api_error true)
         Samples.fresh_response) = None /\
  errorHandling_handler (E:=Samples.engine) Samples.prodConfig Samples.sample_detailed_error res'
  = (res', Some Samples.sample_detailed_error).
Proof.
  apply (@handler_writes_once Samples.engine Samples.prodConfig (Samples.sample_api_error true)
           Samples.sample_detailed_error Samples.fresh_response).
  reflexivity.
Defined.

(** X15 on a fresh response in production. *)
Lemma unmatched_route_is_404_witness :
  translate (H:=Samples.host) (K:=Samples.kinds) Samples.prodConfig
    (notFound_handler (H:=Samples.host))
  = notFound_handler (H:=Samples.host) /\
  let res' := fst (errorHandling_handler (E:=Samples.engine) Samples.prodConfig
                     (translate (H:=Samples.host) (K:=Samples.kinds)
                        Samples.prodConfig (notFound_handler (H:=Samples.host)))
                     Samples.fresh_response) in
  statusCode res' = 404%Z /\
  exists v,
    wire_body (E:=Samples.engine) res' = Ok v /\
    Js.get v "message" = Ok (JStr "API endpoint not found") /\
    Js.get v "code" = Ok (JStr "error.endpoint.not-found").
Proof.
  apply (@unmatched_route_is_404 Samples.engine Samples.host Samples.kinds Samples.prodConfig
           Samples.fresh_response).
  reflexivity.
Defined.

(** X16 on a production request sealed under another key. *)
Lemma decoder_failure_is_500_witness :
  let res' :=
    fst (errorHandling_handler (E:=Samples.engine) Samples.prodConfig
           (translate (H:=Samples.host) (K:=Samples.kinds) Samples.prodConfig
              (native_error C_TypeError "TypeError"
                 "Cannot read properties of null (reading 'actualData')"))
           Samples.fresh_response) in
  statusCode res' = 500%Z /\
  exists v,
    wire_body (E:=Samples.engine) res' = Ok v /\
    Js.get v "message" = Ok (JStr "An unexpected error has occurred") /\
    Js.get v "code" = Ok (JStr "error.unexpected").
Proof.
  apply (@decoder_failure_is_500 Samples.engine Samples.host Samples.kinds Samples.strict_cipher
           Samples.prodConfig
           (mkRequest "POST" [] (JObj [("data", JStr "other|{}")]) JUndefined)
           (native_error C_TypeError "TypeError"
              "Cannot read properties of null (reading 'actualData')")
           Samples.fresh_response); reflexivity.
Defined.

End TranslationFacts.

(* ================================================================== *)
(** * Facts: the dynamic route table, operations and the access log      *)
(* ================================================================== *)

Module RouterFacts.
Import Server.

Section with_host.
Context {H : Host}.

(** One call of [reloadDynamicRouter], spelled out. *)
Lemma reload_unfold (disk : Disk) (spec : value) (s : App) :
  reloadDynamicRouter disk spec s =
  if truthy spec || truthy (of_ostring (openapiBaseSchema (config s))) then
    match (if truthy spec then Ok spec
           else YAML_load disk (of_ostring (openapiBaseSchema (config s)))) with
    | Ok document =>
        (Ok tt,
         mkApp (app s) (readyState s) (config s)
               (Some [R_swaggerUI API.SWAGGER_UI document;
                      R_openApiValidator
                        (if truthy spec then spec
                         else of_ostring (openapiBaseSchema (config s)))]))
    | Throw e => (Throw e, mkApp (app s) (readyState s) (config s) (Some []))
    end
  else (Ok tt, mkApp (app s) (readyState s) (config s) (Some [])).
Proof.
  destruct s as [a rs cfg dr]. LifecycleFacts.run_methods.
  destruct (truthy spec || truthy (of_ostring (openapiBaseSchema cfg)));
    LifecycleFacts.run_methods; [|reflexivity].
  destruct (if truthy spec then Ok spec
            else YAML_load disk (of_ostring (openapiBaseSchema cfg)));
    reflexivity.
Qed.

Lemma reload_frame (disk : Disk) (spec : value) (s : App) :
  app (snd (reloadDynamicRouter disk spec s)) = app s /\
  config (snd (reloadDynamicRouter disk spec s)) = config s /\
  dynamicRouter (snd (reloadDynamicRouter disk spec s)) <> None.
Proof.
  rewrite reload_unfold.
  destruct (truthy spec || truthy (of_ostring (openapiBaseSchema (config s))));
    [destruct (if truthy spec then Ok spec
               else YAML_load disk (of_ostring (openapiBaseSchema (config s))))|];
    cbn; repeat split; discriminate.
Qed.

(** X17.  [reloadDynamicRouter] touches the route table only: the
    application's layers, the readiness state and the configuration are as
    before.  The table it leaves does not depend on the table it found, so
    reloading twice with one schema leaves what reloading once leaves. *)
Theorem reload_replaces_the_table (disk : Disk) (spec : value) (s : App) :
  let s' := snd (reloadDynamicRouter disk spec s) in
  app s' = app s /\ readyState s' = readyState s /\ config s' = config s /\
  (forall table,
      reloadDynamicRouter disk spec (mkApp (app s) (readyState s) (config s) table)
      = reloadDynamicRouter disk spec s) /\
  reloadDynamicRouter disk spec s' = reloadDynamicRouter disk spec s.
Proof.
  cbv zeta. destruct (reload_frame disk spec s) as (Ha & Hc & _).
  pose proof (LifecycleFacts.reload_readyState disk spec s) as Hr.
  set (s' := snd (reloadDynamicRouter disk spec s)) in *. clearbody s'.
  split; [exact Ha|]. split; [exact Hr|]. split; [exact Hc|]. split.
  - intros table. rewrite !reload_unfold. reflexivity.
  - rewrite !reload_unfold, Ha, Hc, Hr. reflexivity.
Qed.

(** X18.  A reload throws only what [YAML.load] throws on the configured
    schema path, and only when no in-memory schema was passed; it then
    leaves the instance with an empty route table, whatever table the
    instance had. *)
Theorem failed_reload_empties_the_table
  (disk : Disk) (spec : value) (s : App) (e : Err) :
  fst (reloadDynamicRouter disk spec s) = Throw e ->
  truthy spec = false /\
  YAML_load disk (of_ostring (openapiBaseSchema (config s))) = Throw e /\
  dynamicRouter (snd (reloadDynamicRouter disk spec s)) = Some [] /\
  dynamicRouter_dispatch (snd (reloadDynamicRouter disk spec s)) = Ok [].
Proof.
  rewrite reload_unfold.
  destruct (truthy spec || truthy (of_ostring (openapiBaseSchema (config s))));
    [|discriminate].
  destruct (truthy spec); [discriminate|].
  destruct (YAML_load disk (of_ostring (openapiBaseSchema (config s)))) as [d|e'];
    [discriminate|].
  cbn. intros [= ->]. auto.
Qed.

(** X19.  [init] throws only what [YAML.load] throws on the configured
    schema path, when the configuration has that path and no in-memory
    schema; it never throws the error of a route table used before it was
    created.  A throwing [init] has registered the logging, security, health
    and decoder layers and nothing after them, and leaves an empty route
    table. *)
Theorem init_throws_only_yaml_errors (disk : Disk) (s : App) (e : Err) :
  fst (init disk s) = Throw e ->
  truthy (openapiSpec (config s)) = false /\
  truthy (of_ostring (openapiBaseSchema (config s))) = true /\
  YAML_load disk (of_ostring (openapiBaseSchema (config s))) = Throw e /\
  stack (app (snd (init disk s))) = stack (app s) ++ stages_before_router /\
  dynamicRouter (snd (init disk s)) = Some [] /\
  readyState (snd (init disk s)) = readyState s.
Proof.
  rewrite LifecycleFacts.init_unfold. cbv zeta. unfold has_schema.
  destruct (truthy (openapiSpec (config s))); [discriminate|].
  cbn [orb].
  destruct (truthy (of_ostring (openapiBaseSchema (config s)))); [|discriminate].
  destruct (YAML_load disk (of_ostring (openapiBaseSchema (config s)))) as [d|e'];
    [discriminate|].
  cbn [fst snd app stack dynamicRouter readyState]. intros [= ->]. repeat split.
Qed.

(** X20.  With an in-memory schema, or with no schema source at all,
    [init] returns, from whatever state. *)
Theorem init_returns_without_schema_file (disk : Disk) (s : App) :
  truthy (openapiSpec (config s)) = true \/ has_schema (config s) = false ->
  exists a, fst (init disk s) = Ok a /\ readyState (snd (init disk s)) = true.
Proof.
  rewrite LifecycleFacts.init_unfold. cbv zeta. unfold has_schema.
  intros [Hs | Hn].
  - rewrite Hs. cbn. eauto.
  - rewrite Hn. cbn. eauto.
Qed.

(** X21.  The table [init] leaves holds the schema validator twice (once
    from the reload inside [init], once from [init] itself); a later
    [reloadDynamicRouter] with the configured schema leaves it once: on the
    same files, and, when the schema is in memory, whatever the files. *)
Theorem init_registers_validator_twice (disk : Disk) (s : App) (a : Express) :
  has_schema (config s) = true ->
  fst (init disk s) = Ok a ->
  exists document,
    dynamicRouter (snd (init disk s))
    = Some [R_swaggerUI API.SWAGGER_UI document;
            R_openApiValidator (validator_source (config s));
            R_openApiValidator (validator_source (config s))] /\
    dynamicRouter
      (snd (reloadDynamicRouter disk (openapiSpec (config s)) (snd (init disk s))))
    = Some [R_swaggerUI API.SWAGGER_UI document;
            R_openApiValidator (validator_source (config s))] /\
    (truthy (openapiSpec (config s)) = true ->
     forall disk',
       dynamicRouter
         (snd (reloadDynamicRouter disk' (openapiSpec (config s)) (snd (init disk s))))
       = Some [R_swaggerUI API.SWAGGER_UI document;
               R_openApiValidator (validator_source (config s))]).
Proof.
  intros Hs. rewrite LifecycleFacts.init_unfold. cbv zeta.
  rewrite Hs. unfold validator_source.
  destruct (if truthy (openapiSpec (config s)) then Ok (openapiSpec (config s))
            else YAML_load disk (of_ostring (openapiBaseSchema (config s))))
    as [document|e] eqn:Hdoc; [|discriminate].
  intros _. exists document. cbn [snd config dynamicRouter].
  unfold has_schema in Hs. split; [reflexivity|]. split.
  - rewrite reload_unfold. cbn [config]. rewrite Hs, Hdoc. reflexivity.
  - intros Hspec disk'. rewrite reload_unfold. cbn [config].
    rewrite Hspec in Hdoc |- *. injection Hdoc as <-. reflexivity.
Qed.

Lemma init_frame (disk : Disk) (s : App) :
  config (snd (init disk s)) = config s /\
  (exists added, stack (app (snd (init disk s))) = stack (app s) ++ added) /\
  dynamicRouter (snd (init disk s)) <> None.
Proof.
  rewrite LifecycleFacts.init_unfold. cbv zeta.
  destruct (has_schema (config s));
    [destruct (if truthy (openapiSpec (config s)) then Ok (openapiSpec (config s))
               else YAML_load disk (of_ostring (openapiBaseSchema (config s))))|];
    cbn; repeat split; eauto; discriminate.
Qed.

Lemma run_op_frame (o : Op) (s : App) :
  config (run_op o s) = config s /\
  (exists added, stack (app (run_op o s)) = stack (app s) ++ added) /\
  (dynamicRouter s <> None -> dynamicRouter (run_op o s) <> None).
Proof.
  destruct o as [disk|disk spec|]; cbn [run_op].
  - destruct (init_frame disk s) as (Hc & Hs & Hd). auto.
  - destruct (reload_frame disk spec s) as (Ha & Hc & Hd).
    repeat split; auto. exists []. rewrite Ha. symmetry. apply List.app_nil_r.
  - repeat split; auto. exists []. symmetry. apply List.app_nil_r.
Qed.

Lemma operations_step (ops : list Op) (s : App) :
  dynamicRouter s <> None ->
  exists layers, dynamicRouter (run_ops ops s) = Some layers.
Proof.
  revert s. induction ops as [|o ops IH]; intros s Hd.
  - cbn. destruct (dynamicRouter s); [eauto | congruence].
  - cbn [run_ops fold_left]. apply IH. now apply run_op_frame.
Qed.

(** X22.  Through every sequence of operations the configuration stays
    the one the instance was built with, the layers of the application are
    only added to (those registered stay, in their order), and a route
    table, once there, is never taken away. *)
Theorem operations_keep (ops : list Op) (s : App) :
  config (run_ops ops s) = config s /\
  (exists added, stack (app (run_ops ops s)) = stack (app s) ++ added) /\
  (dynamicRouter s <> None -> dynamicRouter (run_ops ops s) <> None).
Proof.
  revert s. induction ops as [|o ops IH]; intros s.
  - repeat split; auto. exists []. symmetry. apply List.app_nil_r.
  - cbn [run_ops fold_left]. fold (run_ops ops (run_op o s)).
    destruct (IH (run_op o s)) as (Hc & (added & Hs) & Hd).
    destruct (run_op_frame o s) as (Hc' & (added' & Hs') & Hd').
    repeat split.
    + congruence.
    + exists (added' ++ added). rewrite Hs, Hs'. symmetry. apply List.app_assoc.
    + auto.
Qed.

(** X23.  Once [init] has been called, whether it returned or threw,
    the dispatch into the dynamic route table finds a table, after every
    further sequence of operations: it never throws the error of a table
    used before it was created. *)
Theorem dispatch_finds_a_table (disk : Disk) (ops : list Op) (s : App) :
  exists layers,
    dynamicRouter_dispatch (run_ops (OpInit disk :: ops) s) = Ok layers.
Proof.
  cbn [run_ops fold_left]. fold (run_ops ops (run_op (OpInit disk) s)).
  destruct (init_frame disk s) as (_ & _ & Hd).
  destruct (operations_step ops (run_op (OpInit disk) s) Hd) as [layers Hl].
  exists layers. unfold dynamicRouter_dispatch. rewrite Hl. reflexivity.
Qed.

(** Whether [init] can fail on a configuration: only a schema read from
    a file can. *)
Lemma init_sets_ready (disk : Disk) (s : App) :
  truthy (openapiSpec (config s)) = true \/ has_schema (config s) = false ->
  readyState (snd (init disk s)) = true.
Proof.
  rewrite LifecycleFacts.init_unfold. cbv zeta. unfold has_schema.
  intros [Hs | Hn]; [rewrite Hs | rewrite Hn]; reflexivity.
Qed.

Lemma stays_ready (ops : list Op) (s : App) :
  truthy (openapiSpec (config s)) = true \/ has_schema (config s) = false ->
  Forall (fun o => o <> OpShutdown) ops ->
  readyState s = true ->
  readyState (run_ops ops s) = true.
Proof.
  intros Hcfg Hops. revert s Hcfg.
  induction Hops as [|o ops Ho Hops IH]; intros s Hcfg Hs; [exact Hs|].
  cbn [run_ops fold_left]. apply IH.
  - destruct (run_op_frame o s) as (-> & _). exact Hcfg.
  - destruct o as [disk|disk spec|]; cbn [run_op].
    + now apply init_sets_ready.
    + rewrite LifecycleFacts.reload_readyState. exact Hs.
    + congruence.
Qed.

Lemma run_ops_config (ops : list Op) (s : App) :
  config (run_ops ops s) = config s.
Proof.
  revert s. induction ops as [|o ops IH]; intros s; [reflexivity|].
  cbn [run_ops fold_left]. fold (run_ops ops (run_op o s)).
  rewrite IH. apply run_op_frame.
Qed.

(** X24.  On an instance whose schema does not come from a file (an
    in-memory schema, or no schema at all), readiness follows the last
    [init]: after any operations, an [init] and then operations without a
    [shutdown], the instance is ready and the readiness probe answers 200;
    the liveness probe answers 200 throughout. *)
Theorem ready_after_last_init (disk : Disk) (before after : list Op) (s : App) :
  truthy (openapiSpec (config s)) = true \/ has_schema (config s) = false ->
  Forall (fun o => o <> OpShutdown) after ->
  let s' := run_ops (before ++ OpInit disk :: after) s in
  readyState s' = true /\
  ready_check s' = httpStatus.OK /\
  health_check s' = httpStatus.OK.
Proof.
  intros Hcfg Hafter. cbv zeta.
  assert (readyState (run_ops (before ++ OpInit disk :: after) s) = true) as Hr.
  { unfold run_ops. rewrite fold_left_app. cbn [fold_left].
    fold (run_ops before s).
    fold (run_ops after (run_op (OpInit disk) (run_ops before s))).
    assert (truthy (openapiSpec (config (run_ops before s))) = true
            \/ has_schema (config (run_ops before s)) = false) as Hcfg'.
    { rewrite run_ops_config. exact Hcfg. }
    apply stays_ready; auto.
    - destruct (run_op_frame (OpInit disk) (run_ops before s)) as (-> & _). exact Hcfg'.
    - cbn [run_op]. now apply init_sets_ready. }
  unfold ready_check. rewrite Hr. auto.
Qed.

End with_host.

(** X18 on the instance whose schema file is missing. *)
Lemma failed_reload_empties_the_table_witness :
  truthy JUndefined = false /\
  YAML_load (Host:=Samples.host) Samples.disk
    (of_ostring (openapiBaseSchema (config Samples.brokenInstance)))
  = Throw Samples.no_such_file /\
  dynamicRouter (snd (reloadDynamicRouter (H:=Samples.host) Samples.disk JUndefined
                        Samples.brokenInstance)) = Some [] /\
  dynamicRouter_dispatch (snd (reloadDynamicRouter (H:=Samples.host) Samples.disk JUndefined
                                 Samples.brokenInstance)) = Ok [].
Proof.
  apply (@failed_reload_empties_the_table Samples.host Samples.disk JUndefined
           Samples.brokenInstance
           Samples.no_such_file).
  vm_compute. reflexivity.
Defined.

(** X19 on the instance whose schema file is missing. *)
Lemma init_throws_only_yaml_errors_witness :
  truthy (openapiSpec (config Samples.brokenInstance)) = false /\
  truthy (of_ostring (openapiBaseSchema (config Samples.brokenInstance))) = true /\
  YAML_load (Host:=Samples.host) Samples.disk
    (of_ostring (openapiBaseSchema (config Samples.brokenInstance)))
  = Throw Samples.no_such_file /\
  stack (app (snd (init (H:=Samples.host) Samples.disk Samples.brokenInstance)))
  = stack (app Samples.brokenInstance) ++ stages_before_router /\
  dynamicRouter (snd (init (H:=Samples.host) Samples.disk Samples.brokenInstance)) = Some [] /\
  readyState (snd (init (H:=Samples.host) Samples.disk Samples.brokenInstance))
  = readyState Samples.brokenInstance.
Proof.
  apply (@init_throws_only_yaml_errors Samples.host Samples.disk Samples.brokenInstance
           Samples.no_such_file).
  vm_compute. reflexivity.
Defined.

(** X20 on the production instance, whose schema is in memory. *)
Lemma init_returns_without_schema_file_witness :
  exists a,
    fst (init (H:=Samples.host) Samples.disk Samples.prodInstance) = Ok a /\
    readyState (snd (init (H:=Samples.host) Samples.disk Samples.prodInstance)) = true.
Proof.
  apply (@init_returns_without_schema_file Samples.host Samples.disk Samples.prodInstance).
  left. vm_compute. reflexivity.
Defined.

(** X21 on the production instance. *)
Lemma init_registers_validator_twice_witness :
  exists document,
    dynamicRouter (snd (init (H:=Samples.host) Samples.disk Samples.prodInstance))
    = Some [R_swaggerUI API.SWAGGER_UI document;
            R_openApiValidator (validator_source (config Samples.prodInstance));
            R_openApiValidator (validator_source (config Samples.prodInstance))] /\
    dynamicRouter
      (snd (reloadDynamicRouter (H:=Samples.host) Samples.disk
              (openapiSpec (config Samples.prodInstance))
              (snd (init (H:=Samples.host) Samples.disk Samples.prodInstance))))
    = Some [R_swaggerUI API.SWAGGER_UI document;
            R_openApiValidator (validator_source (config Samples.prodInstance))] /\
    (truthy (openapiSpec (config Samples.prodInstance)) = true ->
     forall disk',
       dynamicRouter
         (snd (reloadDynamicRouter (H:=Samples.host) disk'
                 (openapiSpec (config Samples.prodInstance))
                 (snd (init (H:=Samples.host) Samples.disk Samples.prodInstance))))
       = Some [R_swaggerUI API.SWAGGER_UI document;
               R_openApiValidator (validator_source (config Samples.prodInstance))]).
Proof.
  apply (@init_registers_validator_twice Samples.host Samples.disk Samples.prodInstance
           (app (snd (init (H:=Samples.host) Samples.disk Samples.prodInstance))));
    vm_compute; reflexivity.
Defined.

(** X24 on the production instance: shut down, initialised again and
    reloaded. *)
Lemma ready_after_last_init_witness :
  let s' := run_ops (H:=Samples.host)
              ([OpInit Samples.disk; OpShutdown]
               ++ OpInit Samples.empty_disk
                    :: [OpReloadDynamicRouter Samples.empty_disk JUndefined])
              Samples.prodInstance in
  readyState s' = true /\
  ready_check s' = httpStatus.OK /\
  health_check s' = httpStatus.OK.
Proof.
  apply (@ready_after_last_init Samples.host Samples.empty_disk
           [OpInit Samples.disk; OpShutdown]
           [OpReloadDynamicRouter Samples.empty_disk JUndefined] Samples.prodInstance).
  - left. vm_compute. reflexivity.
  - repeat constructor. discriminate.
Defined.
End RouterFacts.

Module LoggingFacts.
Import Server.

Lemma substring_prefix (u b : string) :
  String.substring 0 (String.length u) (u ++ b)%string = u.
Proof. induction u as [|c u IH]; cbn; [now destruct b | now rewrite IH]. Qed.

Lemma substring_skip (a r : string) (n : nat) :
  String.substring (String.length a) n (a ++ r)%string = String.substring 0 n r.
Proof. induction a as [|c a IH]; cbn; auto. Qed.

Lemma index_finds (a url b : string) :
  exists n, String.index 0 url (a ++ url ++ b)%string = Some n.
Proof.
  destruct (String.index 0 url (a ++ url ++ b)%string) as [n|] eqn:E; [eauto|].
  exfalso. destruct url as [|c url].
  - apply String.index_correct4 in E. lia.
  - apply (String.index_correct3 _ (String.length a) _ _ E);
      [discriminate | lia |].
    rewrite substring_skip. apply substring_prefix.
Qed.

Lemma index_in_empty (url : string) :
  url <> "" -> String.index 0 url "" = None.
Proof. destruct url; [congruence | reflexivity]. Qed.

(** X25.  The access log skips a request exactly when its response
    status is 200 and its url occurs in the configured string of ignored
    paths.  The configured value is one string searched for the url, so a
    url that is a fragment of a configured path is skipped too; with the
    empty string configured, no request with a url is skipped. *)
Theorem ignoreRoute_searches_the_string (cfg : Config) (url : string) (statusCode : Z) :
  (statusCode <> httpStatus.OK -> ignoreRoute cfg url statusCode = false) /\
  (forall a b : string,
      ignoredAccessLogPaths cfg = (a ++ url ++ b)%string ->
      ignoreRoute cfg url httpStatus.OK = true) /\
  (ignoreRoute cfg url statusCode = true ->
   statusCode = httpStatus.OK /\
   exists n,
     String.substring n (String.length url) (ignoredAccessLogPaths cfg) = url) /\
  (ignoredAccessLogPaths cfg = "" -> url <> "" ->
   ignoreRoute cfg url statusCode = false).
Proof.
  unfold ignoreRoute, indexOf. split; [|split; [|split]].
  - intros Hs. apply Z.eqb_neq in Hs. rewrite Hs. apply andb_false_r.
  - intros a b ->. destruct (index_finds a url b) as [n ->].
    rewrite Z.eqb_refl, andb_true_r. rewrite Z.gtb_ltb. apply Z.ltb_lt. lia.
  - intros Hi. apply andb_true_iff in Hi. destruct Hi as [Hi Hs].
    split; [now apply Z.eqb_eq|].
    destruct (String.index 0 url (ignoredAccessLogPaths cfg)) as [n|] eqn:E.
    + exists n. eapply String.index_correct1; eassumption.
    + discriminate.
  - intros -> Hu. rewrite (index_in_empty Hu). reflexivity.
Qed.

End LoggingFacts.
